(** * WiredTigerRecoveryUnit: a shallow embedding and its properties

    The development embeds
    [src/mongo/db/storage/wiredtiger/wiredtiger_recovery_unit.cpp]:
    the recovery unit's fields as a record, its member functions as
    computations in a small state monad with two ways of failing (a thrown
    [Status], and a fatal assertion that ends the process), and every call
    into a collaborator (storage engine session, session cache, snapshot
    manager, oplog manager, change handlers) as an event appended to a trace,
    with the collaborator's answer read from an environment record.

    What the embedding leaves out: the text of log lines and of assertion
    messages ([LOG], [str::stream]); the [Timer] object, of which only its
    presence and the elapsed time read at the close remain; the release of
    the session when the recovery unit is destroyed.  Change handlers are
    opaque: a call to one is recorded, returns or throws as the environment
    says, and does not call back into the recovery unit. *)

From Stdlib Require Import NArith ZArith String Ascii.
From stdpp Require Import base option list gmap.

Open Scope N_scope.

(** ** Data model *)

(** Modelled from the spec: the [Timestamp] class (mongo/bson/timestamp.h) is
    not among the sources.  The spec describes it as a 64-bit value; the
    default-constructed [Timestamp()] is the null ("empty") timestamp and
    [asULL] is the value itself. *)
Definition Timestamp : Type := N.
Definition Timestamp_null : Timestamp := 0.
Definition isNull (t : Timestamp) : bool := N.eqb t 0.
Definition asULL (t : Timestamp) : N := t.

(** Modelled from the spec: [integerToHex] (mongo/util/hex.h) is not among the
    sources.  The spec fixes the format: the 64-bit value in lowercase
    base 16, without prefix, sixteen digits. *)
Definition hexDigit (d : N) : ascii :=
  match d with
  | 0 => "0" | 1 => "1" | 2 => "2" | 3 => "3" | 4 => "4" | 5 => "5"
  | 6 => "6" | 7 => "7" | 8 => "8" | 9 => "9" | 10 => "a" | 11 => "b"
  | 12 => "c" | 13 => "d" | 14 => "e" | _ => "f"
  end%char.

Fixpoint hexDigits (width : nat) (v : N) (acc : string) : string :=
  match width with
  | O => acc
  | S k => hexDigits k (v / 16) (String (hexDigit (v mod 16)) acc)
  end.

Definition integerToHex (v : N) : string := hexDigits 16 v EmptyString.

(** [WiredTigerRecoveryUnit::State] *)
Inductive State : Type :=
| kInactive
| kInactiveInUnitOfWork
| kActiveNotInUnitOfWork
| kActive
| kCommitting
| kAborting.

Definition toString (state : State) : string :=
  match state with
  | kInactive => "Inactive"
  | kInactiveInUnitOfWork => "InactiveInUnitOfWork"
  | kActiveNotInUnitOfWork => "ActiveNotInUnitOfWork"
  | kActive => "Active"
  | kCommitting => "Committing"
  | kAborting => "Aborting"
  end%string.

(** [RecoveryUnit::ReadSource] *)
Inductive ReadSource : Type :=
| kUnset
| kNoTimestamp
| kMajorityCommitted
| kLastApplied
| kLastAppliedSnapshot
| kAllCommittedSnapshot
| kProvided.

Definition ReadSource_eqb (a b : ReadSource) : bool :=
  match a, b with
  | kUnset, kUnset | kNoTimestamp, kNoTimestamp
  | kMajorityCommitted, kMajorityCommitted | kLastApplied, kLastApplied
  | kLastAppliedSnapshot, kLastAppliedSnapshot
  | kAllCommittedSnapshot, kAllCommittedSnapshot | kProvided, kProvided => true
  | _, _ => false
  end.

(** [WiredTigerBeginTxnBlock::IgnorePrepared] and [RoundToOldest] *)
Inductive IgnorePrepared : Type := kNoIgnore | kIgnore.
Inductive RoundToOldest : Type := kNoRound | kRound.

(** [ErrorCodes::Error], the codes this file names and all the others. *)
Inductive ErrorCode : Type :=
| OK
| BadValue
| SnapshotTooOld
| ReadConcernMajorityNotAvailableYet
| OtherError (n : N).

Definition ErrorCode_eqb (a b : ErrorCode) : bool :=
  match a, b with
  | OK, OK | BadValue, BadValue | SnapshotTooOld, SnapshotTooOld
  | ReadConcernMajorityNotAvailableYet, ReadConcernMajorityNotAvailableYet => true
  | OtherError n, OtherError m => N.eqb n m
  | _, _ => false
  end.

Record Status : Type := mkStatus { code : ErrorCode; reason : string }.

Definition Status_OK : Status := mkStatus OK EmptyString.
Definition isOK (st : Status) : bool := ErrorCode_eqb (code st) OK.

(** A session handle of the session cache, and a registered change handler
    ([RecoveryUnit::Change*]); both are opaque to the recovery unit. *)
Definition Session : Type := N.
Definition Change : Type := N.

(** The fields of one [WiredTigerRecoveryUnit].  [_sessionCache] and
    [_oplogManager] are the collaborators of the environment below. *)
Record RecoveryUnit : Type := mkRU {
  _state : State;
  _session : option Session;
  _mySnapshotId : N;
  _changes : list Change;
  _commitTimestamp : Timestamp;
  _lastTimestampSet : option Timestamp;
  _prepareTimestamp : Timestamp;
  _readAtTimestamp : Timestamp;
  _majorityCommittedSnapshot : Timestamp;
  _timestampReadSource : ReadSource;
  _ignorePrepared : IgnorePrepared;
  _isOplogReader : bool;
  _orderedCommit : bool;
  _isTimestamped : bool;
  _timer : bool
}.

(** Field assignments. *)
Definition set_state (v : State) (r : RecoveryUnit) : RecoveryUnit :=
  mkRU v (_session r) (_mySnapshotId r) (_changes r) (_commitTimestamp r)
    (_lastTimestampSet r) (_prepareTimestamp r) (_readAtTimestamp r)
    (_majorityCommittedSnapshot r) (_timestampReadSource r) (_ignorePrepared r)
    (_isOplogReader r) (_orderedCommit r) (_isTimestamped r) (_timer r).
Definition set_session (v : option Session) (r : RecoveryUnit) : RecoveryUnit :=
  mkRU (_state r) v (_mySnapshotId r) (_changes r) (_commitTimestamp r)
    (_lastTimestampSet r) (_prepareTimestamp r) (_readAtTimestamp r)
    (_majorityCommittedSnapshot r) (_timestampReadSource r) (_ignorePrepared r)
    (_isOplogReader r) (_orderedCommit r) (_isTimestamped r) (_timer r).
Definition set_mySnapshotId (v : N) (r : RecoveryUnit) : RecoveryUnit :=
  mkRU (_state r) (_session r) v (_changes r) (_commitTimestamp r)
    (_lastTimestampSet r) (_prepareTimestamp r) (_readAtTimestamp r)
    (_majorityCommittedSnapshot r) (_timestampReadSource r) (_ignorePrepared r)
    (_isOplogReader r) (_orderedCommit r) (_isTimestamped r) (_timer r).
Definition set_changes (v : list Change) (r : RecoveryUnit) : RecoveryUnit :=
  mkRU (_state r) (_session r) (_mySnapshotId r) v (_commitTimestamp r)
    (_lastTimestampSet r) (_prepareTimestamp r) (_readAtTimestamp r)
    (_majorityCommittedSnapshot r) (_timestampReadSource r) (_ignorePrepared r)
    (_isOplogReader r) (_orderedCommit r) (_isTimestamped r) (_timer r).
Definition set_commitTimestamp (v : Timestamp) (r : RecoveryUnit) : RecoveryUnit :=
  mkRU (_state r) (_session r) (_mySnapshotId r) (_changes r) v
    (_lastTimestampSet r) (_prepareTimestamp r) (_readAtTimestamp r)
    (_majorityCommittedSnapshot r) (_timestampReadSource r) (_ignorePrepared r)
    (_isOplogReader r) (_orderedCommit r) (_isTimestamped r) (_timer r).
Definition set_lastTimestampSet (v : option Timestamp) (r : RecoveryUnit) : RecoveryUnit :=
  mkRU (_state r) (_session r) (_mySnapshotId r) (_changes r) (_commitTimestamp r)
    v (_prepareTimestamp r) (_readAtTimestamp r)
    (_majorityCommittedSnapshot r) (_timestampReadSource r) (_ignorePrepared r)
    (_isOplogReader r) (_orderedCommit r) (_isTimestamped r) (_timer r).
Definition set_prepareTimestamp (v : Timestamp) (r : RecoveryUnit) : RecoveryUnit :=
  mkRU (_state r) (_session r) (_mySnapshotId r) (_changes r) (_commitTimestamp r)
    (_lastTimestampSet r) v (_readAtTimestamp r)
    (_majorityCommittedSnapshot r) (_timestampReadSource r) (_ignorePrepared r)
    (_isOplogReader r) (_orderedCommit r) (_isTimestamped r) (_timer r).
Definition set_readAtTimestamp (v : Timestamp) (r : RecoveryUnit) : RecoveryUnit :=
  mkRU (_state r) (_session r) (_mySnapshotId r) (_changes r) (_commitTimestamp r)
    (_lastTimestampSet r) (_prepareTimestamp r) v
    (_majorityCommittedSnapshot r) (_timestampReadSource r) (_ignorePrepared r)
    (_isOplogReader r) (_orderedCommit r) (_isTimestamped r) (_timer r).
Definition set_majorityCommittedSnapshot (v : Timestamp) (r : RecoveryUnit) : RecoveryUnit :=
  mkRU (_state r) (_session r) (_mySnapshotId r) (_changes r) (_commitTimestamp r)
    (_lastTimestampSet r) (_prepareTimestamp r) (_readAtTimestamp r)
    v (_timestampReadSource r) (_ignorePrepared r)
    (_isOplogReader r) (_orderedCommit r) (_isTimestamped r) (_timer r).
Definition set_timestampReadSource (v : ReadSource) (r : RecoveryUnit) : RecoveryUnit :=
  mkRU (_state r) (_session r) (_mySnapshotId r) (_changes r) (_commitTimestamp r)
    (_lastTimestampSet r) (_prepareTimestamp r) (_readAtTimestamp r)
    (_majorityCommittedSnapshot r) v (_ignorePrepared r)
    (_isOplogReader r) (_orderedCommit r) (_isTimestamped r) (_timer r).
Definition set_ignorePrepared (v : IgnorePrepared) (r : RecoveryUnit) : RecoveryUnit :=
  mkRU (_state r) (_session r) (_mySnapshotId r) (_changes r) (_commitTimestamp r)
    (_lastTimestampSet r) (_prepareTimestamp r) (_readAtTimestamp r)
    (_majorityCommittedSnapshot r) (_timestampReadSource r) v
    (_isOplogReader r) (_orderedCommit r) (_isTimestamped r) (_timer r).
Definition set_isOplogReader (v : bool) (r : RecoveryUnit) : RecoveryUnit :=
  mkRU (_state r) (_session r) (_mySnapshotId r) (_changes r) (_commitTimestamp r)
    (_lastTimestampSet r) (_prepareTimestamp r) (_readAtTimestamp r)
    (_majorityCommittedSnapshot r) (_timestampReadSource r) (_ignorePrepared r)
    v (_orderedCommit r) (_isTimestamped r) (_timer r).
Definition set_orderedCommit (v : bool) (r : RecoveryUnit) : RecoveryUnit :=
  mkRU (_state r) (_session r) (_mySnapshotId r) (_changes r) (_commitTimestamp r)
    (_lastTimestampSet r) (_prepareTimestamp r) (_readAtTimestamp r)
    (_majorityCommittedSnapshot r) (_timestampReadSource r) (_ignorePrepared r)
    (_isOplogReader r) v (_isTimestamped r) (_timer r).
Definition set_isTimestamped (v : bool) (r : RecoveryUnit) : RecoveryUnit :=
  mkRU (_state r) (_session r) (_mySnapshotId r) (_changes r) (_commitTimestamp r)
    (_lastTimestampSet r) (_prepareTimestamp r) (_readAtTimestamp r)
    (_majorityCommittedSnapshot r) (_timestampReadSource r) (_ignorePrepared r)
    (_isOplogReader r) (_orderedCommit r) v (_timer r).
Definition set_timer (v : bool) (r : RecoveryUnit) : RecoveryUnit :=
  mkRU (_state r) (_session r) (_mySnapshotId r) (_changes r) (_commitTimestamp r)
    (_lastTimestampSet r) (_prepareTimestamp r) (_readAtTimestamp r)
    (_majorityCommittedSnapshot r) (_timestampReadSource r) (_ignorePrepared r)
    (_isOplogReader r) (_orderedCommit r) (_isTimestamped r) v.

(** The state predicates at the end of the source file. *)
Definition _isActive (r : RecoveryUnit) : bool :=
  match _state r with kActiveNotInUnitOfWork | kActive => true | _ => false end.

Definition _inUnitOfWork (r : RecoveryUnit) : bool :=
  match _state r with kInactiveInUnitOfWork | kActive => true | _ => false end.

Definition _isCommittingOrAborting (r : RecoveryUnit) : bool :=
  match _state r with kCommitting | kAborting => true | _ => false end.

(** ** Collaborators *)

(** Every call that leaves the recovery unit, in the order it is made. *)
Inductive Event : Type :=
| EvAllocSnapshotId (id : N)
| EvCacheGetSession (s : Session)
| EvBeginTransaction (ip : IgnorePrepared)
| EvBlockSetTimestamp (ts : Timestamp) (round : RoundToOldest)
| EvBeginTransactionOnCommittedSnapshot (ip : IgnorePrepared)
| EvBeginTransactionOnLocalSnapshot (ip : IgnorePrepared)
| EvQueryTimestamp (conf : string)
| EvTimestampTransaction (conf : string)
| EvPrepareTransaction (conf : string)
| EvCommitTransaction
| EvRollbackTransaction
| EvTriggerJournalFlush
| EvNotifyPreparedUnitOfWorkHasCommittedOrAborted
| EvChangeCommit (c : Change) (commitTime : option Timestamp)
| EvChangeRollback (c : Change)
| EvWaitUntilDurable (forceCheckpoint stableCheckpoint : bool)
| EvCloseAllCursors
| EvDropQueuedIdentsAtSessionEndAllowed (allowed : bool)
| EvSlowTransactionLog (snapshotId : N) (ms : Z).

(** What the collaborators answer during one operation.  Each member function
    calls each of them at most once, so one answer per call site is as general
    as a history-dependent oracle; a sequence of operations takes one
    environment per operation. *)
Record Env : Type := mkEnv {
  (* MONGO_FAIL_POINT(WTAlwaysNotifyPrepareConflictWaiters) *)
  failPoint_WTAlwaysNotifyPrepareConflictWaiters : bool;
  (* _sessionCache->getSession() *)
  sessionCache_getSession : Session;
  (* shouldLog(kSlowTransactionSeverity), _timer->millis(), serverGlobalParams.slowMS *)
  shouldLog_kSlowTransactionSeverity : bool;
  timer_millis : Z;
  slowMS : Z;
  (* WT_SESSION calls: return codes *)
  wt_timestamp_transaction : string -> Z;
  wt_prepare_transaction : string -> Z;
  wt_commit_transaction : Z;
  wt_rollback_transaction : Z;
  wt_query_timestamp : string -> Z * string;
  (* WiredTigerBeginTxnBlock::setTimestamp *)
  beginTxnBlock_setTimestamp : Timestamp -> RoundToOldest -> Status;
  (* _oplogManager *)
  oplogManager_getOplogReadTimestamp : N;
  oplogManager_fetchAllCommittedValue : N;
  (* _sessionCache->snapshotManager() *)
  snapshotManager_getMinSnapshotForNextCommittedRead : option Timestamp;
  snapshotManager_beginTransactionOnCommittedSnapshot : Timestamp;
  snapshotManager_getLocalSnapshot : option Timestamp;
  snapshotManager_beginTransactionOnLocalSnapshot : Timestamp;
  (* helpers declared elsewhere *)
  wtRCToStatus : Z -> string -> Status;
  parseNumberFromStringWithBase : string -> N -> Status * N;
  Timestamp_toString : Timestamp -> string;
  exportOperationStatsInfoToBSON : Status * list (string * string);
  (* a change handler's commit/rollback: None returns, Some st throws *)
  change_commit : Change -> option Timestamp -> option Status;
  change_rollback : Change -> option Status
}.

(** ** The monad: state, thrown statuses, fatal assertions *)

Inductive FatalKind : Type :=
| InvariantFailure
| FassertFailure (msgid : N)
| Terminate.

Inductive Outcome (A : Type) : Type :=
| Ok (a : A)
| Thrown (st : Status)
| Fatal (k : FatalKind).
Arguments Ok {A} a.
Arguments Thrown {A} st.
Arguments Fatal {A} k.

(** The recovery unit under consideration, the process-wide
    [nextSnapshotId] counter, and the calls made so far. *)
Record World : Type := mkWorld {
  ru : RecoveryUnit;
  nextSnapshotId : N;
  trace : list Event
}.

Definition M (A : Type) : Type := World -> Outcome A * World.

Definition ret {A} (a : A) : M A := fun w => (Ok a, w).

Definition bind {A B} (m : M A) (k : A -> M B) : M B :=
  fun w =>
    match m w with
    | (Ok a, w') => k a w'
    | (Thrown st, w') => (Thrown st, w')
    | (Fatal f, w') => (Fatal f, w')
    end.

Notation "'let!' x ':=' m 'in' k" := (bind m (fun x => k))
  (at level 10, x name, m at level 100, k at level 200).
Notation "m '>>' k" := (bind m (fun _ => k))
  (at level 65, right associativity).

Definition throw {A} (st : Status) : M A := fun w => (Thrown st, w).
Definition fatal {A} (k : FatalKind) : M A := fun w => (Fatal k, w).

Definition getRU : M RecoveryUnit := fun w => (Ok (ru w), w).
Definition modifyRU (f : RecoveryUnit -> RecoveryUnit) : M unit :=
  fun w => (Ok tt, mkWorld (f (ru w)) (nextSnapshotId w) (trace w)).
Definition emit (e : Event) : M unit :=
  fun w => (Ok tt, mkWorld (ru w) (nextSnapshotId w) (trace w ++ [e])).
Definition when (b : bool) (m : M unit) : M unit := if b then m else ret tt.

(** [invariant(cond)], [invariantWTOK(rc)], [fassert(msgid, status)],
    [uasserted(code, msg)], [uassertStatusOK(status)]. *)
Definition invariant (cond : bool) : M unit :=
  if cond then ret tt else fatal InvariantFailure.
Definition invariantWTOK (rc : Z) : M unit := invariant (Z.eqb rc 0).
Definition fassert (msgid : N) (st : Status) : M unit :=
  if isOK st then ret tt else fatal (FassertFailure msgid).
Definition uasserted {A} (c : ErrorCode) (msg : string) : M A :=
  throw (mkStatus c msg).
Definition uassertStatusOK (st : Status) : M unit :=
  if isOK st then ret tt else throw st.

(** [try { body } catch (...) { std::terminate(); }] *)
Definition try_or_terminate {A} (body : M A) : M A :=
  fun w =>
    match body w with
    | (Thrown _, w') => (Fatal Terminate, w')
    | r => r
    end.

(** [AtomicUInt64 nextSnapshotId{1}] and [nextSnapshotId.fetchAndAdd(1)]:
    the old value is returned and the counter wraps at 2^64. *)
Definition nextSnapshotId_init : N := 1.
Definition fetchAndAdd (n : N) : M N :=
  fun w =>
    (Ok (nextSnapshotId w),
     mkWorld (ru w) ((nextSnapshotId w + n) mod 2 ^ 64)
       (trace w ++ [EvAllocSnapshotId (nextSnapshotId w)])).

(** ** Member functions, in the order of the source file *)

Definition _setState (newState : State) : M unit := modifyRU (set_state newState).

(** The calls on the [WT_SESSION]: the call is recorded, the return code is
    the environment's. *)
Definition timestamp_transaction (env : Env) (conf : string) : M Z :=
  emit (EvTimestampTransaction conf) >> ret (wt_timestamp_transaction env conf).
Definition prepare_transaction (env : Env) (conf : string) : M Z :=
  emit (EvPrepareTransaction conf) >> ret (wt_prepare_transaction env conf).
Definition commit_transaction (env : Env) : M Z :=
  emit EvCommitTransaction >> ret (wt_commit_transaction env).
Definition rollback_transaction (env : Env) : M Z :=
  emit EvRollbackTransaction >> ret (wt_rollback_transaction env).

(** Modelled from the spec: the member initialisers of the class are in the
    header, which is not among the sources.  The spec gives the initial state
    (Inactive, [orderedCommit] true, nothing set); the constructor of the
    source file adds the snapshot id. *)
Definition RecoveryUnit_init (snapshotId : N) : RecoveryUnit :=
  mkRU kInactive None snapshotId [] Timestamp_null None Timestamp_null
    Timestamp_null Timestamp_null kUnset kNoIgnore false true false false.

(** [WiredTigerRecoveryUnit::WiredTigerRecoveryUnit] *)
Definition WiredTigerRecoveryUnit_ctor : M unit :=
  let! id := fetchAndAdd 1 in
  modifyRU (fun _ => RecoveryUnit_init id).

(** [_ensureSession] *)
Definition _ensureSession (env : Env) : M unit :=
  let! r := getRU in
  match _session r with
  | Some _ => ret tt
  | None =>
      emit (EvCacheGetSession (sessionCache_getSession env)) >>
      modifyRU (set_session (Some (sessionCache_getSession env)))
  end.

(** [_txnClose] *)
Definition _txnClose (env : Env) (commit : bool) : M unit :=
  let! r := getRU in
  invariant (_isActive r) >>
  when (_timer r)
    (when (Z.leb (Z.max 1 (slowMS env)) (timer_millis env))
       (emit (EvSlowTransactionLog (_mySnapshotId r) (timer_millis env)))) >>
  let! wtRet :=
    (if commit then
       when (negb (isNull (_commitTimestamp r)))
         (let! rc := timestamp_transaction env
                       ("commit_timestamp=" ++ integerToHex (asULL (_commitTimestamp r))) in
          invariantWTOK rc >>
          modifyRU (set_isTimestamped true)) >>
       commit_transaction env
     else
       let! rc := rollback_transaction env in
       invariant (Z.eqb rc 0) >>
       ret rc) in
  let! r1 := getRU in
  when (_isTimestamped r1)
    (when (negb (_orderedCommit r1)) (emit EvTriggerJournalFlush) >>
     modifyRU (set_isTimestamped false)) >>
  invariantWTOK wtRet >>
  let! r2 := getRU in
  invariant (negb (bool_decide (is_Some (_lastTimestampSet r2)))
             || isNull (_commitTimestamp r2)) >>
  modifyRU (set_lastTimestampSet None) >>
  modifyRU (set_prepareTimestamp Timestamp_null) >>
  (let! id := fetchAndAdd 1 in modifyRU (set_mySnapshotId id)) >>
  modifyRU (set_isOplogReader false) >>
  modifyRU (set_orderedCommit true).

(** One handler call: recorded, then it returns or throws. *)
Definition Change_commit (env : Env) (c : Change) (commitTime : option Timestamp) : M unit :=
  emit (EvChangeCommit c commitTime) >>
  match change_commit env c commitTime with
  | None => ret tt
  | Some st => throw st
  end.

Definition Change_rollback (env : Env) (c : Change) : M unit :=
  emit (EvChangeRollback c) >>
  match change_rollback env c with
  | None => ret tt
  | Some st => throw st
  end.

(** The two loops over [_changes]. *)
Fixpoint commitChanges (env : Env) (cs : list Change) (commitTime : option Timestamp) : M unit :=
  match cs with
  | [] => ret tt
  | c :: cs' => Change_commit env c commitTime >> commitChanges env cs' commitTime
  end.

Fixpoint rollbackChanges (env : Env) (cs : list Change) : M unit :=
  match cs with
  | [] => ret tt
  | c :: cs' => Change_rollback env c >> rollbackChanges env cs'
  end.

(** [_commit] *)
Definition _commit (env : Env) : M unit :=
  let! r := getRU in
  let commitTime :=
    if isNull (_commitTimestamp r) then _lastTimestampSet r
    else Some (_commitTimestamp r) in
  try_or_terminate
    (let notifyDone := negb (isNull (_prepareTimestamp r)) in
     when (bool_decide (is_Some (_session r)) && _isActive r) (_txnClose env true) >>
     _setState kCommitting >>
     let notifyDone :=
       if failPoint_WTAlwaysNotifyPrepareConflictWaiters env then true else notifyDone in
     when notifyDone (emit EvNotifyPreparedUnitOfWorkHasCommittedOrAborted) >>
     let! r1 := getRU in
     commitChanges env (_changes r1) commitTime >>
     modifyRU (set_changes [])) >>
  _setState kInactive.

(** [_abort] *)
Definition _abort (env : Env) : M unit :=
  let! r := getRU in
  try_or_terminate
    (let notifyDone := negb (isNull (_prepareTimestamp r)) in
     when (bool_decide (is_Some (_session r)) && _isActive r) (_txnClose env false) >>
     _setState kAborting >>
     let notifyDone :=
       if failPoint_WTAlwaysNotifyPrepareConflictWaiters env then true else notifyDone in
     when notifyDone (emit EvNotifyPreparedUnitOfWorkHasCommittedOrAborted) >>
     let! r1 := getRU in
     rollbackChanges env (rev (_changes r1)) >>
     modifyRU (set_changes [])) >>
  _setState kInactive.

(** [WiredTigerRecoveryUnit::~WiredTigerRecoveryUnit] *)
Definition WiredTigerRecoveryUnit_dtor (env : Env) : M unit :=
  let! r := getRU in
  invariant (negb (_inUnitOfWork r)) >>
  _abort env.

(** [beginUnitOfWork] *)
Definition beginUnitOfWork : M unit :=
  let! r := getRU in
  invariant (negb (_inUnitOfWork r)) >>
  invariant (negb (_isCommittingOrAborting r)) >>
  _setState (if _isActive r then kActive else kInactiveInUnitOfWork).

(** Modelled from the spec: [WiredTigerBeginTxnBlock]
    (wiredtiger_begin_transaction_block.h) is not among the sources.  The spec
    describes it as a transaction-opening block: constructing it begins the
    engine transaction, [setTimestamp] asks the engine to set the read
    timestamp and returns the engine's status, [done] finishes the attempt,
    and leaving the block without [done] rolls the transaction back. *)
Definition BeginTxnBlock_ctor (ip : IgnorePrepared) : M unit :=
  emit (EvBeginTransaction ip).
Definition BeginTxnBlock_setTimestamp (env : Env) (ts : Timestamp) (round : RoundToOldest)
  : M Status :=
  emit (EvBlockSetTimestamp ts round) >> ret (beginTxnBlock_setTimestamp env ts round).
Definition BeginTxnBlock_done : M unit := ret tt.
Definition BeginTxnBlock_scope {A} (body : M A) : M A :=
  fun w =>
    match body w with
    | (Thrown st, w') =>
        (Thrown st, mkWorld (ru w') (nextSnapshotId w') (trace w' ++ [EvRollbackTransaction]))
    | r => r
    end.

(** [Timestamp(unsigned long long)] *)
Definition Timestamp_ofULL (v : N) : Timestamp := v.

(** [_beginTransactionAtAllCommittedTimestamp] *)
Definition _beginTransactionAtAllCommittedTimestamp (env : Env) : M Timestamp :=
  let! r := getRU in
  BeginTxnBlock_scope
    (BeginTxnBlock_ctor (_ignorePrepared r) >>
     let txnTimestamp := Timestamp_ofULL (oplogManager_fetchAllCommittedValue env) in
     let! status := BeginTxnBlock_setTimestamp env txnTimestamp kRound in
     fassert 50948 status >>
     emit (EvQueryTimestamp "get=read") >>
     let '(wtstatus, buf) := wt_query_timestamp env "get=read" in
     invariantWTOK wtstatus >>
     let '(parsed, read_timestamp) := parseNumberFromStringWithBase env buf 16 in
     fassert 50949 parsed >>
     BeginTxnBlock_done >>
     ret (Timestamp_ofULL read_timestamp)).

(** The [case ReadSource::kProvided] block of [_txnOpen]; the two cases above
    it fall through to it. *)
Definition _txnOpen_kProvided (env : Env) : M unit :=
  let! r := getRU in
  BeginTxnBlock_scope
    (BeginTxnBlock_ctor (_ignorePrepared r) >>
     let! status := BeginTxnBlock_setTimestamp env (_readAtTimestamp r) kNoRound in
     (if negb (isOK status) && ErrorCode_eqb (code status) BadValue
      then uasserted SnapshotTooOld
             ("Read timestamp " ++ Timestamp_toString env (_readAtTimestamp r)
              ++ " is older than the oldest available timestamp.")
      else ret tt) >>
     uassertStatusOK status >>
     BeginTxnBlock_done).

Definition _txnOpen_kLastAppliedSnapshot (env : Env) : M unit :=
  let! r := getRU in
  if isNull (_readAtTimestamp r) then
    emit (EvBeginTransactionOnLocalSnapshot (_ignorePrepared r)) >>
    modifyRU (set_readAtTimestamp (snapshotManager_beginTransactionOnLocalSnapshot env))
  else _txnOpen_kProvided env.

Definition _txnOpen_kAllCommittedSnapshot (env : Env) : M unit :=
  let! r := getRU in
  if isNull (_readAtTimestamp r) then
    let! ts := _beginTransactionAtAllCommittedTimestamp env in
    modifyRU (set_readAtTimestamp ts)
  else _txnOpen_kLastAppliedSnapshot env.

(** [_txnOpen] *)
Definition _txnOpen (env : Env) : M unit :=
  let! r := getRU in
  invariant (negb (_isActive r)) >>
  invariant (negb (_isCommittingOrAborting r)) >>
  _ensureSession env >>
  when (shouldLog_kSlowTransactionSeverity env) (modifyRU (set_timer true)) >>
  match _timestampReadSource r with
  | kUnset | kNoTimestamp =>
      BeginTxnBlock_scope
        (BeginTxnBlock_ctor (_ignorePrepared r) >>
         when (_isOplogReader r)
           (let! status :=
              BeginTxnBlock_setTimestamp env
                (Timestamp_ofULL (oplogManager_getOplogReadTimestamp env)) kRound in
            fassert 50771 status) >>
         BeginTxnBlock_done)
  | kMajorityCommitted =>
      emit (EvBeginTransactionOnCommittedSnapshot (_ignorePrepared r)) >>
      modifyRU (set_majorityCommittedSnapshot
                  (snapshotManager_beginTransactionOnCommittedSnapshot env))
  | kLastApplied =>
      match snapshotManager_getLocalSnapshot env with
      | Some _ =>
          emit (EvBeginTransactionOnLocalSnapshot (_ignorePrepared r)) >>
          modifyRU (set_readAtTimestamp (snapshotManager_beginTransactionOnLocalSnapshot env))
      | None =>
          BeginTxnBlock_scope (BeginTxnBlock_ctor (_ignorePrepared r) >> BeginTxnBlock_done)
      end
  | kAllCommittedSnapshot => _txnOpen_kAllCommittedSnapshot env
  | kLastAppliedSnapshot => _txnOpen_kLastAppliedSnapshot env
  | kProvided => _txnOpen_kProvided env
  end.

(** [getSession] *)
Definition getSession (env : Env) : M (option Session) :=
  let! r := getRU in
  when (negb (_isActive r))
    (_txnOpen env >>
     let! r1 := getRU in
     _setState (if _inUnitOfWork r1 then kActive else kActiveNotInUnitOfWork)) >>
  let! r2 := getRU in
  ret (_session r2).

(** [prepareUnitOfWork] *)
Definition prepareUnitOfWork (env : Env) : M unit :=
  let! r := getRU in
  invariant (_inUnitOfWork r) >>
  invariant (negb (isNull (_prepareTimestamp r))) >>
  getSession env >>
  let conf := ("prepare_timestamp=" ++ integerToHex (asULL (_prepareTimestamp r)))%string in
  let! rc := prepare_transaction env conf in
  invariantWTOK rc.

(** [commitUnitOfWork] and [abortUnitOfWork] *)
Definition commitUnitOfWork (env : Env) : M unit :=
  let! r := getRU in
  invariant (_inUnitOfWork r) >>
  _commit env.

Definition abortUnitOfWork (env : Env) : M unit :=
  let! r := getRU in
  invariant (_inUnitOfWork r) >>
  _abort env.

(** [waitUntilDurable] and [waitUntilUnjournaledWritesDurable] *)
Definition waitUntilDurable : M bool :=
  let! r := getRU in
  invariant (negb (_inUnitOfWork r)) >>
  let forceCheckpoint := false in
  let stableCheckpoint := false in
  emit (EvWaitUntilDurable forceCheckpoint stableCheckpoint) >>
  ret true.

Definition waitUntilUnjournaledWritesDurable : M bool :=
  let! r := getRU in
  invariant (negb (_inUnitOfWork r)) >>
  let forceCheckpoint := true in
  let stableCheckpoint := true in
  emit (EvWaitUntilDurable forceCheckpoint stableCheckpoint) >>
  ret true.

(** [registerChange] *)
Definition registerChange (change : Change) : M unit :=
  let! r := getRU in
  invariant (_inUnitOfWork r) >>
  modifyRU (set_changes (_changes r ++ [change])).

(** [assertInActiveTxn] *)
Definition assertInActiveTxn : M unit :=
  let! r := getRU in
  if _isActive r then ret tt else fatal (FassertFailure 28575).

(** [getSessionNoTxn] *)
Definition getSessionNoTxn (env : Env) : M (option Session) :=
  _ensureSession env >>
  let! r := getRU in
  emit (EvDropQueuedIdentsAtSessionEndAllowed false) >>
  ret (_session r).

(** [abandonSnapshot] *)
Definition abandonSnapshot (env : Env) : M unit :=
  let! r := getRU in
  invariant (negb (_inUnitOfWork r)) >>
  when (_isActive r) (_txnClose env false) >>
  _setState kInactive.

(** [preallocateSnapshot] *)
Definition preallocateSnapshot (env : Env) : M unit :=
  getSession env >> ret tt.

(** [getSnapshotId] *)
Definition getSnapshotId : M N :=
  let! r := getRU in ret (_mySnapshotId r).

(** [obtainMajorityCommittedSnapshot] *)
Definition obtainMajorityCommittedSnapshot (env : Env) : M Status :=
  let! r := getRU in
  invariant (ReadSource_eqb (_timestampReadSource r) kMajorityCommitted) >>
  match snapshotManager_getMinSnapshotForNextCommittedRead env with
  | None =>
      ret (mkStatus ReadConcernMajorityNotAvailableYet
             "Read concern majority reads are currently not possible.")
  | Some snapshotName =>
      modifyRU (set_majorityCommittedSnapshot snapshotName) >>
      ret Status_OK
  end.

(** [getPointInTimeReadTimestamp] *)
Definition getPointInTimeReadTimestamp : M (option Timestamp) :=
  let! r := getRU in
  if ReadSource_eqb (_timestampReadSource r) kProvided
     || ReadSource_eqb (_timestampReadSource r) kLastAppliedSnapshot
     || ReadSource_eqb (_timestampReadSource r) kAllCommittedSnapshot
  then invariant (negb (isNull (_readAtTimestamp r))) >> ret (Some (_readAtTimestamp r))
  else if ReadSource_eqb (_timestampReadSource r) kLastApplied
          && negb (isNull (_readAtTimestamp r))
  then ret (Some (_readAtTimestamp r))
  else if ReadSource_eqb (_timestampReadSource r) kMajorityCommitted
  then invariant (negb (isNull (_majorityCommittedSnapshot r))) >>
       ret (Some (_majorityCommittedSnapshot r))
  else ret None.

(** [setTimestamp] *)
Definition setTimestamp (env : Env) (timestamp : Timestamp) : M Status :=
  _ensureSession env >>
  let! r := getRU in
  invariant (_inUnitOfWork r) >>
  invariant (isNull (_prepareTimestamp r)) >>
  invariant (isNull (_commitTimestamp r)) >>
  modifyRU (set_lastTimestampSet (Some timestamp)) >>
  getSession env >>
  let conf := ("commit_timestamp=" ++ integerToHex (asULL timestamp))%string in
  let! rc := timestamp_transaction env conf in
  when (Z.eqb rc 0) (modifyRU (set_isTimestamped true)) >>
  ret (wtRCToStatus env rc "timestamp_transaction").

(** [setCommitTimestamp] *)
Definition setCommitTimestamp (timestamp : Timestamp) : M unit :=
  let! r := getRU in
  invariant (negb (_inUnitOfWork r) || negb (isNull (_prepareTimestamp r))) >>
  invariant (isNull (_commitTimestamp r)) >>
  invariant (negb (bool_decide (is_Some (_lastTimestampSet r)))) >>
  invariant (negb (_isTimestamped r)) >>
  modifyRU (set_commitTimestamp timestamp).

(** [getCommitTimestamp] *)
Definition getCommitTimestamp : M Timestamp :=
  let! r := getRU in ret (_commitTimestamp r).

(** [clearCommitTimestamp] *)
Definition clearCommitTimestamp : M unit :=
  let! r := getRU in
  invariant (negb (_inUnitOfWork r)) >>
  invariant (negb (isNull (_commitTimestamp r))) >>
  invariant (negb (bool_decide (is_Some (_lastTimestampSet r)))) >>
  invariant (negb (_isTimestamped r)) >>
  modifyRU (set_commitTimestamp Timestamp_null).

(** [setPrepareTimestamp] *)
Definition setPrepareTimestamp (timestamp : Timestamp) : M unit :=
  let! r := getRU in
  invariant (_inUnitOfWork r) >>
  invariant (isNull (_prepareTimestamp r)) >>
  invariant (isNull (_commitTimestamp r)) >>
  invariant (negb (bool_decide (is_Some (_lastTimestampSet r)))) >>
  modifyRU (set_prepareTimestamp timestamp).

(** [getPrepareTimestamp] *)
Definition getPrepareTimestamp : M Timestamp :=
  let! r := getRU in
  invariant (_inUnitOfWork r) >>
  invariant (negb (isNull (_prepareTimestamp r))) >>
  invariant (isNull (_commitTimestamp r)) >>
  invariant (negb (bool_decide (is_Some (_lastTimestampSet r)))) >>
  ret (_prepareTimestamp r).

(** [setIgnorePrepared] *)
Definition setIgnorePrepared (value : bool) : M unit :=
  modifyRU (set_ignorePrepared (if value then kIgnore else kNoIgnore)).

(** [setTimestampReadSource] *)
Definition setTimestampReadSource (readSource : ReadSource) (provided : option Timestamp)
  : M unit :=
  let! r := getRU in
  invariant (negb (_isActive r) || ReadSource_eqb (_timestampReadSource r) readSource) >>
  invariant (Bool.eqb (negb (bool_decide (is_Some provided)))
               (negb (ReadSource_eqb readSource kProvided))) >>
  invariant (negb (match provided with Some p => isNull p | None => false end)) >>
  modifyRU (set_timestampReadSource readSource) >>
  modifyRU (set_readAtTimestamp
              (match provided with Some p => p | None => Timestamp_null end)).

(** [getTimestampReadSource] *)
Definition getTimestampReadSource : M ReadSource :=
  let! r := getRU in ret (_timestampReadSource r).

(** [beginIdle] *)
Definition beginIdle : M unit :=
  let! r := getRU in
  when (bool_decide (is_Some (_session r))) (emit EvCloseAllCursors).

(** [getOperationStatistics]: the document as its list of fields; the error
    code field keeps the code itself. *)
Inductive BSONValue : Type :=
| BSONString (s : string)
| BSONCode (c : ErrorCode).

Definition getOperationStatistics (env : Env) : M (list (string * BSONValue)) :=
  let! r := getRU in
  match _session r with
  | None => ret []
  | Some _ =>
      let '(status, exported) := exportOperationStatsInfoToBSON env in
      let bob := map (fun kv => (fst kv, BSONString (snd kv))) exported in
      if negb (isOK status) then
        ret (bob ++ [("error"%string, BSONString "unable to retrieve storage statistics");
                     ("code"%string, BSONCode (code status));
                     ("reason"%string, BSONString (reason status))])
      else ret bob
  end.

(** Modelled from the spec: [setOrderedCommit] and [setIsOplogReader] are
    defined in the header, which is not among the sources.  The spec:
    [orderedCommit] "defaults true; cleared by caller to request the
    visibility hook", [isOplogReader] "set by caller; cleared on transaction
    close". *)
Definition setOrderedCommit (orderedCommit : bool) : M unit :=
  modifyRU (set_orderedCommit orderedCommit).
Definition setIsOplogReader : M unit :=
  modifyRU (set_isOplogReader true).

(** ** Sequences of operations *)

(** The calls a client can make on a live recovery unit. *)
Inductive Op : Type :=
| OpBeginUnitOfWork
| OpPrepareUnitOfWork
| OpCommitUnitOfWork
| OpAbortUnitOfWork
| OpWaitUntilDurable
| OpWaitUntilUnjournaledWritesDurable
| OpRegisterChange (change : Change)
| OpAssertInActiveTxn
| OpGetSession
| OpGetSessionNoTxn
| OpAbandonSnapshot
| OpPreallocateSnapshot
| OpGetSnapshotId
| OpObtainMajorityCommittedSnapshot
| OpGetPointInTimeReadTimestamp
| OpSetTimestamp (timestamp : Timestamp)
| OpSetCommitTimestamp (timestamp : Timestamp)
| OpGetCommitTimestamp
| OpClearCommitTimestamp
| OpSetPrepareTimestamp (timestamp : Timestamp)
| OpGetPrepareTimestamp
| OpSetIgnorePrepared (value : bool)
| OpSetTimestampReadSource (readSource : ReadSource) (provided : option Timestamp)
| OpGetTimestampReadSource
| OpBeginIdle
| OpGetOperationStatistics
| OpSetOrderedCommit (orderedCommit : bool)
| OpSetIsOplogReader.

Definition discard {A} (m : M A) : M unit := m >> ret tt.

Definition exec (env : Env) (op : Op) : M unit :=
  match op with
  | OpBeginUnitOfWork => beginUnitOfWork
  | OpPrepareUnitOfWork => prepareUnitOfWork env
  | OpCommitUnitOfWork => commitUnitOfWork env
  | OpAbortUnitOfWork => abortUnitOfWork env
  | OpWaitUntilDurable => discard waitUntilDurable
  | OpWaitUntilUnjournaledWritesDurable => discard waitUntilUnjournaledWritesDurable
  | OpRegisterChange change => registerChange change
  | OpAssertInActiveTxn => assertInActiveTxn
  | OpGetSession => discard (getSession env)
  | OpGetSessionNoTxn => discard (getSessionNoTxn env)
  | OpAbandonSnapshot => abandonSnapshot env
  | OpPreallocateSnapshot => preallocateSnapshot env
  | OpGetSnapshotId => discard getSnapshotId
  | OpObtainMajorityCommittedSnapshot => discard (obtainMajorityCommittedSnapshot env)
  | OpGetPointInTimeReadTimestamp => discard getPointInTimeReadTimestamp
  | OpSetTimestamp timestamp => discard (setTimestamp env timestamp)
  | OpSetCommitTimestamp timestamp => setCommitTimestamp timestamp
  | OpGetCommitTimestamp => discard getCommitTimestamp
  | OpClearCommitTimestamp => clearCommitTimestamp
  | OpSetPrepareTimestamp timestamp => setPrepareTimestamp timestamp
  | OpGetPrepareTimestamp => discard getPrepareTimestamp
  | OpSetIgnorePrepared value => setIgnorePrepared value
  | OpSetTimestampReadSource readSource provided => setTimestampReadSource readSource provided
  | OpGetTimestampReadSource => discard getTimestampReadSource
  | OpBeginIdle => beginIdle
  | OpGetOperationStatistics => discard (getOperationStatistics env)
  | OpSetOrderedCommit orderedCommit => setOrderedCommit orderedCommit
  | OpSetIsOplogReader => setIsOplogReader
  end.

(** A client's run: each operation with the environment it meets.  A thrown
    status is caught by the client, which goes on with the recovery unit as
    the throwing call left it; a fatal assertion ends the process, and the run
    has no final world. *)
Fixpoint run (ops : list (Env * Op)) (w : World) : option World :=
  match ops with
  | [] => Some w
  | (env, op) :: ops' =>
      match exec env op w with
      | (Ok _, w') | (Thrown _, w') => run ops' w'
      | (Fatal _, _) => None
      end
  end.

(** The world in which a recovery unit has just been constructed, the counter
    holding [n]. *)
Definition constructed (n : N) : World :=
  snd (WiredTigerRecoveryUnit_ctor (mkWorld (RecoveryUnit_init 0) n [])).

(** ** Observations on traces *)

Definition is_flush (e : Event) : bool :=
  match e with EvTriggerJournalFlush => true | _ => false end.
Definition is_notify (e : Event) : bool :=
  match e with EvNotifyPreparedUnitOfWorkHasCommittedOrAborted => true | _ => false end.
Definition is_engine_commit (e : Event) : bool :=
  match e with EvCommitTransaction => true | _ => false end.
Definition is_engine_rollback (e : Event) : bool :=
  match e with EvRollbackTransaction => true | _ => false end.
Definition is_engine_end (e : Event) : bool :=
  is_engine_commit e || is_engine_rollback e.
Definition is_handler_call (e : Event) : bool :=
  match e with EvChangeCommit _ _ | EvChangeRollback _ => true | _ => false end.

(** The events of a trace that satisfy [p], in order; how many there are. *)
Definition only (p : Event -> bool) (tr : list Event) : list Event := List.filter p tr.
Definition occurrences (p : Event -> bool) (tr : list Event) : nat := length (only p tr).

(** The snapshot ids handed out, oldest first. *)
Fixpoint allocated (tr : list Event) : list N :=
  match tr with
  | [] => []
  | EvAllocSnapshotId id :: tr' => id :: allocated tr'
  | _ :: tr' => allocated tr'
  end.

(** ** A process: several recovery units on one counter *)

Record Process : Type := mkProcess {
  units : gmap nat RecoveryUnit;
  counter : N;
  calls : list Event
}.

Definition Process_init : Process := mkProcess ∅ nextSnapshotId_init [].

Inductive PStep : Type :=
| PConstruct (k : nat)
| PCall (k : nat) (env : Env) (op : Op)
| PDestroy (k : nat) (env : Env).

(** One step of the process.  [None]: the step names a unit that is not live
    (or constructs one under a name in use), or a fatal assertion has ended
    the process. *)
Definition pstep (st : PStep) (p : Process) : option Process :=
  match st with
  | PConstruct k =>
      match units p !! k with
      | Some _ => None
      | None =>
          let w := snd (WiredTigerRecoveryUnit_ctor
                          (mkWorld (RecoveryUnit_init 0) (counter p) (calls p))) in
          Some (mkProcess (<[k := ru w]> (units p)) (nextSnapshotId w) (trace w))
      end
  | PCall k env op =>
      match units p !! k with
      | None => None
      | Some r =>
          match exec env op (mkWorld r (counter p) (calls p)) with
          | (Fatal _, _) => None
          | (_, w) => Some (mkProcess (<[k := ru w]> (units p)) (nextSnapshotId w) (trace w))
          end
      end
  | PDestroy k env =>
      match units p !! k with
      | None => None
      | Some r =>
          match WiredTigerRecoveryUnit_dtor env (mkWorld r (counter p) (calls p)) with
          | (Fatal _, _) => None
          | (_, w) => Some (mkProcess (delete k (units p)) (nextSnapshotId w) (trace w))
          end
      end
  end.

Fixpoint prun (steps : list PStep) (p : Process) : option Process :=
  match steps with
  | [] => Some p
  | st :: steps' =>
      match pstep st p with
      | Some p' => prun steps' p'
      | None => None
      end
  end.

(** ** Relations every step of a computation keeps *)

Definition preserves {A} (R : World -> World -> Prop) (m : M A) : Prop :=
  forall w, R w (snd (m w)).

Definition emit_ok (R : World -> World -> Prop) (e : Event) : Prop :=
  forall w, R w (mkWorld (ru w) (nextSnapshotId w) (trace w ++ [e])).
Definition modify_ok (R : World -> World -> Prop) (f : RecoveryUnit -> RecoveryUnit) : Prop :=
  forall w, R w (mkWorld (f (ru w)) (nextSnapshotId w) (trace w)).
Definition alloc_ok (R : World -> World -> Prop) : Prop :=
  forall w, R w (mkWorld (ru w) ((nextSnapshotId w + 1) mod 2 ^ 64)
                   (trace w ++ [EvAllocSnapshotId (nextSnapshotId w)])).

(** Ids are handed out consecutively from the counter. *)
Definition consecutive (c : N) (k : nat) : list N :=
  map (fun i => (c + N.of_nat i) mod 2 ^ 64) (seq 0 k).

Definition allocates : World -> World -> Prop :=
  fun w w' =>
    nextSnapshotId w < 2 ^ 64 ->
    nextSnapshotId w' < 2 ^ 64
    /\ exists k : nat,
         allocated (trace w') = allocated (trace w) ++ consecutive (nextSnapshotId w) k
         /\ nextSnapshotId w' = (nextSnapshotId w + N.of_nat k) mod 2 ^ 64.


(** The commit time [_commit] hands to the handlers. *)
Definition effectiveCommitTime (r : RecoveryUnit) : option Timestamp :=
  if isNull (_commitTimestamp r) then _lastTimestampSet r else Some (_commitTimestamp r).

(** The handlers a sequence of operations registers, in order, and the
    operations that end a unit of work. *)
Definition registered (ops : list (Env * Op)) : list Change :=
  flat_map (fun eo => match snd eo with OpRegisterChange c => [c] | _ => [] end) ops.

Definition ends_unit_of_work (op : Op) : bool :=
  match op with OpCommitUnitOfWork | OpAbortUnitOfWork => true | _ => false end.

(** The two operations that assign [_commitTimestamp]. *)
Definition assigns_commitTimestamp (op : Op) : bool :=
  match op with OpSetCommitTimestamp _ | OpClearCommitTimestamp => true | _ => false end.

(** The calls one successful [_txnClose] makes, in order, for the recovery
    unit [r] it starts from and the counter value [c]. *)
Definition txnClose_timestamps (commit : bool) (r : RecoveryUnit) : bool :=
  _isTimestamped r || (commit && negb (isNull (_commitTimestamp r))).

Definition txnClose_flushes (commit : bool) (r : RecoveryUnit) : bool :=
  txnClose_timestamps commit r && negb (_orderedCommit r).

Definition txnClose_before_end (env : Env) (commit : bool) (r : RecoveryUnit) : list Event :=
  (if _timer r && Z.leb (Z.max 1 (slowMS env)) (timer_millis env)
   then [EvSlowTransactionLog (_mySnapshotId r) (timer_millis env)] else [])
  ++ (if commit && negb (isNull (_commitTimestamp r))
      then [EvTimestampTransaction
              ("commit_timestamp=" ++ integerToHex (asULL (_commitTimestamp r)))]
      else []).

Definition txnClose_end (commit : bool) : Event :=
  if commit then EvCommitTransaction else EvRollbackTransaction.

Definition txnClose_calls (env : Env) (commit : bool) (r : RecoveryUnit) (c : N) : list Event :=
  txnClose_before_end env commit r
  ++ [txnClose_end commit]
  ++ (if txnClose_flushes commit r then [EvTriggerJournalFlush] else [])
  ++ [EvAllocSnapshotId c].

(** The recovery unit a successful [_txnClose] leaves. *)
Definition txnClose_result (r : RecoveryUnit) (c : N) : RecoveryUnit :=
  mkRU (_state r) (_session r) c (_changes r) (_commitTimestamp r)
    None Timestamp_null (_readAtTimestamp r)
    (_majorityCommittedSnapshot r) (_timestampReadSource r) (_ignorePrepared r)
    false true false (_timer r).

(** Whether [_commit] and [_abort] notify the prepare-conflict waiters, and
    whether they close a transaction first. *)
Definition notifies (env : Env) (r : RecoveryUnit) : bool :=
  negb (isNull (_prepareTimestamp r)) || failPoint_WTAlwaysNotifyPrepareConflictWaiters env.

Definition closes (r : RecoveryUnit) : bool :=
  bool_decide (is_Some (_session r)) && _isActive r.

Definition end_calls (env : Env) (commit : bool) (w : World) : list Event :=
  (if closes (ru w) then txnClose_calls env commit (ru w) (nextSnapshotId w) else [])
  ++ (if notifies env (ru w)
      then [EvNotifyPreparedUnitOfWorkHasCommittedOrAborted] else []).

Definition end_result (w : World) : RecoveryUnit :=
  set_state kInactive
    (set_changes []
       (if closes (ru w) then txnClose_result (ru w) (nextSnapshotId w) else ru w)).

(** What opening a transaction may change of a recovery unit: the state, the
    session, the two read timestamps and the timer; nothing else. *)
Definition txnOpen_frame (r r' : RecoveryUnit) : Prop :=
  r' = mkRU (_state r') (_session r') (_mySnapshotId r) (_changes r) (_commitTimestamp r)
         (_lastTimestampSet r) (_prepareTimestamp r) (_readAtTimestamp r')
         (_majorityCommittedSnapshot r') (_timestampReadSource r) (_ignorePrepared r)
         (_isOplogReader r) (_orderedCommit r) (_isTimestamped r) (_timer r').

(** What holds of a recovery unit between operations. *)
Definition timestamps_exclusive (r : RecoveryUnit) : Prop :=
  is_Some (_lastTimestampSet r) -> isNull (_commitTimestamp r) = true.

Definition changes_only_in_unit_of_work (r : RecoveryUnit) : Prop :=
  _inUnitOfWork r = false -> _changes r = [].

Definition session_when_active (r : RecoveryUnit) : Prop :=
  _isActive r = true -> is_Some (_session r).

Definition between_operations (r : RecoveryUnit) : Prop :=
  _isCommittingOrAborting r = false.

Definition wf (r : RecoveryUnit) : Prop :=
  timestamps_exclusive r /\ changes_only_in_unit_of_work r
  /\ session_when_active r /\ between_operations r.

(** The handler calls [_commit] and [_abort] make for a change list. *)
Definition commit_calls (t : option Timestamp) (cs : list Change) : list Event :=
  map (fun c => EvChangeCommit c t) cs.
Definition rollback_calls (cs : list Change) : list Event :=
  map EvChangeRollback (rev cs).

(** ** Concrete environments and runs, for the examples *)

(** An engine that answers [rc_ts] to [timestamp_transaction] and [block] to
    the begin-transaction block's [setTimestamp], accepts everything else,
    and handlers that return; [fp] arms the fail point. *)
Definition env_with (fp : bool) (rc_ts : Z) (block : Status) : Env :=
  mkEnv fp 7 false 0%Z 100%Z
    (fun _ => rc_ts) (fun _ => 0%Z) 0%Z 0%Z (fun _ => (0%Z, "0000000000000000"%string))
    (fun _ _ => block)
    0 0 None 0 None 0
    (fun rc context => if Z.eqb rc 0 then Status_OK else mkStatus BadValue context)
    (fun _ _ => (Status_OK, 0)) (fun _ => EmptyString) (Status_OK, [])
    (fun _ _ => None) (fun _ => None).

Definition env_quiet : Env := env_with false 0%Z Status_OK.
Definition env_failpoint : Env := env_with true 0%Z Status_OK.
Definition env_timestamp_rejected : Env := env_with false 22%Z Status_OK.
Definition env_read_too_old : Env :=
  env_with false 0%Z (mkStatus BadValue "timestamp_transaction").
Definition env_read_failed : Env :=
  env_with false 0%Z (mkStatus (OtherError 8) "timestamp_transaction").

Definition quietly (ops : list Op) : list (Env * Op) := map (fun op => (env_quiet, op)) ops.

(** The world a run ends in, the starting world if a fatal assertion ended it. *)
Definition after (ops : list (Env * Op)) (w : World) : World :=
  match run ops w with Some w' => w' | None => w end.

(** A unit of work with two handlers and a timestamp, before it ends. *)
Definition two_handlers : list (Env * Op) :=
  quietly [OpRegisterChange 1; OpRegisterChange 2; OpSetTimestamp 7].
Definition w_two_handlers : World := Eval vm_compute in
  after ((env_quiet, OpBeginUnitOfWork) :: two_handlers) (constructed 1).

(** A commit timestamp set outside a unit of work, then an open transaction
    in a unit of work whose commit is declared unordered. *)
Definition w_commit_timestamp : World := Eval vm_compute in
  after (quietly [OpSetCommitTimestamp 9; OpBeginUnitOfWork; OpGetSession;
                  OpSetOrderedCommit false]) (constructed 1).

(** A unit of work with a prepare timestamp, before and after [prepareUnitOfWork]. *)
Definition w_before_prepare : World := Eval vm_compute in
  after (quietly [OpBeginUnitOfWork; OpSetPrepareTimestamp 5]) (constructed 1).
Definition w_prepared : World := Eval vm_compute in
  after (quietly [OpPrepareUnitOfWork; OpSetCommitTimestamp 9]) w_before_prepare.

(** A read source [Provided] with timestamp 1, no transaction open yet. *)
Definition w_provided : World := Eval vm_compute in
  after (quietly [OpSetTimestampReadSource kProvided (Some 1)]) (constructed 1).

(** An open unit of work, for [setTimestamp]. *)
Definition w_in_unit_of_work : World := Eval vm_compute in
  after (quietly [OpBeginUnitOfWork; OpGetSession]) (constructed 1).

(** An open read transaction outside a unit of work. *)
Definition w_reading : World := Eval vm_compute in
  after (quietly [OpPreallocateSnapshot]) (constructed 1).

(** The later trace continues the earlier one. *)
Definition extends : World -> World -> Prop :=
  fun w w' => exists calls, trace w' = trace w ++ calls.

(** The processes a run of steps reaches from the start of the process. *)
Definition reachable (p : Process) : Prop :=
  exists steps, prun steps Process_init = Some p.

(** A process that constructs a recovery unit and destroys it again, [k]
    times over: what each round leaves. *)
Definition round : list PStep := [PConstruct 0; PDestroy 0 env_quiet].
Definition round_result (p : Process) : Process :=
  mkProcess (units p) ((counter p + 1) mod 2 ^ 64)
    (calls p ++ [EvAllocSnapshotId (counter p)]).
Definition churn (k : N) : Process := N.iter k round_result Process_init.


(** ** Further observations on runs and calls *)

Definition is_cache_get (e : Event) : bool :=
  match e with EvCacheGetSession _ => true | _ => false end.

(** The three ways [_txnOpen] begins an engine transaction. *)
Definition is_begin (e : Event) : bool :=
  match e with
  | EvBeginTransaction _
  | EvBeginTransactionOnCommittedSnapshot _
  | EvBeginTransactionOnLocalSnapshot _ => true
  | _ => false
  end.

(** As many transactions begun as ended, plus the open one. *)
Definition balanced (w : World) : Prop :=
  occurrences is_begin (trace w)
  = (occurrences is_engine_end (trace w) + (if _isActive (ru w) then 1 else 0))%nat.

(** The session cache has been asked once if a session is bound, never
    otherwise. *)
Definition session_acquired_once (w : World) : Prop :=
  occurrences is_cache_get (trace w)
  = (if bool_decide (is_Some (_session (ru w))) then 1 else 0)%nat.

(** [_mySnapshotId] is the id handed out last. *)
Definition snapshotId_is_latest (w : World) : Prop :=
  exists earlier, allocated (trace w) = earlier ++ [_mySnapshotId (ru w)].

Definition trace_consistent (w : World) : Prop :=
  balanced w /\ session_acquired_once w /\ snapshotId_is_latest w.

(** [_lastTimestampSet] is set only while no prepare timestamp is. *)
Definition prepare_excludes_last (r : RecoveryUnit) : Prop :=
  is_Some (_lastTimestampSet r) -> isNull (_prepareTimestamp r) = true.

(** The operations the source guards with [invariant(_inUnitOfWork())] and
    with [invariant(!_inUnitOfWork())]. *)
Definition requires_unit_of_work (op : Op) : bool :=
  match op with
  | OpPrepareUnitOfWork | OpCommitUnitOfWork | OpAbortUnitOfWork
  | OpRegisterChange _ | OpSetTimestamp _ | OpSetPrepareTimestamp _
  | OpGetPrepareTimestamp => true
  | _ => false
  end.

Definition forbids_unit_of_work (op : Op) : bool :=
  match op with
  | OpBeginUnitOfWork | OpWaitUntilDurable | OpWaitUntilUnjournaledWritesDurable
  | OpAbandonSnapshot | OpClearCommitTimestamp => true
  | _ => false
  end.

(** The operations that would open a transaction or a unit of work. *)
Definition opens (op : Op) : bool :=
  match op with
  | OpBeginUnitOfWork | OpGetSession | OpPreallocateSnapshot => true
  | _ => false
  end.

(** Whether [_txnOpen] takes the path that sets the read timestamp from
    [_readAtTimestamp]: read source [kProvided], or one of the two snapshot
    sources once they have a timestamp. *)
Definition reads_at_timestamp (r : RecoveryUnit) : bool :=
  match _timestampReadSource r with
  | kProvided => true
  | kLastAppliedSnapshot | kAllCommittedSnapshot => negb (isNull (_readAtTimestamp r))
  | _ => false
  end.

Definition with_readSource (src : ReadSource) (w : World) : World :=
  mkWorld (set_timestampReadSource src (ru w)) (nextSnapshotId w) (trace w).

(** An environment whose snapshot manager has a local snapshot at 42 and a
    committed snapshot at 40, whose oplog manager reports all-committed 45,
    and whose engine reports 44 as the read timestamp in use. *)
Definition env_snapshots : Env :=
  mkEnv false 7 false 0%Z 100%Z
    (fun _ => 0%Z) (fun _ => 0%Z) 0%Z 0%Z (fun _ => (0%Z, "000000000000002c"%string))
    (fun _ _ => Status_OK)
    43 45 (Some 40) 40 (Some 42) 42
    (fun rc context => if Z.eqb rc 0 then Status_OK else mkStatus BadValue context)
    (fun _ _ => (Status_OK, 44)) (fun _ => EmptyString) (Status_OK, [])
    (fun _ _ => None) (fun _ => None).

(** A recovery unit reading at the last applied snapshot, after a first
    transaction has fixed the timestamp and has been abandoned. *)
Definition w_snapshot_cached : World := Eval vm_compute in
  after [(env_snapshots, OpSetTimestampReadSource kLastAppliedSnapshot None);
         (env_snapshots, OpGetSession); (env_snapshots, OpAbandonSnapshot)]
    (constructed 1).

(** What [getPointInTimeReadTimestamp] answers once a transaction has been
    opened under read source [src], set with [provided]. *)
Definition read_timestamp_of_engine (env : Env) : Timestamp :=
  Timestamp_ofULL
    (snd (parseNumberFromStringWithBase env (snd (wt_query_timestamp env "get=read")) 16)).

Definition or_invariant_failure (t : Timestamp) : Outcome (option Timestamp) :=
  if isNull t then Fatal InvariantFailure else Ok (Some t).

Definition point_in_time_after_open (env : Env) (src : ReadSource)
    (provided : option Timestamp) : Outcome (option Timestamp) :=
  match src with
  | kUnset | kNoTimestamp => Ok None
  | kProvided => Ok provided
  | kMajorityCommitted =>
      or_invariant_failure (snapshotManager_beginTransactionOnCommittedSnapshot env)
  | kLastApplied =>
      match snapshotManager_getLocalSnapshot env with
      | Some _ =>
          if isNull (snapshotManager_beginTransactionOnLocalSnapshot env) then Ok None
          else Ok (Some (snapshotManager_beginTransactionOnLocalSnapshot env))
      | None => Ok None
      end
  | kLastAppliedSnapshot =>
      or_invariant_failure (snapshotManager_beginTransactionOnLocalSnapshot env)
  | kAllCommittedSnapshot => or_invariant_failure (read_timestamp_of_engine env)
  end.

(** The two snapshot read sources selected on a fresh recovery unit. *)
Definition w_last_applied_snapshot : World := Eval vm_compute in
  after [(env_quiet, OpSetTimestampReadSource kLastAppliedSnapshot None)] (constructed 1).
Definition w_all_committed_snapshot : World := Eval vm_compute in
  after [(env_quiet, OpSetTimestampReadSource kAllCommittedSnapshot None)] (constructed 1).

(** The session [_ensureSession] takes from the cache, if none is bound. *)
Definition acquire_calls (env : Env) (r : RecoveryUnit) : list Event :=
  match _session r with
  | Some _ => []
  | None => [EvCacheGetSession (sessionCache_getSession env)]
  end.

(** A unit of work with a prepare timestamp and no transaction, ended. *)
Definition w_prepare_left_over : World := Eval vm_compute in
  after (quietly [OpCommitUnitOfWork; OpBeginUnitOfWork]) w_before_prepare.

(** The later trace continues the earlier one with calls that satisfy [P]. *)
Definition within (P : Event -> bool) : World -> World -> Prop :=
  fun w w' => exists calls, trace w' = trace w ++ calls /\ forallb P calls = true.




(** Whether every handler of a unit of work returns, when it is committed
    and when it is rolled back. *)
Definition handlers_return (env : Env) (commit : bool) (r : RecoveryUnit) : bool :=
  if commit
  then forallb (fun c => bool_decide (change_commit env c (effectiveCommitTime r) = None))
         (_changes r)
  else forallb (fun c => bool_decide (change_rollback env c = None)) (rev (_changes r)).

Definition endUnitOfWork (env : Env) (commit : bool) : M unit :=
  if commit then commitUnitOfWork env else abortUnitOfWork env.

(** Handlers of which the second throws. *)
Definition env_handler_throws : Env :=
  mkEnv false 7 false 0%Z 100%Z
    (fun _ => 0%Z) (fun _ => 0%Z) 0%Z 0%Z (fun _ => (0%Z, "0000000000000000"%string))
    (fun _ _ => Status_OK)
    0 0 None 0 None 0
    (fun rc context => if Z.eqb rc 0 then Status_OK else mkStatus BadValue context)
    (fun _ _ => (Status_OK, 0)) (fun _ => EmptyString) (Status_OK, [])
    (fun c _ => if N.eqb c 2 then Some (mkStatus (OtherError 1) "handler") else None)
    (fun _ => None).


(** The [IgnorePrepared] mode a transaction is begun with. *)
Definition begin_mode (e : Event) : option IgnorePrepared :=
  match e with
  | EvBeginTransaction ip
  | EvBeginTransactionOnCommittedSnapshot ip
  | EvBeginTransactionOnLocalSnapshot ip => Some ip
  | _ => None
  end.

(** An oplog reader on a fresh recovery unit; an engine that refuses every
    read timestamp with an error other than [BadValue]. *)
Definition w_oplog_reader : World := Eval vm_compute in
  after (quietly [OpSetIsOplogReader]) (constructed 1).
Section Preserves.
Context (R : World -> World -> Prop) `{!Reflexive R} `{!Transitive R}.

Lemma preserves_ret {A} (a : A) : preserves R (ret a).
Proof. intros w. reflexivity. Qed.

Lemma preserves_throw {A} st : preserves R (@throw A st).
Proof. intros w. reflexivity. Qed.

Lemma preserves_fatal {A} k : preserves R (@fatal A k).
Proof. intros w. reflexivity. Qed.

Lemma preserves_getRU : preserves R getRU.
Proof. intros w. reflexivity. Qed.

Lemma preserves_bind {A B} (m : M A) (k : A -> M B) :
  preserves R m -> (forall a, preserves R (k a)) -> preserves R (bind m k).
Proof.
  intros Hm Hk w. unfold bind. specialize (Hm w).
  destruct (m w) as [[a|st|f] w1]; simpl in *; try assumption.
  etransitivity; [exact Hm | apply Hk].
Qed.

Lemma preserves_when b (m : M unit) : preserves R m -> preserves R (when b m).
Proof. destruct b; simpl; [intros H; exact H | intros _; apply preserves_ret]. Qed.

Lemma preserves_invariant b : preserves R (invariant b).
Proof. destruct b; intros w; reflexivity. Qed.

Lemma preserves_fassert n st : preserves R (fassert n st).
Proof. unfold fassert. destruct (isOK st); intros w; reflexivity. Qed.

Lemma preserves_uassertStatusOK st : preserves R (uassertStatusOK st).
Proof. unfold uassertStatusOK. destruct (isOK st); intros w; reflexivity. Qed.

Lemma preserves_try {A} (m : M A) : preserves R m -> preserves R (try_or_terminate m).
Proof.
  intros H w. specialize (H w). unfold try_or_terminate.
  destruct (m w) as [[a|st|f] w1]; exact H.
Qed.

Lemma preserves_emit e : emit_ok R e -> preserves R (emit e).
Proof. intros H w. apply H. Qed.

Lemma preserves_modifyRU f : modify_ok R f -> preserves R (modifyRU f).
Proof. intros H w. apply H. Qed.

Lemma preserves_fetchAndAdd : alloc_ok R -> preserves R (fetchAndAdd 1).
Proof. intros H w. apply H. Qed.

Lemma preserves_commitChanges env t cs :
  (forall c, emit_ok R (EvChangeCommit c t)) -> preserves R (commitChanges env cs t).
Proof.
  intros He. induction cs as [|c cs IH]; simpl.
  - apply preserves_ret.
  - apply preserves_bind; [|intros _; exact IH].
    unfold Change_commit. apply preserves_bind; [apply preserves_emit, He|].
    intros _. destruct (change_commit env c t); [apply preserves_throw | apply preserves_ret].
Qed.

Lemma preserves_rollbackChanges env cs :
  (forall c, emit_ok R (EvChangeRollback c)) -> preserves R (rollbackChanges env cs).
Proof.
  intros He. induction cs as [|c cs IH]; simpl.
  - apply preserves_ret.
  - apply preserves_bind; [|intros _; exact IH].
    unfold Change_rollback. apply preserves_bind; [apply preserves_emit, He|].
    intros _. destruct (change_rollback env c); [apply preserves_throw | apply preserves_ret].
Qed.

Lemma preserves_scope {A} (m : M A) :
  emit_ok R EvRollbackTransaction -> preserves R m -> preserves R (BeginTxnBlock_scope m).
Proof.
  intros He H w. specialize (H w). unfold BeginTxnBlock_scope.
  destruct (m w) as [[a|st|f] w1]; simpl in *; try exact H.
  etransitivity; [exact H | apply He].
Qed.
End Preserves.

Create HintDb ru_unfold.
#[export] Hint Unfold _setState timestamp_transaction prepare_transaction commit_transaction
  rollback_transaction WiredTigerRecoveryUnit_ctor _ensureSession _txnClose
  Change_commit Change_rollback _commit _abort WiredTigerRecoveryUnit_dtor
  beginUnitOfWork BeginTxnBlock_ctor BeginTxnBlock_setTimestamp BeginTxnBlock_done
  _beginTransactionAtAllCommittedTimestamp _txnOpen_kProvided
  _txnOpen_kLastAppliedSnapshot _txnOpen_kAllCommittedSnapshot _txnOpen getSession
  prepareUnitOfWork commitUnitOfWork abortUnitOfWork waitUntilDurable
  waitUntilUnjournaledWritesDurable registerChange assertInActiveTxn getSessionNoTxn
  abandonSnapshot preallocateSnapshot getSnapshotId obtainMajorityCommittedSnapshot
  getPointInTimeReadTimestamp setTimestamp setCommitTimestamp getCommitTimestamp
  clearCommitTimestamp setPrepareTimestamp getPrepareTimestamp setIgnorePrepared
  setTimestampReadSource getTimestampReadSource beginIdle getOperationStatistics
  setOrderedCommit setIsOplogReader discard invariantWTOK uasserted : ru_unfold.

(** [preserves R m] by following the structure of [m]; what is left are the
    side conditions on the events emitted and the fields assigned. *)
Ltac preserves_step :=
  lazymatch goal with
  | H : preserves ?R ?m |- preserves ?R ?m => exact H
  | |- preserves _ (bind _ _) => apply preserves_bind; [try typeclasses eauto ..| | intros ?]
  | |- preserves _ (ret _) => apply preserves_ret; typeclasses eauto
  | |- preserves _ (throw _) => apply preserves_throw; typeclasses eauto
  | |- preserves _ (fatal _) => apply preserves_fatal; typeclasses eauto
  | |- preserves _ getRU => apply preserves_getRU; typeclasses eauto
  | |- preserves _ (when _ _) => apply preserves_when; [try typeclasses eauto ..|]
  | |- preserves _ (invariant _) => apply preserves_invariant; typeclasses eauto
  | |- preserves _ (fassert _ _) => apply preserves_fassert; typeclasses eauto
  | |- preserves _ (uassertStatusOK _) => apply preserves_uassertStatusOK; typeclasses eauto
  | |- preserves _ (try_or_terminate _) => apply preserves_try
  | |- preserves _ (BeginTxnBlock_scope _) =>
      apply preserves_scope; [try typeclasses eauto ..| | ]
  | |- preserves _ (emit _) => apply preserves_emit; [try typeclasses eauto ..|]
  | |- preserves _ (modifyRU _) => apply preserves_modifyRU; [try typeclasses eauto ..|]
  | |- preserves _ (fetchAndAdd _) => apply preserves_fetchAndAdd; [try typeclasses eauto ..|]
  | |- preserves _ (commitChanges _ _ _) =>
      apply preserves_commitChanges; [try typeclasses eauto ..| intros ?]
  | |- preserves _ (rollbackChanges _ _) =>
      apply preserves_rollbackChanges; [try typeclasses eauto ..| intros ?]
  | |- preserves _ (match ?x with _ => _ end) => destruct x
  | |- preserves _ (let _ := _ in _) => cbv zeta
  | |- preserves _ _ => progress autounfold with ru_unfold
  end.

Ltac preserves_tac := repeat preserves_step.

Arguments integerToHex : simpl never.
Arguments N.modulo : simpl never.
Arguments N.pow : simpl never.
Arguments Z.max : simpl never.

(** Running a computation on a world given by its fields. *)
Ltac munfold :=
  autounfold with ru_unfold in *;
  cbv [bind ret getRU modifyRU emit when invariant fatal throw uassertStatusOK
       fassert fetchAndAdd try_or_terminate BeginTxnBlock_scope
       _isActive _inUnitOfWork _isCommittingOrAborting
       ru trace nextSnapshotId] in *.

Ltac mcases := repeat (case_match; simpl in *; simplify_eq).

Lemma only_app p (a b : list Event) : only p (a ++ b) = only p a ++ only p b.
Proof. apply List.filter_app. Qed.

Lemma occurrences_app p (a b : list Event) :
  occurrences p (a ++ b) = (occurrences p a + occurrences p b)%nat.
Proof. unfold occurrences. rewrite only_app. apply length_app. Qed.

(** *** [_txnClose] *)

Lemma _txnClose_Ok env commit w w' :
  _txnClose env commit w = (Ok tt, w') ->
  _isActive (ru w) = true
  /\ ru w' = txnClose_result (ru w) (nextSnapshotId w)
  /\ nextSnapshotId w' = (nextSnapshotId w + 1) mod 2 ^ 64
  /\ trace w' = trace w ++ txnClose_calls env commit (ru w) (nextSnapshotId w).
Proof.
  destruct w as [r c tr]. destruct r. intros H.
  unfold txnClose_calls, txnClose_before_end, txnClose_flushes, txnClose_timestamps,
    txnClose_end, txnClose_result.
  destruct commit, _state0; munfold; simpl in *; try discriminate; mcases;
    repeat match goal with
      | b : bool |- _ => destruct b
      | |- context [isNull ?t] => destruct (isNull t)
      end;
    simpl in *; try discriminate;
    repeat split; rewrite <- ?app_assoc; reflexivity.
Qed.

Lemma _txnClose_not_Thrown env commit w st w' :
  _txnClose env commit w <> (Thrown st, w').
Proof.
  destruct w as [r c tr]. destruct r. intros H.
  munfold. simpl in *. mcases.
Qed.

(** *** The handler loops, [_commit] and [_abort] *)

Lemma commitChanges_spec env t cs : forall w,
  match commitChanges env cs t w with
  | (Ok _, w') =>
      ru w' = ru w /\ nextSnapshotId w' = nextSnapshotId w /\
      trace w' = trace w ++ map (fun c => EvChangeCommit c t) cs
  | (Thrown _, w') =>
      exists k, trace w' = trace w ++ take k (map (fun c => EvChangeCommit c t) cs)
  | (Fatal _, _) => False
  end.
Proof.
  induction cs as [|c cs IH]; intros [r n tr]; simpl.
  - rewrite app_nil_r. auto.
  - unfold Change_commit. munfold.
    destruct (change_commit env c t) as [st|]; simpl.
    + exists 1%nat. reflexivity.
    + specialize (IH (mkWorld r n (tr ++ [EvChangeCommit c t]))).
      destruct (commitChanges env cs t _) as [[u|st|k] w']; simpl in *.
      * destruct IH as (-> & -> & ->). rewrite <- app_assoc. auto.
      * destruct IH as [k ->]. exists (S k). rewrite <- app_assoc. reflexivity.
      * exact IH.
Qed.

Lemma rollbackChanges_spec env cs : forall w,
  match rollbackChanges env cs w with
  | (Ok _, w') =>
      ru w' = ru w /\ nextSnapshotId w' = nextSnapshotId w /\
      trace w' = trace w ++ map EvChangeRollback cs
  | (Thrown _, w') =>
      exists k, trace w' = trace w ++ take k (map EvChangeRollback cs)
  | (Fatal _, _) => False
  end.
Proof.
  induction cs as [|c cs IH]; intros [r n tr]; simpl.
  - rewrite app_nil_r. auto.
  - unfold Change_rollback. munfold.
    destruct (change_rollback env c) as [st|]; simpl.
    + exists 1%nat. reflexivity.
    + specialize (IH (mkWorld r n (tr ++ [EvChangeRollback c]))).
      destruct (rollbackChanges env cs _) as [[u|st|k] w']; simpl in *.
      * destruct IH as (-> & -> & ->). rewrite <- app_assoc. auto.
      * destruct IH as [k ->]. exists (S k). rewrite <- app_assoc. reflexivity.
      * exact IH.
Qed.

(** [when c (_txnClose env commit)] at the head of [_commit] and [_abort]. *)
Lemma close_if_active_Ok env commit w w' :
  when (closes (ru w)) (_txnClose env commit) w = (Ok tt, w') ->
  ru w' = (if closes (ru w) then txnClose_result (ru w) (nextSnapshotId w) else ru w)
  /\ trace w' = trace w ++
       (if closes (ru w) then txnClose_calls env commit (ru w) (nextSnapshotId w) else [])
  /\ nextSnapshotId w' =
       (if closes (ru w) then (nextSnapshotId w + 1) mod 2 ^ 64 else nextSnapshotId w).
Proof.
  destruct (closes (ru w)); simpl.
  - intros H. apply _txnClose_Ok in H. tauto.
  - intros [= <-]. rewrite app_nil_r. auto.
Qed.

Lemma _commit_Ok env w w' :
  _commit env w = (Ok tt, w') ->
  trace w' = trace w ++ end_calls env true w
             ++ map (fun c => EvChangeCommit c (effectiveCommitTime (ru w))) (_changes (ru w))
  /\ ru w' = end_result w.
Proof.
  unfold _commit, end_calls, end_result, notifies, effectiveCommitTime.
  cbv [bind getRU try_or_terminate _setState]. cbv zeta.
  change (bool_decide (is_Some (_session (ru w))) && _isActive (ru w))
    with (closes (ru w)).
  destruct (when (closes (ru w)) (_txnClose env true) w) as [[[]|st|k] w1] eqn:E;
    try discriminate.
  apply close_if_active_Ok in E. destruct E as (Hru & Htr & Hn).
  destruct w1 as [r1 n1 tr1]. simpl in Hru, Htr, Hn. subst r1 tr1 n1.
  assert (Hch : _changes (if closes (ru w)
                          then txnClose_result (ru w) (nextSnapshotId w) else ru w)
                = _changes (ru w)) by (destruct (closes (ru w)); reflexivity).
  set (r1 := if closes (ru w) then _ else _) in *.
  set (n1 := if closes (ru w) then _ else _) in *.
  set (ev := if closes (ru w) then _ else _) in *.
  set (t := if isNull _ then _ else _).
  destruct (failPoint_WTAlwaysNotifyPrepareConflictWaiters env) eqn:Hfp,
    (isNull (_prepareTimestamp (ru w))) eqn:Hp; cbv [modifyRU when emit ret]; simpl;
    rewrite Hch;
    match goal with
    | |- context [commitChanges env ?cs ?t ?w0] =>
        pose proof (commitChanges_spec env t cs w0) as Hs;
        destruct (commitChanges env cs t w0) as [[[]|st|k] w2]; try discriminate
    end;
    destruct Hs as (Hr2 & Hn2 & Ht2); destruct w2 as [r2 n2 tr2]; simpl in *;
    subst r2 n2 tr2; intros [= <-]; simpl; rewrite <- ?app_assoc; simpl;
    rewrite ?app_nil_r; auto.
Qed.

Lemma _abort_Ok env w w' :
  _abort env w = (Ok tt, w') ->
  trace w' = trace w ++ end_calls env false w
             ++ map EvChangeRollback (rev (_changes (ru w)))
  /\ ru w' = end_result w.
Proof.
  unfold _abort, end_calls, end_result, notifies.
  cbv [bind getRU try_or_terminate _setState]. cbv zeta.
  change (bool_decide (is_Some (_session (ru w))) && _isActive (ru w))
    with (closes (ru w)).
  destruct (when (closes (ru w)) (_txnClose env false) w) as [[[]|st|k] w1] eqn:E;
    try discriminate.
  apply close_if_active_Ok in E. destruct E as (Hru & Htr & Hn).
  destruct w1 as [r1 n1 tr1]. simpl in Hru, Htr, Hn. subst r1 tr1 n1.
  assert (Hch : _changes (if closes (ru w)
                          then txnClose_result (ru w) (nextSnapshotId w) else ru w)
                = _changes (ru w)) by (destruct (closes (ru w)); reflexivity).
  set (r1 := if closes (ru w) then _ else _) in *.
  set (n1 := if closes (ru w) then _ else _) in *.
  set (ev := if closes (ru w) then _ else _) in *.
  destruct (failPoint_WTAlwaysNotifyPrepareConflictWaiters env) eqn:Hfp,
    (isNull (_prepareTimestamp (ru w))) eqn:Hp; cbv [modifyRU when emit ret]; simpl;
    rewrite Hch;
    match goal with
    | |- context [rollbackChanges env ?cs ?w0] =>
        pose proof (rollbackChanges_spec env cs w0) as Hs;
        destruct (rollbackChanges env cs w0) as [[[]|st|k] w2]; try discriminate
    end;
    destruct Hs as (Hr2 & Hn2 & Ht2); destruct w2 as [r2 n2 tr2]; simpl in *;
    subst r2 n2 tr2; intros [= <-]; simpl; rewrite <- ?app_assoc; simpl;
    rewrite ?app_nil_r; auto.
Qed.

(** *** [getSession] *)

Lemma getSession_spec env w o w' :
  getSession env w = (o, w') ->
  txnOpen_frame (ru w) (ru w')
  /\ nextSnapshotId w' = nextSnapshotId w
  /\ (is_Some (_session (ru w)) -> _session (ru w') = _session (ru w))
  /\ match o with
     | Ok s =>
         s = _session (ru w')
         /\ _isActive (ru w') = true
         /\ _inUnitOfWork (ru w') = _inUnitOfWork (ru w)
         /\ (_isActive (ru w) = true -> w' = w)
         /\ (_isActive (ru w) = false -> is_Some (_session (ru w')))
     | Thrown _ => _state (ru w') = _state (ru w) /\ _isActive (ru w) = false
     | Fatal _ => True
     end.
Proof.
  destruct w as [r c tr]. destruct r. intros H. unfold txnOpen_frame.
  destruct _state0, _timestampReadSource0, _session0;
    munfold; simpl in *; mcases; simpl;
    repeat split; try done; try (intros [? ?]; done); eauto.
Qed.

Lemma try_or_terminate_not_Thrown {A} (m : M A) w st w' :
  try_or_terminate m w <> (Thrown st, w').
Proof. unfold try_or_terminate. destruct (m w) as [[?|?|?] ?]; discriminate. Qed.

Lemma _commit_not_Thrown env w st w' : _commit env w <> (Thrown st, w').
Proof.
  unfold _commit. cbv [bind getRU]. cbv zeta.
  destruct (try_or_terminate _ w) as [[[]|?|?] ?] eqn:E;
    [discriminate | apply try_or_terminate_not_Thrown in E; destruct E | discriminate].
Qed.

Lemma _abort_not_Thrown env w st w' : _abort env w <> (Thrown st, w').
Proof.
  unfold _abort. cbv [bind getRU]. cbv zeta.
  destruct (try_or_terminate _ w) as [[[]|?|?] ?] eqn:E;
    [discriminate | apply try_or_terminate_not_Thrown in E; destruct E | discriminate].
Qed.

(** *** Operations, one at a time *)

Create HintDb ru_ops.
#[export] Hint Unfold exec discard _ensureSession beginUnitOfWork prepareUnitOfWork
  commitUnitOfWork abortUnitOfWork waitUntilDurable waitUntilUnjournaledWritesDurable
  registerChange assertInActiveTxn getSessionNoTxn abandonSnapshot preallocateSnapshot
  getSnapshotId obtainMajorityCommittedSnapshot getPointInTimeReadTimestamp setTimestamp
  setCommitTimestamp getCommitTimestamp clearCommitTimestamp setPrepareTimestamp
  getPrepareTimestamp setIgnorePrepared setTimestampReadSource getTimestampReadSource
  beginIdle getOperationStatistics setOrderedCommit setIsOplogReader
  WiredTigerRecoveryUnit_dtor WiredTigerRecoveryUnit_ctor prepare_transaction
  timestamp_transaction invariantWTOK : ru_ops.

(** Unfold an operation down to its calls of [getSession], [_txnClose],
    [_commit] and [_abort], which stay folded. *)
Ltac mops :=
  autounfold with ru_ops in *;
  cbv [bind ret getRU modifyRU emit when invariant fatal throw uassertStatusOK
       fassert fetchAndAdd _setState
       _isActive _inUnitOfWork _isCommittingOrAborting
       ru trace nextSnapshotId] in *.

Ltac use_calls :=
  repeat match goal with
    | u : unit |- _ => destruct u
    | H : getSession _ _ = (_, _) |- _ => apply getSession_spec in H; simpl in H
    | H : _txnClose _ _ _ = (Ok _, _) |- _ => apply _txnClose_Ok in H; simpl in H
    | H : _txnClose _ _ _ = (Thrown _, _) |- _ => apply _txnClose_not_Thrown in H; destruct H
    | H : _commit _ _ = (Ok _, _) |- _ => apply _commit_Ok in H; simpl in H
    | H : _commit _ _ = (Thrown _, _) |- _ => apply _commit_not_Thrown in H; destruct H
    | H : _abort _ _ = (Ok _, _) |- _ => apply _abort_Ok in H; simpl in H
    | H : _abort _ _ = (Thrown _, _) |- _ => apply _abort_not_Thrown in H; destruct H
    end.

Ltac wf_finish :=
  repeat match goal with
    | w : World |- _ => destruct w; simpl in *
    end;
  repeat match goal with
    | H : _ /\ _ |- _ => destruct H
    | H : txnOpen_frame _ ?r |- _ =>
        unfold txnOpen_frame in H; destruct r; simpl in *; injection H as H; subst
    end;
  unfold wf, timestamps_exclusive, changes_only_in_unit_of_work, session_when_active,
    between_operations, end_result, closes, txnClose_result, _isActive, _inUnitOfWork,
    _isCommittingOrAborting in *;
  simpl in *; subst; simpl in *;
  repeat match goal with
    | H : _ /\ _ |- _ => destruct H
    | s : State |- _ => destruct s; simpl in *; try discriminate
    | H : ?a = ?a -> _ |- _ => specialize (H eq_refl)
    | H : negb (bool_decide (is_Some ?x)) = true |- _ =>
        destruct x; simpl in H; [discriminate | clear H]
    | H : context [bool_decide (is_Some ?x)] |- _ => is_var x; destruct x; simpl in *
    | |- context [bool_decide (is_Some ?x)] => is_var x; destruct x; simpl in *
    end;
  simplify_eq;
  repeat split; intros; try discriminate; try (by eauto);
  try match goal with
    | H : is_Some None |- _ => destruct H; discriminate
    | H : ?P -> ?Q |- ?Q => apply H; assumption
    end.

Lemma exec_wf env op w o w' :
  wf (ru w) -> exec env op w = (o, w') -> (forall k, o <> Fatal k) -> wf (ru w').
Proof.
  intros Hwf H Hnf. destruct w as [r c tr]. destruct r. simpl in Hwf.
  destruct o as [[]|st|k]; [ | | exfalso; eapply Hnf; reflexivity].
  all: destruct op, _state0; mops; simpl in *; mcases; use_calls.
  all: wf_finish.
Qed.

Lemma constructed_wf n : wf (ru (constructed n)).
Proof.
  unfold wf, timestamps_exclusive, changes_only_in_unit_of_work, session_when_active,
    between_operations; simpl.
  repeat split; try done; intros [? ?]; done.
Qed.

Lemma run_wf ops : forall w w', wf (ru w) -> run ops w = Some w' -> wf (ru w').
Proof.
  induction ops as [|[env op] ops IH]; intros w w' Hwf H; simpl in H.
  - congruence.
  - destruct (exec env op w) as [[u|st|k] w1] eqn:E; try discriminate;
      (eapply IH; [|exact H]); eapply exec_wf; eauto; discriminate.
Qed.

Lemma run_app ops1 : forall ops2 w w',
  run (ops1 ++ ops2) w = Some w' <->
  exists w1, run ops1 w = Some w1 /\ run ops2 w1 = Some w'.
Proof.
  induction ops1 as [|[env op] ops1 IH]; intros ops2 w w'; simpl.
  - split; [eauto | intros (w1 & [= ->] & H); exact H].
  - destruct (exec env op w) as [[u|st|k] w1]; try apply IH.
    split; [discriminate | intros (w2 & H & _); discriminate].
Qed.

(** Outside [commitUnitOfWork] and [abortUnitOfWork], the change list only
    grows, by the handler a [registerChange] appends. *)
Lemma exec_changes env op w o w' :
  ends_unit_of_work op = false ->
  exec env op w = (o, w') -> (forall k, o <> Fatal k) ->
  _changes (ru w') = _changes (ru w) ++ registered [(env, op)]
  /\ (_inUnitOfWork (ru w) = true -> _inUnitOfWork (ru w') = true).
Proof.
  intros Hend H Hnf. destruct w as [r c tr]. destruct r.
  destruct o as [[]|st|k]; [ | | exfalso; eapply Hnf; reflexivity].
  all: destruct op, _state0; try discriminate Hend;
    mops; simpl in *; mcases; use_calls; rewrite ?app_nil_r.
  all: wf_finish.
Qed.

Lemma run_changes body : forall w w',
  Forall (fun eo => ends_unit_of_work (snd eo) = false) body ->
  run body w = Some w' ->
  _changes (ru w') = _changes (ru w) ++ registered body
  /\ (_inUnitOfWork (ru w) = true -> _inUnitOfWork (ru w') = true).
Proof.
  induction body as [|[env op] body IH]; intros w w' Hall H; simpl in H.
  - injection H as <-. simpl. rewrite app_nil_r. auto.
  - inversion Hall as [|? ? Hop Hrest]; subst. simpl in Hop.
    destruct (exec env op w) as [o w1] eqn:E.
    assert (Hnf : forall k, o <> Fatal k) by (intros k ->; discriminate).
    destruct (exec_changes env op w o w1 Hop E Hnf) as [Hc Hu].
    assert (Hrun : run body w1 = Some w') by (destruct o; [exact H | exact H | discriminate]).
    destruct (IH w1 w' Hrest Hrun) as [Hc' Hu'].
    split; [|auto].
    rewrite Hc', Hc. unfold registered. simpl.
    rewrite app_nil_r, <- app_assoc. reflexivity.
Qed.

(** *** Counting in the calls of the end of a unit of work *)

Lemma only_handler_end_calls env commit w :
  only is_handler_call (end_calls env commit w) = [].
Proof.
  unfold end_calls, txnClose_calls, txnClose_before_end, txnClose_end.
  repeat (rewrite only_app || case_match); reflexivity.
Qed.

Lemma only_handler_commit_calls t cs :
  only is_handler_call (commit_calls t cs) = commit_calls t cs.
Proof. induction cs as [|c cs IH]; simpl; [reflexivity | f_equal; exact IH]. Qed.

Lemma only_handler_map_rollback cs :
  only is_handler_call (map EvChangeRollback cs) = map EvChangeRollback cs.
Proof. induction cs as [|c cs IH]; simpl; [reflexivity | f_equal; exact IH]. Qed.

Lemma occurrences_commit_calls p t cs :
  (forall c, p (EvChangeCommit c t) = false) -> occurrences p (commit_calls t cs) = 0%nat.
Proof.
  intros Hp. induction cs as [|c cs IH]; [reflexivity|].
  unfold occurrences, only in *. simpl. rewrite Hp. exact IH.
Qed.

Lemma occurrences_map_rollback p cs :
  (forall c, p (EvChangeRollback c) = false) ->
  occurrences p (map EvChangeRollback cs) = 0%nat.
Proof.
  intros Hp. induction cs as [|c cs IH]; [reflexivity|].
  unfold occurrences, only in *. simpl. rewrite Hp. exact IH.
Qed.

Lemma commitUnitOfWork_Ok env w w' :
  commitUnitOfWork env w = (Ok tt, w') ->
  _inUnitOfWork (ru w) = true /\ _commit env w = (Ok tt, w').
Proof.
  unfold commitUnitOfWork. cbv [bind getRU invariant ret fatal].
  destruct (_inUnitOfWork (ru w)); [auto | discriminate].
Qed.

Lemma abortUnitOfWork_Ok env w w' :
  abortUnitOfWork env w = (Ok tt, w') ->
  _inUnitOfWork (ru w) = true /\ _abort env w = (Ok tt, w').
Proof.
  unfold abortUnitOfWork. cbv [bind getRU invariant ret fatal].
  destruct (_inUnitOfWork (ru w)); [auto | discriminate].
Qed.

(** *** The scenarios of the specification, run *)

Example integerToHex_7 : integerToHex 7 = "0000000000000007"%string.
Proof. reflexivity. Qed.

Example integerToHex_max : integerToHex (2 ^ 64 - 1) = "ffffffffffffffff"%string.
Proof. vm_compute. reflexivity. Qed.

(** Scenario 2: two handlers, [setTimestamp(7)], commit. *)
Example scenario_commit_two_handlers :
  trace (after (quietly [OpCommitUnitOfWork]) w_two_handlers)
  = [EvAllocSnapshotId 1; EvCacheGetSession 7; EvBeginTransaction kNoIgnore;
     EvTimestampTransaction "commit_timestamp=0000000000000007";
     EvCommitTransaction; EvAllocSnapshotId 2;
     EvChangeCommit 1 (Some 7); EvChangeCommit 2 (Some 7)]
  /\ _state (ru (after (quietly [OpCommitUnitOfWork]) w_two_handlers)) = kInactive
  /\ _lastTimestampSet (ru (after (quietly [OpCommitUnitOfWork]) w_two_handlers)) = None.
Proof. vm_compute. repeat split; reflexivity. Qed.

(** Scenario 4: prepare at 5, commit at 9. *)
Example scenario_prepared_commit :
  trace (after (quietly [OpCommitUnitOfWork]) w_prepared)
  = [EvAllocSnapshotId 1; EvCacheGetSession 7; EvBeginTransaction kNoIgnore;
     EvPrepareTransaction "prepare_timestamp=0000000000000005";
     EvTimestampTransaction "commit_timestamp=0000000000000009";
     EvCommitTransaction; EvAllocSnapshotId 2;
     EvNotifyPreparedUnitOfWorkHasCommittedOrAborted].
Proof. vm_compute. reflexivity. Qed.

(** Only [setCommitTimestamp] and [clearCommitTimestamp] assign
    [_commitTimestamp]. *)
Lemma exec_commitTimestamp env op w o w' :
  assigns_commitTimestamp op = false ->
  exec env op w = (o, w') -> (forall k, o <> Fatal k) ->
  _commitTimestamp (ru w') = _commitTimestamp (ru w).
Proof.
  intros Hop H Hnf. destruct w as [r c tr]. destruct r.
  destruct o as [[]|st|k]; [ | | exfalso; eapply Hnf; reflexivity].
  all: destruct op, _state0; try discriminate Hop;
    mops; simpl in *; mcases; use_calls.
  all: wf_finish.
Qed.

(** ** The claims *)

(** C1.  In a client's run from construction, take a unit of work: a
    [beginUnitOfWork], then operations none of which is [commitUnitOfWork] or
    [abortUnitOfWork], registering handlers h1, ..., hn along the way.  A
    [commitUnitOfWork] that returns has called [commit] on h1, ..., hn in this
    order, each with the effective commit time ([_commitTimestamp] if not
    null, else [_lastTimestampSet]); an [abortUnitOfWork] that returns has
    called [rollback] on hn, ..., h1; either leaves the change list empty. *)
Theorem C1_handlers_in_order n pre env_b body env w1 :
  run (pre ++ (env_b, OpBeginUnitOfWork) :: body) (constructed n) = Some w1 ->
  Forall (fun eo => ends_unit_of_work (snd eo) = false) body ->
  (forall w2, commitUnitOfWork env w1 = (Ok tt, w2) ->
     only is_handler_call (trace w2)
     = only is_handler_call (trace w1)
       ++ commit_calls (effectiveCommitTime (ru w1)) (registered body)
     /\ _changes (ru w2) = [])
  /\ (forall w2, abortUnitOfWork env w1 = (Ok tt, w2) ->
     only is_handler_call (trace w2)
     = only is_handler_call (trace w1) ++ rollback_calls (registered body)
     /\ _changes (ru w2) = []).
Proof.
  intros Hrun Hbody.
  apply run_app in Hrun. destruct Hrun as (w0 & Hpre & Hrun).
  pose proof (run_wf _ _ _ (constructed_wf n) Hpre) as (_ & Hempty & _ & _).
  simpl in Hrun.
  destruct (exec env_b OpBeginUnitOfWork w0) as [o wb] eqn:Eb.
  assert (Hb : _changes (ru wb) = [] /\ run body wb = Some w1).
  { destruct w0 as [r0 c0 tr0]. destruct r0. unfold changes_only_in_unit_of_work in Hempty.
    destruct _state0; mops; simpl in *; mcases; auto; discriminate. }
  destruct Hb as [Hnil Hrun']. clear Eb.
  destruct (run_changes body wb w1 Hbody Hrun') as [Hch _].
  rewrite Hnil in Hch. simpl in Hch.
  split; intros w2 H.
  - apply commitUnitOfWork_Ok in H. destruct H as [_ H].
    apply _commit_Ok in H. destruct H as [Htr Hru].
    rewrite Htr, Hru, Hch, !only_app, only_handler_end_calls.
    fold (commit_calls (effectiveCommitTime (ru w1)) (registered body)).
    rewrite only_handler_commit_calls. auto.
  - apply abortUnitOfWork_Ok in H. destruct H as [_ H].
    apply _abort_Ok in H. destruct H as [Htr Hru].
    rewrite Htr, Hru, Hch, !only_app, only_handler_end_calls.
    rewrite only_handler_map_rollback. auto.
Qed.

(** C1, an instance: handlers 1 and 2 and [setTimestamp(7)]; commit calls
    1 then 2 with time 7, abort calls 2 then 1. *)
Lemma C1_handlers_in_order_witness :
  (exists w2, commitUnitOfWork env_quiet w_two_handlers = (Ok tt, w2)
     /\ only is_handler_call (trace w2)
        = [EvChangeCommit 1 (Some 7); EvChangeCommit 2 (Some 7)]
     /\ _changes (ru w2) = [])
  /\ (exists w2, abortUnitOfWork env_quiet w_two_handlers = (Ok tt, w2)
     /\ only is_handler_call (trace w2) = [EvChangeRollback 2; EvChangeRollback 1]
     /\ _changes (ru w2) = []).
Proof.
  assert (Hrun : run ([] ++ (env_quiet, OpBeginUnitOfWork) :: two_handlers) (constructed 1)
                 = Some w_two_handlers) by (vm_compute; reflexivity).
  assert (Hbody : Forall (fun eo => ends_unit_of_work (snd eo) = false) two_handlers)
    by (repeat constructor).
  destruct (C1_handlers_in_order 1 [] env_quiet two_handlers env_quiet w_two_handlers
              Hrun Hbody) as [Hc Ha].
  split.
  - eexists. split; [vm_compute; reflexivity|]. apply Hc. vm_compute; reflexivity.
  - eexists. split; [vm_compute; reflexivity|]. apply Ha. vm_compute; reflexivity.
Defined.


(** C2, as stated, fails: a commit timestamp set before a unit of work is
    still there after the transaction has been closed by the commit. *)
Lemma C2_counterexample :
  exists w',
    _txnClose env_quiet true w_commit_timestamp = (Ok tt, w')
    /\ _commitTimestamp (ru w_commit_timestamp) = 9
    /\ _commitTimestamp (ru w') = 9
    /\ isNull (_commitTimestamp (ru w')) = false.
Proof. eexists. vm_compute. repeat split; reflexivity. Qed.

(** C2, amended.  A transaction close that returns, committing or rolling
    back, leaves [_commitTimestamp] as it found it (it empties
    [_lastTimestampSet] and [_prepareTimestamp], not the commit timestamp);
    and over any run of operations other than [setCommitTimestamp] and
    [clearCommitTimestamp], closes and the opening of later transactions
    included, [_commitTimestamp] stays what it was. *)
Theorem C2_commitTimestamp_survives_close :
  (forall env commit w w',
     _txnClose env commit w = (Ok tt, w') ->
     _commitTimestamp (ru w') = _commitTimestamp (ru w)
     /\ _lastTimestampSet (ru w') = None
     /\ isNull (_prepareTimestamp (ru w')) = true)
  /\ (forall ops w w',
        Forall (fun eo => assigns_commitTimestamp (snd eo) = false) ops ->
        run ops w = Some w' ->
        _commitTimestamp (ru w') = _commitTimestamp (ru w)).
Proof.
  split.
  - intros env commit w w' H. apply _txnClose_Ok in H. destruct H as (_ & -> & _ & _).
    repeat split.
  - induction ops as [|[env op] ops IH]; intros w w' Hall H; simpl in H.
    + injection H as <-. reflexivity.
    + inversion Hall as [|? ? Hop Hrest]; subst. simpl in Hop.
      destruct (exec env op w) as [o w1] eqn:E.
      assert (Hnf : forall k, o <> Fatal k) by (intros k ->; discriminate).
      assert (Hrun : run ops w1 = Some w')
        by (destruct o; [exact H | exact H | discriminate]).
      rewrite (IH w1 w' Hrest Hrun).
      eapply exec_commitTimestamp; eassumption.
Qed.

(** C2, an instance: commit timestamp 9, a unit of work committed, and a new
    transaction opened: the commit timestamp is still 9. *)
Lemma C2_commitTimestamp_survives_close_witness :
  (exists w',
     _txnClose env_quiet false w_commit_timestamp = (Ok tt, w')
     /\ _commitTimestamp (ru w') = 9)
  /\ (exists w',
        run (quietly [OpCommitUnitOfWork; OpGetSession]) w_commit_timestamp = Some w'
        /\ _isActive (ru w') = true
        /\ _commitTimestamp (ru w') = 9).
Proof.
  destruct C2_commitTimestamp_survives_close as [Hclose Hrun].
  split.
  - eassert (H : _txnClose env_quiet false w_commit_timestamp = (Ok tt, _))
      by (vm_compute; reflexivity).
    eexists. split; [exact H|].
    exact (proj1 (Hclose _ _ _ _ H)).
  - eassert (H : run (quietly [OpCommitUnitOfWork; OpGetSession]) w_commit_timestamp
                 = Some _) by (vm_compute; reflexivity).
    eexists. split; [exact H|]. split; [reflexivity|].
    refine (Hrun _ _ _ _ H). repeat constructor.
Defined.

(** What empties the commit timestamp is [clearCommitTimestamp]. *)
Lemma clearCommitTimestamp_Ok w w' :
  clearCommitTimestamp w = (Ok tt, w') ->
  _inUnitOfWork (ru w) = false
  /\ isNull (_commitTimestamp (ru w)) = false
  /\ isNull (_commitTimestamp (ru w')) = true.
Proof.
  destruct w as [r c tr]. destruct r. intros H.
  destruct _state0; mops; simpl in *; mcases; repeat split;
    try reflexivity; apply negb_true_iff; assumption.
Qed.

(** *** Prepare-conflict notification *)

Lemma occurrences_notify_end_calls env commit w :
  occurrences is_notify (end_calls env commit w)
  = if notifies env (ru w) then 1%nat else 0%nat.
Proof.
  unfold end_calls, txnClose_calls, txnClose_before_end, txnClose_end.
  repeat (rewrite occurrences_app || case_match); reflexivity.
Qed.

(** C3.  A [commitUnitOfWork] or [abortUnitOfWork] that returns has notified
    the prepare-conflict waiters exactly once when [_prepareTimestamp] was
    not null at the call or the fail point is armed, and not at all
    otherwise. *)
Theorem C3_notify_once env w w' :
  commitUnitOfWork env w = (Ok tt, w') \/ abortUnitOfWork env w = (Ok tt, w') ->
  occurrences is_notify (trace w')
  = (occurrences is_notify (trace w)
     + (if negb (isNull (_prepareTimestamp (ru w)))
           || failPoint_WTAlwaysNotifyPrepareConflictWaiters env
        then 1 else 0))%nat.
Proof.
  intros [H|H].
  - apply commitUnitOfWork_Ok in H. destruct H as [_ H].
    apply _commit_Ok in H. destruct H as [-> _].
    rewrite !occurrences_app, occurrences_notify_end_calls.
    fold (commit_calls (effectiveCommitTime (ru w)) (_changes (ru w))).
    rewrite occurrences_commit_calls by reflexivity.
    unfold notifies. lia.
  - apply abortUnitOfWork_Ok in H. destruct H as [_ H].
    apply _abort_Ok in H. destruct H as [-> _].
    rewrite !occurrences_app, occurrences_notify_end_calls.
    rewrite occurrences_map_rollback by reflexivity.
    unfold notifies. lia.
Qed.

(** C3, instances: a prepared unit of work, committed and aborted; an
    unprepared one with the fail point off and on. *)
Lemma C3_notify_once_witness :
  (exists w', commitUnitOfWork env_quiet w_prepared = (Ok tt, w')
     /\ occurrences is_notify (trace w') = 1%nat)
  /\ (exists w', abortUnitOfWork env_quiet w_prepared = (Ok tt, w')
     /\ occurrences is_notify (trace w') = 1%nat)
  /\ (exists w', commitUnitOfWork env_quiet w_two_handlers = (Ok tt, w')
     /\ occurrences is_notify (trace w') = 0%nat)
  /\ (exists w', abortUnitOfWork env_failpoint w_two_handlers = (Ok tt, w')
     /\ occurrences is_notify (trace w') = 1%nat).
Proof.
  repeat split; eexists; (split; [vm_compute; reflexivity|]).
  - refine (eq_trans (C3_notify_once env_quiet w_prepared _ (or_introl _)) _);
      vm_compute; reflexivity.
  - refine (eq_trans (C3_notify_once env_quiet w_prepared _ (or_intror _)) _);
      vm_compute; reflexivity.
  - refine (eq_trans (C3_notify_once env_quiet w_two_handlers _ (or_introl _)) _);
      vm_compute; reflexivity.
  - refine (eq_trans (C3_notify_once env_failpoint w_two_handlers _ (or_intror _)) _);
      vm_compute; reflexivity.
Defined.

(** *** Journal flush *)

(** C4, as stated, fails in its second half: [_isTimestamped] is false when
    the close is called, and the flush is triggered all the same, because the
    commit applies [_commitTimestamp] and sets the flag on its way. *)
Lemma C4_counterexample :
  exists w',
    _txnClose env_quiet true w_commit_timestamp = (Ok tt, w')
    /\ _isTimestamped (ru w_commit_timestamp) = false
    /\ _orderedCommit (ru w_commit_timestamp) = false
    /\ occurrences is_flush (trace w_commit_timestamp) = 0%nat
    /\ occurrences is_flush (trace w') = 1%nat.
Proof. eexists. vm_compute. repeat split; reflexivity. Qed.

(** C4, amended.  A transaction close that returns has triggered the journal
    flush exactly once, after the engine's commit or rollback call, when
    [_orderedCommit] was false and the transaction is timestamped:
    [_isTimestamped] was true at the call, or the close is a commit with a
    [_commitTimestamp] that is not null.  Otherwise it has not triggered it. *)
Theorem C4_flush_once env commit w w' :
  _txnClose env commit w = (Ok tt, w') ->
  let timestamped :=
    _isTimestamped (ru w) || (commit && negb (isNull (_commitTimestamp (ru w)))) in
  exists before,
    trace w' = trace w ++ before
               ++ [if commit then EvCommitTransaction else EvRollbackTransaction]
               ++ (if timestamped && negb (_orderedCommit (ru w))
                   then [EvTriggerJournalFlush] else [])
               ++ [EvAllocSnapshotId (nextSnapshotId w)]
    /\ occurrences is_flush before = 0%nat
    /\ occurrences is_engine_end before = 0%nat
    /\ occurrences is_flush (trace w')
       = (occurrences is_flush (trace w)
          + (if timestamped && negb (_orderedCommit (ru w)) then 1 else 0))%nat.
Proof.
  intros H. apply _txnClose_Ok in H. destruct H as (_ & _ & _ & ->).
  exists (txnClose_before_end env commit (ru w)).
  unfold txnClose_calls, txnClose_flushes, txnClose_timestamps, txnClose_end,
    txnClose_before_end.
  repeat split;
    repeat (rewrite occurrences_app || case_match); simpl; try reflexivity; lia.
Qed.

Lemma C4_flush_once_witness :
  exists w',
    _txnClose env_quiet true w_commit_timestamp = (Ok tt, w')
    /\ exists before,
         trace w' = trace w_commit_timestamp ++ before
                    ++ [EvCommitTransaction] ++ [EvTriggerJournalFlush]
                    ++ [EvAllocSnapshotId (nextSnapshotId w_commit_timestamp)].
Proof.
  eassert (H : _txnClose env_quiet true w_commit_timestamp = (Ok tt, _))
    by (vm_compute; reflexivity).
  eexists. split; [exact H|].
  destruct (C4_flush_once env_quiet true w_commit_timestamp _ H) as (before & Htr & _).
  exists before. refine (eq_trans Htr _). vm_compute. reflexivity.
Defined.

(** *** The two commit-time fields *)

(** C5.  In every world a client's run reaches from construction without a
    fatal assertion, [_lastTimestampSet] and [_commitTimestamp] are not both
    set.  What keeps it so: [setTimestamp] asserts that [_commitTimestamp] is
    null, [setCommitTimestamp] asserts that [_lastTimestampSet] is empty, and
    a transaction close empties [_lastTimestampSet]. *)
Theorem C5_timestamps_exclusive n ops w :
  run ops (constructed n) = Some w ->
  ~ (is_Some (_lastTimestampSet (ru w)) /\ isNull (_commitTimestamp (ru w)) = false)
  /\ (forall env ts, isNull (_commitTimestamp (ru w)) = false ->
        fst (setTimestamp env ts w) = Fatal InvariantFailure)
  /\ (forall ts, is_Some (_lastTimestampSet (ru w)) ->
        fst (setCommitTimestamp ts w) = Fatal InvariantFailure)
  /\ (forall env commit w', _txnClose env commit w = (Ok tt, w') ->
        _lastTimestampSet (ru w') = None).
Proof.
  intros Hrun.
  pose proof (run_wf _ _ _ (constructed_wf n) Hrun) as (Hex & _).
  unfold timestamps_exclusive in Hex.
  repeat split.
  - intros [Hl Hc]. rewrite (Hex Hl) in Hc. discriminate.
  - intros env ts Hc. clear Hex Hrun. destruct w as [r c tr]. destruct r.
    simpl in Hc. destruct _state0, _session0;
      mops; simpl in *; rewrite ?Hc; simpl; mcases; reflexivity.
  - intros ts Hl. clear Hex Hrun. destruct w as [r c tr]. destruct r.
    simpl in Hl. destruct Hl as [t ->]. destruct _state0;
      mops; simpl in *; mcases; reflexivity.
  - intros env commit w' H. apply _txnClose_Ok in H. destruct H as (_ & -> & _).
    reflexivity.
Qed.

(** C5, an instance: after [setTimestamp(7)] in a unit of work the commit
    timestamp is null and [setCommitTimestamp] is a fatal assertion. *)
Lemma C5_timestamps_exclusive_witness :
  _lastTimestampSet (ru w_two_handlers) = Some 7
  /\ ~ (is_Some (_lastTimestampSet (ru w_two_handlers))
        /\ isNull (_commitTimestamp (ru w_two_handlers)) = false)
  /\ fst (setCommitTimestamp 9 w_two_handlers) = Fatal InvariantFailure.
Proof.
  assert (Hrun : run ((env_quiet, OpBeginUnitOfWork) :: two_handlers) (constructed 1)
                 = Some w_two_handlers) by (vm_compute; reflexivity).
  destruct (C5_timestamps_exclusive 1 _ _ Hrun) as (Hnot & _ & Hset & _).
  split; [reflexivity|]. split; [exact Hnot|].
  apply Hset. exists 7. reflexivity.
Defined.

(** *** [prepareUnitOfWork] *)

#[local] Instance extends_refl : Reflexive extends.
Proof. intros w. exists []. symmetry. apply app_nil_r. Qed.
#[local] Instance extends_trans : Transitive extends.
Proof.
  intros a b c [l1 H1] [l2 H2]. exists (l1 ++ l2).
  rewrite H2, H1, app_assoc. reflexivity.
Qed.

Lemma emit_ok_extends e : emit_ok extends e.
Proof. intros [r c tr]. exists [e]. reflexivity. Qed.

Lemma modify_ok_extends f : modify_ok extends f.
Proof. intros [r c tr]. exists []. simpl. symmetry. apply app_nil_r. Qed.

Lemma getSession_extends env : preserves extends (getSession env).
Proof.
  preserves_tac; first [apply emit_ok_extends | apply modify_ok_extends].
Qed.

(** C6, as stated, fails: called in [InactiveInUnitOfWork] (a unit of work in
    which no transaction has been opened yet), [prepareUnitOfWork] opens the
    transaction through [getSession] and leaves the state [Active]. *)
Lemma C6_counterexample :
  exists w',
    prepareUnitOfWork env_quiet w_before_prepare = (Ok tt, w')
    /\ isNull (_prepareTimestamp (ru w_before_prepare)) = false
    /\ _state (ru w_before_prepare) = kInactiveInUnitOfWork
    /\ _state (ru w') = kActive
    /\ _state (ru w') <> _state (ru w_before_prepare).
Proof. eexists. vm_compute. repeat split; try reflexivity. discriminate. Qed.

(** C6, amended.  A [prepareUnitOfWork] that returns was called in a unit of
    work with a prepare timestamp; it has applied
    [prepare_timestamp=<hex>] to the transaction, after opening it if none
    was open; the state is [Active] afterwards (so the unit of work is still
    open), only what opening a transaction may change has changed, and when
    the state was [Active] already the recovery unit is as it was. *)
Theorem C6_prepare_keeps_unit_of_work_open env w w' :
  prepareUnitOfWork env w = (Ok tt, w') ->
  let conf := ("prepare_timestamp=" ++ integerToHex (asULL (_prepareTimestamp (ru w))))%string in
  _inUnitOfWork (ru w) = true
  /\ isNull (_prepareTimestamp (ru w)) = false
  /\ _state (ru w') = kActive
  /\ txnOpen_frame (ru w) (ru w')
  /\ (exists opening, trace w' = trace w ++ opening ++ [EvPrepareTransaction conf])
  /\ (_state (ru w) = kActive ->
      ru w' = ru w /\ nextSnapshotId w' = nextSnapshotId w
      /\ trace w' = trace w ++ [EvPrepareTransaction conf]).
Proof.
  intros H conf. subst conf.
  destruct w as [r c tr]. destruct r.
  destruct _state0; mops; simpl in *; mcases;
    match goal with
    | H : getSession ?e ?w0 = (_, _) |- _ =>
        pose proof (getSession_extends e w0) as [opening Hext];
        rewrite H in Hext; simpl in Hext;
        apply getSession_spec in H; simpl in H;
        destruct H as (Hfr & Hn & _ & _ & Hact & Huow & Hsame & _)
    end.
  all: assert (Hst : _state ru0 = kActive)
    by (clear - Hact Huow; destruct ru0 as [st0]; simpl in *;
        destruct st0; simpl in *; first [reflexivity | discriminate]).
  all: repeat split; try assumption; try (apply negb_true_iff; assumption);
    try (eexists; rewrite Hext, <- app_assoc; reflexivity);
    try discriminate.
  all: specialize (Hsame eq_refl); injection Hsame as Hr Hc Ht; subst;
    reflexivity.
Qed.

Lemma C6_prepare_keeps_unit_of_work_open_witness :
  exists w',
    prepareUnitOfWork env_quiet w_before_prepare = (Ok tt, w')
    /\ _state (ru w') = kActive
    /\ exists opening,
         trace w' = trace w_before_prepare ++ opening
                    ++ [EvPrepareTransaction "prepare_timestamp=0000000000000005"].
Proof.
  eassert (H : prepareUnitOfWork env_quiet w_before_prepare = (Ok tt, _))
    by (vm_compute; reflexivity).
  eexists. split; [exact H|].
  destruct (C6_prepare_keeps_unit_of_work_open env_quiet w_before_prepare _ H)
    as (_ & _ & Hst & _ & (opening & Htr) & _).
  split; [exact Hst|]. exists opening.
  refine (eq_trans Htr _). reflexivity.
Defined.

(** *** Opening a transaction at a provided timestamp *)

(** C7.  After [setTimestampReadSource(kProvided, ts)] on a recovery unit with
    no open transaction, [getSession] begins an engine transaction and asks
    the engine to set the read timestamp [ts].  If the engine accepts,
    [getSession] returns with the transaction open.  If it answers
    [BadValue], the transaction is rolled back and the caller gets
    [SnapshotTooOld]; any other failure is rolled back and thrown as it is. *)
Theorem C7_provided_read_timestamp env ts w0 w :
  setTimestampReadSource kProvided (Some ts) w0 = (Ok tt, w) ->
  _isActive (ru w0) = false ->
  _isCommittingOrAborting (ru w0) = false ->
  let status := beginTxnBlock_setTimestamp env ts kNoRound in
  exists before o w',
    getSession env w = (o, w')
    /\ trace w' = trace w ++ before
                  ++ [EvBeginTransaction (_ignorePrepared (ru w));
                      EvBlockSetTimestamp ts kNoRound]
                  ++ (if isOK status then [] else [EvRollbackTransaction])
    /\ occurrences is_engine_end before = 0%nat
    /\ match o with
       | Ok _ => isOK status = true /\ _isActive (ru w') = true
       | Thrown e =>
           isOK status = false
           /\ (if ErrorCode_eqb (code status) BadValue
               then code e = SnapshotTooOld
               else e = status)
       | Fatal _ => False
       end.
Proof.
  intros Hset Hact Hca status. subst status.
  destruct w0 as [r c tr].
  assert (Hw : w = mkWorld (set_readAtTimestamp ts (set_timestampReadSource kProvided r))
                     c tr).
  { destruct r. destruct _state0; mops; simpl in *; mcases; reflexivity. }
  subst w. clear Hset. destruct r. simpl in Hact, Hca.
  destruct _state0; try discriminate;
    (destruct _session0 as [s|];
     [exists [] | exists [EvCacheGetSession (sessionCache_getSession env)]]);
    munfold; simpl;
    destruct (shouldLog_kSlowTransactionSeverity env); simpl;
    destruct (beginTxnBlock_setTimestamp env ts kNoRound) as [cd rs];
    unfold isOK; destruct cd; simpl;
    do 2 eexists; (split; [reflexivity|]); simpl;
    rewrite <- ?app_assoc; simpl; repeat split; reflexivity.
Qed.

(** C7, instances: the engine answers [BadValue], and the caller gets
    [SnapshotTooOld]; the engine answers another error, and the caller gets
    that one. *)
Lemma C7_provided_read_timestamp_witness :
  (exists st w', getSession env_read_too_old w_provided = (Thrown st, w')
                 /\ code st = SnapshotTooOld)
  /\ (exists w', getSession env_read_failed w_provided
                 = (Thrown (mkStatus (OtherError 8) "timestamp_transaction"), w')).
Proof.
  assert (Hset : setTimestampReadSource kProvided (Some 1) (constructed 1)
                 = (Ok tt, w_provided)) by (vm_compute; reflexivity).
  split.
  - destruct (C7_provided_read_timestamp env_read_too_old 1 _ _ Hset eq_refl eq_refl)
      as (before & o & w' & Hget & _ & _ & Ho).
    destruct o as [s|st|k]; [destruct Ho as [Ho _]; discriminate Ho | | destruct Ho].
    exists st, w'. split; [exact Hget | exact (proj2 Ho)].
  - destruct (C7_provided_read_timestamp env_read_failed 1 _ _ Hset eq_refl eq_refl)
      as (before & o & w' & Hget & _ & _ & Ho).
    destruct o as [s|st|k]; [destruct Ho as [Ho _]; discriminate Ho | | destruct Ho].
    exists w'. rewrite Hget. f_equal. f_equal. exact (proj2 Ho).
Defined.

(** *** [setTimestamp] *)

(** C9.  [setTimestamp(ts)] in a unit of work with prepare and commit
    timestamps null.  When it returns, it returns the status made from the
    engine's return code, whatever the code; [_lastTimestampSet] is [ts]
    afterwards, also when the engine refused; [_isTimestamped] has become
    true when the return code is 0 and is as it was otherwise.  With the
    transaction already open it does return; otherwise opening the
    transaction may throw or assert first, and [_lastTimestampSet] is [ts]
    all the same. *)
Theorem C9_setTimestamp_rejected env ts w :
  _inUnitOfWork (ru w) = true ->
  isNull (_prepareTimestamp (ru w)) = true ->
  isNull (_commitTimestamp (ru w)) = true ->
  let rc := wt_timestamp_transaction env
              ("commit_timestamp=" ++ integerToHex (asULL ts))%string in
  match setTimestamp env ts w with
  | (Ok st, w') =>
      st = wtRCToStatus env rc "timestamp_transaction"
      /\ _lastTimestampSet (ru w') = Some ts
      /\ _isTimestamped (ru w') = (if Z.eqb rc 0 then true else _isTimestamped (ru w))
  | (Thrown _, w') =>
      _isActive (ru w) = false
      /\ _lastTimestampSet (ru w') = Some ts
      /\ _isTimestamped (ru w') = _isTimestamped (ru w)
  | (Fatal _, _) => _isActive (ru w) = false
  end.
Proof.
  intros Huow Hp Hc rc. subst rc.
  destruct w as [r c tr]. destruct r. simpl in Huow, Hp, Hc.
  destruct _state0; try discriminate Huow;
    destruct _session0; mops; simpl in *; rewrite ?Hp, ?Hc; simpl;
    try match goal with
      | |- context [getSession ?e ?w0] =>
          destruct (getSession e w0) as [[s1|e1|k1] [r1 c1 tr1]] eqn:E;
          apply getSession_spec in E; simpl in E;
          destruct E as (Hfr & _ & _ & Ho);
          unfold txnOpen_frame in Hfr; destruct r1; simpl in *;
          injection Hfr as Hfr; subst; simpl
      end;
    try reflexivity;
    repeat case_match; simpl in *; simplify_eq; repeat split; reflexivity.
Qed.

(** C9, an instance: the engine refuses timestamp 7 with return code 22. *)
Lemma C9_setTimestamp_rejected_witness :
  exists w',
    setTimestamp env_timestamp_rejected 7 w_in_unit_of_work
    = (Ok (mkStatus BadValue "timestamp_transaction"), w')
    /\ _lastTimestampSet (ru w') = Some 7
    /\ _isTimestamped (ru w') = false.
Proof.
  pose proof (C9_setTimestamp_rejected env_timestamp_rejected 7 w_in_unit_of_work
                eq_refl eq_refl eq_refl) as H.
  cbv zeta in H.
  eassert (E : setTimestamp env_timestamp_rejected 7 w_in_unit_of_work = (Ok _, _))
    by (vm_compute; reflexivity).
  rewrite E in H. destruct H as (_ & Hl & Ht).
  eexists. split; [exact E|]. split; [exact Hl | exact Ht].
Defined.

(** *** Destruction *)

Lemma occurrences_end_calls_rollback env w :
  occurrences is_engine_commit (end_calls env false w) = 0%nat
  /\ occurrences is_engine_rollback (end_calls env false w)
     = (if closes (ru w) then 1%nat else 0%nat).
Proof.
  unfold end_calls, txnClose_calls, txnClose_before_end, txnClose_end.
  split; repeat (rewrite occurrences_app || case_match); reflexivity.
Qed.

(** C10.  For a recovery unit a client's run has reached from construction:
    in a unit of work, destroying it is a fatal assertion; outside, the
    destructor is [_abort], the change list is empty, and a destructor that
    returns has called no handler, has not committed, and has rolled back
    once if a transaction was open and not at all otherwise. *)
Theorem C10_destructor n ops env w :
  run ops (constructed n) = Some w ->
  (_inUnitOfWork (ru w) = true ->
     WiredTigerRecoveryUnit_dtor env w = (Fatal InvariantFailure, w))
  /\ (_inUnitOfWork (ru w) = false ->
        WiredTigerRecoveryUnit_dtor env w = _abort env w
        /\ _changes (ru w) = []
        /\ forall w', WiredTigerRecoveryUnit_dtor env w = (Ok tt, w') ->
             only is_handler_call (trace w') = only is_handler_call (trace w)
             /\ occurrences is_engine_commit (trace w')
                = occurrences is_engine_commit (trace w)
             /\ occurrences is_engine_rollback (trace w')
                = (occurrences is_engine_rollback (trace w)
                   + (if _isActive (ru w) then 1 else 0))%nat).
Proof.
  intros Hrun.
  pose proof (run_wf _ _ _ (constructed_wf n) Hrun) as (_ & Hempty & Hses & _).
  unfold WiredTigerRecoveryUnit_dtor. cbv [bind getRU invariant ret fatal].
  split; intros Huow; rewrite Huow; simpl; [reflexivity|].
  split; [reflexivity|]. split; [exact (Hempty Huow)|].
  intros w' H. apply _abort_Ok in H. destruct H as [-> _].
  rewrite (Hempty Huow). simpl. rewrite app_nil_r.
  destruct (occurrences_end_calls_rollback env w) as [Hc Hr].
  rewrite only_app, !occurrences_app, only_handler_end_calls, Hc, Hr, app_nil_r.
  assert (Hcl : closes (ru w) = _isActive (ru w)).
  { unfold closes. unfold session_when_active in Hses.
    destruct (_isActive (ru w)); [|apply andb_false_r].
    destruct (Hses eq_refl) as [s ->]. reflexivity. }
  rewrite Hcl. repeat split; lia.
Qed.

(** C10, instances: a read transaction is open, and the destructor rolls it
    back once; a unit of work is open, and the destructor is fatal. *)
Lemma C10_destructor_witness :
  (exists w', WiredTigerRecoveryUnit_dtor env_quiet w_reading = (Ok tt, w')
     /\ occurrences is_engine_rollback (trace w') = 1%nat
     /\ occurrences is_engine_commit (trace w') = 0%nat)
  /\ WiredTigerRecoveryUnit_dtor env_quiet w_in_unit_of_work
     = (Fatal InvariantFailure, w_in_unit_of_work).
Proof.
  split.
  - assert (Hrun : run (quietly [OpPreallocateSnapshot]) (constructed 1) = Some w_reading)
      by (vm_compute; reflexivity).
    destruct (C10_destructor 1 _ env_quiet _ Hrun) as [_ Hout].
    destruct (Hout eq_refl) as (_ & _ & Hw).
    eassert (H : WiredTigerRecoveryUnit_dtor env_quiet w_reading = (Ok tt, _))
      by (vm_compute; reflexivity).
    eexists. split; [exact H|].
    destruct (Hw _ H) as (_ & Hc & Hr).
    split; [refine (eq_trans Hr _) | refine (eq_trans Hc _)]; reflexivity.
  - assert (Hrun : run (quietly [OpBeginUnitOfWork; OpGetSession]) (constructed 1)
                   = Some w_in_unit_of_work) by (vm_compute; reflexivity).
    destruct (C10_destructor 1 _ env_quiet _ Hrun) as [Hin _].
    apply Hin. reflexivity.
Defined.

(** *** Snapshot ids *)

Lemma allocated_app a b : allocated (a ++ b) = allocated a ++ allocated b.
Proof.
  induction a as [|e a IH]; [reflexivity|].
  destruct e; simpl; rewrite IH; reflexivity.
Qed.

Lemma seq_from s k : seq s k = map (Nat.add s) (seq 0 k).
Proof.
  revert s. induction k as [|k IH]; intros s; simpl; [reflexivity|].
  rewrite Nat.add_0_r. f_equal.
  rewrite (IH (S s)), (IH 1%nat), List.map_map. apply List.map_ext.
  intros i. simpl. lia.
Qed.

Lemma consecutive_app c k1 k2 :
  consecutive c (k1 + k2)
  = consecutive c k1 ++ consecutive ((c + N.of_nat k1) mod 2 ^ 64) k2.
Proof.
  unfold consecutive. rewrite seq_app, map_app. f_equal. simpl.
  rewrite (seq_from k1 k2), List.map_map. apply List.map_ext. intros i.
  rewrite N.Div0.add_mod_idemp_l. f_equal. lia.
Qed.

#[local] Instance allocates_refl : Reflexive allocates.
Proof.
  intros w Hlt. split; [exact Hlt|]. exists 0%nat. simpl.
  rewrite app_nil_r, N.add_0_r, N.mod_small by exact Hlt. auto.
Qed.

#[local] Instance allocates_trans : Transitive allocates.
Proof.
  intros a b c H1 H2 Hlt.
  destruct (H1 Hlt) as (Hb & k1 & Ht1 & Hn1).
  destruct (H2 Hb) as (Hc & k2 & Ht2 & Hn2).
  split; [exact Hc|]. exists (k1 + k2)%nat.
  rewrite Ht2, Ht1, Hn2, Hn1, consecutive_app, <- app_assoc.
  split; [reflexivity|].
  rewrite N.Div0.add_mod_idemp_l. f_equal. lia.
Qed.

Lemma emit_ok_allocates e : allocated [e] = [] -> emit_ok allocates e.
Proof.
  intros He [r c tr] Hlt. simpl in Hlt |- *. split; [exact Hlt|]. exists 0%nat. simpl.
  rewrite allocated_app, He, N.add_0_r, N.mod_small by exact Hlt. auto.
Qed.

Lemma modify_ok_allocates f : modify_ok allocates f.
Proof.
  intros [r c tr] Hlt. simpl in *. split; [exact Hlt|]. exists 0%nat. simpl.
  rewrite app_nil_r, N.add_0_r, N.mod_small by exact Hlt. auto.
Qed.

Lemma alloc_ok_allocates : alloc_ok allocates.
Proof.
  intros [r c tr] Hlt. simpl in *. split; [apply N.mod_lt; discriminate|].
  exists 1%nat. simpl. rewrite allocated_app. unfold consecutive. simpl.
  rewrite N.add_0_r, N.mod_small by exact Hlt. auto.
Qed.

Lemma ctor_allocates : preserves allocates WiredTigerRecoveryUnit_ctor.
Proof.
  preserves_tac;
    first [apply alloc_ok_allocates | apply modify_ok_allocates
          | apply emit_ok_allocates; reflexivity].
Qed.

Lemma dtor_allocates env : preserves allocates (WiredTigerRecoveryUnit_dtor env).
Proof.
  preserves_tac;
    first [apply alloc_ok_allocates | apply modify_ok_allocates
          | apply emit_ok_allocates; reflexivity].
Qed.

Lemma exec_allocates env op : preserves allocates (exec env op).
Proof.
  destruct op; simpl; preserves_tac;
    first [apply alloc_ok_allocates | apply modify_ok_allocates
          | apply emit_ok_allocates; reflexivity].
Qed.

Lemma pstep_allocates st p p' :
  pstep st p = Some p' ->
  counter p < 2 ^ 64 ->
  counter p' < 2 ^ 64
  /\ exists k : nat,
       allocated (calls p') = allocated (calls p) ++ consecutive (counter p) k
       /\ counter p' = (counter p + N.of_nat k) mod 2 ^ 64.
Proof.
  intros H Hlt. destruct st as [i|i env op|i env]; simpl in H;
    destruct (units p !! i) as [r|]; try discriminate.
  - injection H as <-. simpl.
    exact (ctor_allocates (mkWorld (RecoveryUnit_init 0) (counter p) (calls p)) Hlt).
  - pose proof (exec_allocates env op (mkWorld r (counter p) (calls p)) Hlt) as Ha.
    destruct (exec env op _) as [[u|s|k] w]; try discriminate;
      injection H as <-; exact Ha.
  - pose proof (dtor_allocates env (mkWorld r (counter p) (calls p)) Hlt) as Ha.
    destruct (WiredTigerRecoveryUnit_dtor env _) as [[u|s|k] w]; try discriminate;
      injection H as <-; exact Ha.
Qed.

Lemma prun_allocates steps : forall p p',
  prun steps p = Some p' ->
  counter p < 2 ^ 64 ->
  counter p' < 2 ^ 64
  /\ exists k : nat,
       allocated (calls p') = allocated (calls p) ++ consecutive (counter p) k
       /\ counter p' = (counter p + N.of_nat k) mod 2 ^ 64.
Proof.
  induction steps as [|st steps IH]; intros p p' H Hlt; simpl in H.
  - injection H as <-. split; [exact Hlt|]. exists 0%nat. simpl.
    rewrite app_nil_r, N.add_0_r, N.mod_small by exact Hlt. auto.
  - destruct (pstep st p) as [p1|] eqn:E; [|discriminate].
    destruct (pstep_allocates _ _ _ E Hlt) as (Hlt1 & k1 & Ht1 & Hn1).
    destruct (IH _ _ H Hlt1) as (Hlt2 & k2 & Ht2 & Hn2).
    split; [exact Hlt2|]. exists (k1 + k2)%nat.
    rewrite Ht2, Ht1, Hn2, Hn1, consecutive_app, <- app_assoc.
    split; [reflexivity|].
    rewrite N.Div0.add_mod_idemp_l. f_equal. lia.
Qed.

Lemma consecutive_lookup c k i x :
  consecutive c k !! i = Some x -> x = (c + N.of_nat i) mod 2 ^ 64 /\ (i < k)%nat.
Proof.
  unfold consecutive. intros H.
  change (map ?f ?l) with (f <$> l) in H.
  rewrite list_lookup_fmap in H.
  destruct (seq 0 k !! i) as [j|] eqn:E; [|discriminate].
  apply lookup_seq in E. destruct E as [-> Hi]. simpl in H.
  injection H as <-. auto.
Qed.

Lemma consecutive_length c k : length (consecutive c k) = k.
Proof. unfold consecutive. rewrite length_map, length_seq. reflexivity. Qed.

(** C8, amended.  In a process whose recovery units are constructed, used
    and destroyed in any order, the ids handed out by the counter (at each
    construction and after each transaction close) are strictly increasing,
    so none is handed out twice, as long as fewer than 2^64 of them have been
    handed out. *)
Theorem C8_snapshot_ids_increase p i j a b :
  reachable p ->
  N.of_nat (length (allocated (calls p))) < 2 ^ 64 ->
  (i < j)%nat ->
  allocated (calls p) !! i = Some a ->
  allocated (calls p) !! j = Some b ->
  a < b.
Proof.
  intros [steps Hrun] Hlen Hij Ha Hb.
  destruct (prun_allocates steps _ _ Hrun) as (_ & k & Hal & _);
    [reflexivity|].
  simpl in Hal. rewrite Hal in Ha, Hb, Hlen.
  rewrite consecutive_length in Hlen.
  apply consecutive_lookup in Ha, Hb.
  destruct Ha as [-> Hi], Hb as [-> Hj].
  unfold nextSnapshotId_init.
  rewrite !N.mod_small by lia. lia.
Qed.

Lemma C8_snapshot_ids_increase_witness :
  exists p,
    prun [PConstruct 0; PConstruct 1;
          PCall 0 env_quiet OpPreallocateSnapshot;
          PCall 0 env_quiet OpAbandonSnapshot] Process_init = Some p
    /\ allocated (calls p) = [1; 2; 3]
    /\ 1 < 3.
Proof.
  eassert (Hrun : prun [PConstruct 0; PConstruct 1;
                        PCall 0 env_quiet OpPreallocateSnapshot;
                        PCall 0 env_quiet OpAbandonSnapshot] Process_init = Some _)
    by (vm_compute; reflexivity).
  eexists. split; [exact Hrun|]. split; [vm_compute; reflexivity|].
  refine (C8_snapshot_ids_increase _ 0 2 1 3 (ex_intro _ _ Hrun) _ _ _ _);
    vm_compute; first [reflexivity | lia].
Defined.

Lemma prun_app steps1 : forall steps2 p p1 p2,
  prun steps1 p = Some p1 -> prun steps2 p1 = Some p2 ->
  prun (steps1 ++ steps2) p = Some p2.
Proof.
  induction steps1 as [|st steps1 IH]; intros steps2 p p1 p2 H1 H2; simpl in *.
  - injection H1 as <-. exact H2.
  - destruct (pstep st p) as [p'|]; [|discriminate]. eapply IH; eassumption.
Qed.

Lemma round_spec p :
  units p !! 0%nat = None -> prun round p = Some (round_result p).
Proof.
  intros Hfree. destruct p as [us c tr]. simpl in Hfree.
  unfold round, round_result, prun, pstep. simpl units. rewrite Hfree.
  munfold. simpl. rewrite lookup_insert_eq. simpl.
  rewrite delete_insert_id by exact Hfree. reflexivity.
Qed.

Lemma churn_succ k : churn (N.succ k) = round_result (churn k).
Proof. unfold churn. apply N.iter_succ. Qed.

Lemma churn_spec k :
  reachable (churn k)
  /\ units (churn k) = ∅
  /\ counter (churn k) = (1 + k) mod 2 ^ 64.
Proof.
  induction k as [|k IH] using N.peano_ind.
  - split; [exists []; reflexivity|]. split; reflexivity.
  - destruct IH as ([steps Hsteps] & Hunits & Hc). rewrite churn_succ.
    split; [|split].
    + exists (steps ++ round). eapply prun_app; [exact Hsteps|].
      apply round_spec. rewrite Hunits. apply lookup_empty.
    + exact Hunits.
    + simpl. rewrite Hc, N.Div0.add_mod_idemp_l. f_equal. lia.
Qed.

Lemma allocated_round_result p :
  allocated (calls (round_result p)) = allocated (calls p) ++ [counter p].
Proof. unfold round_result. simpl. apply allocated_app. Qed.

(** C8, as stated, fails at the wrap of the 64-bit counter: the process that
    has constructed and destroyed a recovery unit 2^64 times over has handed
    out 2^64 - 1 and then 0 as its last two ids. *)
Lemma C8_counterexample :
  reachable (churn (2 ^ 64))
  /\ allocated (calls (churn (2 ^ 64)))
     = allocated (calls (churn (2 ^ 64 - 2))) ++ [2 ^ 64 - 1; 0]
  /\ exists i j a b,
       (i < j)%nat
       /\ allocated (calls (churn (2 ^ 64))) !! i = Some a
       /\ allocated (calls (churn (2 ^ 64))) !! j = Some b
       /\ b < a.
Proof.
  set (k := 2 ^ 64 - 2).
  change (2 ^ 64) with (N.succ (N.succ k)).
  destruct (churn_spec (N.succ (N.succ k))) as (Hreach & _ & _).
  destruct (churn_spec k) as (_ & _ & Hc).
  destruct (churn_spec (N.succ k)) as (_ & _ & Hc1).
  assert (Hk : counter (churn k) = N.succ (N.succ k) - 1) by (rewrite Hc; reflexivity).
  assert (Hk1 : counter (churn (N.succ k)) = 0) by (rewrite Hc1; reflexivity).
  assert (Hal : allocated (calls (churn (N.succ (N.succ k))))
                = allocated (calls (churn k)) ++ [N.succ (N.succ k) - 1; 0]).
  { rewrite (churn_succ (N.succ k)), allocated_round_result, Hk1.
    rewrite (churn_succ k), allocated_round_result, Hk, <- app_assoc. reflexivity. }
  split; [exact Hreach|]. split; [exact Hal|].
  exists (length (allocated (calls (churn k)))),
    (S (length (allocated (calls (churn k))))), (N.succ (N.succ k) - 1), 0.
  rewrite Hal. split; [apply Nat.lt_succ_diag_r|].
  split; [apply list_lookup_middle; reflexivity|].
  split; [|reflexivity].
  rewrite lookup_app_r by apply Nat.le_succ_diag_r.
  rewrite Nat.sub_succ_l, Nat.sub_diag by apply Nat.le_refl. reflexivity.
Qed.

(** ** Further properties *)

(** *** What [getSession] calls *)

Ltac count_events :=
  rewrite ?occurrences_app; unfold occurrences, only; simpl; try lia.

Lemma getSession_counts env w o w' :
  getSession env w = (o, w') ->
  (forall k, o <> Fatal k) ->
  occurrences is_cache_get (trace w')
  = (occurrences is_cache_get (trace w)
     + (if _isActive (ru w) then 0
        else if bool_decide (is_Some (_session (ru w))) then 0 else 1))%nat
  /\ occurrences is_begin (trace w')
     = (occurrences is_begin (trace w) + (if _isActive (ru w) then 0 else 1))%nat
  /\ occurrences is_engine_end (trace w')
     = (occurrences is_engine_end (trace w)
        + (match o with Thrown _ => 1 | _ => 0 end))%nat
  /\ allocated (trace w') = allocated (trace w)
  /\ (_isActive (ru w) = false -> is_Some (_session (ru w'))).
Proof.
  destruct w as [r c tr].
  destruct r as [st ses sid chs cts lts pts rat mcs src ip oplog ord tsd tmr].
  intros H Hnf.
  destruct o as [s|e|k]; [ | | exfalso; eapply Hnf; reflexivity].
  all: destruct st, src, ses;
    munfold; simpl in *; mcases; simpl;
    rewrite ?allocated_app; simpl; rewrite ?app_nil_r;
    repeat split; try (intros; discriminate); try (by eauto); count_events.
Qed.

(** *** What a close calls *)

Lemma txnClose_calls_counts env commit r c :
  occurrences is_begin (txnClose_calls env commit r c) = 0%nat
  /\ occurrences is_cache_get (txnClose_calls env commit r c) = 0%nat
  /\ occurrences is_engine_end (txnClose_calls env commit r c) = 1%nat
  /\ occurrences is_engine_commit (txnClose_calls env commit r c)
     = (if commit then 1 else 0)%nat
  /\ occurrences is_engine_rollback (txnClose_calls env commit r c)
     = (if commit then 0 else 1)%nat
  /\ allocated (txnClose_calls env commit r c) = [c].
Proof.
  unfold txnClose_calls, txnClose_before_end, txnClose_end.
  repeat split; rewrite ?allocated_app;
    repeat (rewrite occurrences_app || case_match); reflexivity.
Qed.

Lemma end_calls_counts env commit w :
  occurrences is_begin (end_calls env commit w) = 0%nat
  /\ occurrences is_cache_get (end_calls env commit w) = 0%nat
  /\ occurrences is_engine_end (end_calls env commit w)
     = (if closes (ru w) then 1 else 0)%nat
  /\ occurrences is_engine_commit (end_calls env commit w)
     = (if closes (ru w) && commit then 1 else 0)%nat
  /\ occurrences is_engine_rollback (end_calls env commit w)
     = (if closes (ru w) && negb commit then 1 else 0)%nat
  /\ allocated (end_calls env commit w)
     = (if closes (ru w) then [nextSnapshotId w] else []).
Proof.
  unfold end_calls.
  destruct (txnClose_calls_counts env commit (ru w) (nextSnapshotId w))
    as (Hb & Hg & He & Hc & Hr & Ha).
  rewrite !occurrences_app, allocated_app.
  destruct (closes (ru w)); rewrite ?Hb, ?Hg, ?He, ?Hc, ?Hr, ?Ha;
    destruct (notifies env (ru w)), commit; repeat split; reflexivity.
Qed.

Lemma allocated_commit_calls t cs : allocated (commit_calls t cs) = [].
Proof. induction cs as [|c cs IH]; [reflexivity | exact IH]. Qed.

Lemma allocated_map_rollback cs : allocated (map EvChangeRollback cs) = [].
Proof. induction cs as [|c cs IH]; [reflexivity | exact IH]. Qed.

Lemma closes_active r : session_when_active r -> closes r = _isActive r.
Proof.
  unfold closes, session_when_active. intros Hses.
  destruct (_isActive r); [|apply andb_false_r].
  destruct (Hses eq_refl) as [s ->]. reflexivity.
Qed.

(** The end of a unit of work, and [abandonSnapshot], keep the trace
    consistent. *)
Lemma end_trace_consistent env commit w w' handlers :
  session_when_active (ru w) ->
  trace_consistent w ->
  trace w' = trace w ++ end_calls env commit w ++ handlers ->
  occurrences is_begin handlers = 0%nat ->
  occurrences is_cache_get handlers = 0%nat ->
  occurrences is_engine_end handlers = 0%nat ->
  allocated handlers = [] ->
  ru w' = end_result w ->
  trace_consistent w'.
Proof.
  intros Hses (Hbal & Hone & earlier & Hid) Htr Hb Hg He Ha Hru.
  destruct (end_calls_counts env commit w) as (Eb & Eg & Ee & _ & _ & Ea).
  unfold trace_consistent, balanced, session_acquired_once, snapshotId_is_latest in *.
  rewrite Htr, Hru, !occurrences_app, !allocated_app, Eb, Eg, Ee, Ea, Hb, Hg, He, Ha.
  unfold end_result. rewrite (closes_active _ Hses) in *.
  destruct (_isActive (ru w)) eqn:Hact; simpl.
  - repeat split; [lia | rewrite Hone; lia |].
    exists (allocated (trace w)). simpl. rewrite ?app_nil_r. reflexivity.
  - repeat split; [lia | rewrite Hone; lia |].
    exists earlier. rewrite ?app_nil_r. exact Hid.
Qed.

Ltac use_calls_counts :=
  repeat match goal with
    | u : unit |- _ => destruct u
    | H : getSession ?e ?w0 = (?o, ?w1) |- _ =>
        let Hc := fresh "Hcount" in
        assert (Hc := getSession_counts e w0 o w1 H ltac:(intros ?; discriminate));
        apply getSession_spec in H; simpl in H, Hc
    | H : _txnClose ?e ?c ?w0 = (Ok _, _) |- _ =>
        let Hc := fresh "Hcount" in
        pose proof (txnClose_calls_counts e c (ru w0) (nextSnapshotId w0)) as Hc;
        apply _txnClose_Ok in H; simpl in H, Hc
    | H : _txnClose _ _ _ = (Thrown _, _) |- _ => apply _txnClose_not_Thrown in H; destruct H
    | H : _commit _ _ = (Thrown _, _) |- _ => apply _commit_not_Thrown in H; destruct H
    | H : _abort _ _ = (Thrown _, _) |- _ => apply _abort_not_Thrown in H; destruct H
    end.

Ltac trace_finish :=
  repeat match goal with
    | w : World |- _ => destruct w; simpl in *
    end;
  repeat match goal with
    | H : _ /\ _ |- _ => destruct H
    | H : txnOpen_frame _ ?r |- _ =>
        unfold txnOpen_frame in H; destruct r; simpl in *; injection H as H; subst
    end;
  unfold trace_consistent, balanced, session_acquired_once, snapshotId_is_latest,
    wf, timestamps_exclusive, changes_only_in_unit_of_work, session_when_active,
    between_operations, txnClose_result, _isActive, _inUnitOfWork,
    _isCommittingOrAborting in *;
  simpl in *; subst; simpl in *;
  repeat match goal with
    | H : _ /\ _ |- _ => destruct H
    | H : exists _, _ |- _ => destruct H
    | s : State |- _ => destruct s; simpl in *; try discriminate
    | H : ?a = ?a -> _ |- _ => specialize (H eq_refl)
    | H : context [bool_decide (is_Some ?x)] |- _ => is_var x; destruct x; simpl in *
    | |- context [bool_decide (is_Some ?x)] => is_var x; destruct x; simpl in *
    end;
  simplify_eq;
  rewrite ?occurrences_app, ?allocated_app in *; simpl in *;
  repeat match goal with
    | H : allocated _ = _ |- _ => rewrite H; clear H
    end;
  rewrite ?app_nil_r in *;
  repeat split;
  try match goal with
    | H : is_Some None |- _ => destruct H; discriminate
    | |- exists _, _ => first [eexists; reflexivity | eexists; eassumption]
    | |- _ = _ => unfold occurrences, only in *; simpl in *; lia
    end.

Lemma exec_trace_consistent env op w o w' :
  wf (ru w) -> trace_consistent w ->
  exec env op w = (o, w') -> (forall k, o <> Fatal k) ->
  trace_consistent w'.
Proof.
  intros Hwf Htc H Hnf.
  destruct o as [[]|e|k]; [ | | exfalso; eapply Hnf; reflexivity].
  all: destruct op;
    try (simpl in H; match type of H with
      | commitUnitOfWork _ _ = _ =>
          apply commitUnitOfWork_Ok in H; destruct H as [_ H];
          apply _commit_Ok in H; destruct H as [Htr Hru];
          destruct Hwf as (_ & _ & Hses & _);
          eapply end_trace_consistent; try eassumption;
          first [apply occurrences_commit_calls; reflexivity | apply allocated_commit_calls]
      | abortUnitOfWork _ _ = _ =>
          apply abortUnitOfWork_Ok in H; destruct H as [_ H];
          apply _abort_Ok in H; destruct H as [Htr Hru];
          destruct Hwf as (_ & _ & Hses & _);
          eapply end_trace_consistent; try eassumption;
          first [apply occurrences_map_rollback; reflexivity | apply allocated_map_rollback]
      end).
  all: destruct w as [r c tr];
    destruct r as [st ses sid chs cts lts pts rat mcs src ip oplog ord tsd tmr];
    destruct st; mops; simpl in *; mcases; use_calls_counts.
  all: trace_finish.
Qed.

Lemma constructed_trace_consistent n : trace_consistent (constructed n).
Proof.
  repeat split. exists []. reflexivity.
Qed.

Lemma run_trace_consistent ops : forall w w',
  wf (ru w) -> trace_consistent w -> run ops w = Some w' -> trace_consistent w'.
Proof.
  induction ops as [|[env op] ops IH]; intros w w' Hwf Htc H; simpl in H.
  - injection H as <-. exact Htc.
  - destruct (exec env op w) as [o w1] eqn:E.
    assert (Hnf : forall k, o <> Fatal k) by (intros k ->; discriminate).
    assert (Hrun : run ops w1 = Some w')
      by (destruct o; [exact H | exact H | discriminate]).
    eapply IH; [| |exact Hrun].
    + eapply exec_wf; eassumption.
    + eapply exec_trace_consistent; eassumption.
Qed.

(** X1.  In every world a client's run reaches from construction, the engine
    transactions begun are the ones ended (committed or rolled back) plus one
    exactly when the state is [Active] or [ActiveNotInUnitOfWork]: none is
    leaked, none is ended twice, a failed open is rolled back. *)
Theorem X1_transactions_balanced n ops w :
  run ops (constructed n) = Some w ->
  occurrences is_begin (trace w)
  = (occurrences is_engine_end (trace w) + (if _isActive (ru w) then 1 else 0))%nat.
Proof.
  intros H.
  exact (proj1 (run_trace_consistent _ _ _ (constructed_wf n)
                  (constructed_trace_consistent n) H)).
Qed.

Lemma X1_transactions_balanced_witness :
  occurrences is_begin (trace w_reading) = 1%nat
  /\ occurrences is_begin (trace (after (quietly [OpCommitUnitOfWork]) w_prepared))
     = occurrences is_engine_end (trace (after (quietly [OpCommitUnitOfWork]) w_prepared)).
Proof.
  assert (H1 : run (quietly [OpPreallocateSnapshot]) (constructed 1) = Some w_reading)
    by (vm_compute; reflexivity).
  eassert (H2 : run (quietly [OpBeginUnitOfWork; OpSetPrepareTimestamp 5;
                              OpPrepareUnitOfWork; OpSetCommitTimestamp 9;
                              OpCommitUnitOfWork]) (constructed 1) = Some _)
    by (vm_compute; reflexivity).
  split.
  - refine (eq_trans (X1_transactions_balanced 1 _ _ H1) _). vm_compute. reflexivity.
  - refine (eq_trans _ (eq_trans (X1_transactions_balanced 1 _ _ H2) _));
      vm_compute; reflexivity.
Defined.

(** X2.  In every world a client's run reaches from construction, the session
    cache has been asked for a session exactly once if a session is bound and
    never if none is: the session is acquired lazily and at most once. *)
Theorem X2_session_acquired_once n ops w :
  run ops (constructed n) = Some w ->
  occurrences is_cache_get (trace w)
  = (if bool_decide (is_Some (_session (ru w))) then 1 else 0)%nat.
Proof.
  intros H.
  exact (proj1 (proj2 (run_trace_consistent _ _ _ (constructed_wf n)
                         (constructed_trace_consistent n) H))).
Qed.

Lemma X2_session_acquired_once_witness :
  occurrences is_cache_get
    (trace (after (quietly [OpGetSessionNoTxn; OpPreallocateSnapshot; OpAbandonSnapshot;
                            OpBeginUnitOfWork; OpSetTimestamp 7; OpCommitUnitOfWork])
              (constructed 1)))
  = 1%nat.
Proof.
  eassert (H : run (quietly [OpGetSessionNoTxn; OpPreallocateSnapshot; OpAbandonSnapshot;
                             OpBeginUnitOfWork; OpSetTimestamp 7; OpCommitUnitOfWork])
                 (constructed 1) = Some _) by (vm_compute; reflexivity).
  unfold after. rewrite H.
  refine (eq_trans (X2_session_acquired_once 1 _ _ H) _). vm_compute. reflexivity.
Defined.

(** X3.  In every world a client's run reaches from construction, the id
    [getSnapshotId] returns is the id the counter handed out last (at
    construction or at the latest transaction close); opening a transaction
    hands out none. *)
Theorem X3_snapshotId_is_latest n ops w :
  run ops (constructed n) = Some w ->
  exists earlier id,
    allocated (trace w) = earlier ++ [id]
    /\ getSnapshotId w = (Ok id, w).
Proof.
  intros H.
  destruct (run_trace_consistent _ _ _ (constructed_wf n)
              (constructed_trace_consistent n) H) as (_ & _ & earlier & He).
  exists earlier, (_mySnapshotId (ru w)). split; [exact He | reflexivity].
Qed.

Lemma X3_snapshotId_is_latest_witness :
  exists w earlier id,
    run (quietly [OpPreallocateSnapshot; OpAbandonSnapshot]) (constructed 1) = Some w
    /\ allocated (trace w) = earlier ++ [id]
    /\ getSnapshotId w = (Ok id, w).
Proof.
  eassert (H : run (quietly [OpPreallocateSnapshot; OpAbandonSnapshot]) (constructed 1)
               = Some _) by (vm_compute; reflexivity).
  destruct (X3_snapshotId_is_latest 1 _ _ H) as (earlier & id & Hal & Hget).
  eexists _, earlier, id. split; [exact H|]. split; [exact Hal | exact Hget].
Defined.

(** *** The session and the prepare timestamp over a run *)

Ltac fields_finish :=
  repeat match goal with
    | w : World |- _ => destruct w; simpl in *
    end;
  repeat match goal with
    | H : _ /\ _ |- _ => destruct H
    | H : txnOpen_frame _ ?r |- _ =>
        unfold txnOpen_frame in H; destruct r; simpl in *; injection H as H; subst
    end;
  unfold prepare_excludes_last, end_result, closes, txnClose_result, _isActive,
    _inUnitOfWork, _isCommittingOrAborting in *;
  simpl in *; subst; simpl in *;
  repeat match goal with
    | H : _ /\ _ |- _ => destruct H
    | H : ?a = ?a -> _ |- _ => specialize (H eq_refl)
    | H : negb (bool_decide (is_Some ?x)) = true |- _ =>
        destruct x; simpl in H; [discriminate | clear H]
    | H : context [bool_decide (is_Some ?x)] |- _ => is_var x; destruct x; simpl in *
    | |- context [bool_decide (is_Some ?x)] => is_var x; destruct x; simpl in *
    end;
  simplify_eq;
  repeat split; intros; simplify_eq; try discriminate; try (by eauto);
  try match goal with
    | H : is_Some None |- _ => destruct H; discriminate
    | H : ?P -> ?Q |- ?Q => apply H; assumption
    | H : is_Some (Some _) -> ?x = _ |- ?x = _ => apply H; eexists; reflexivity
    end.

Lemma exec_fields env op w o w' :
  exec env op w = (o, w') -> (forall k, o <> Fatal k) ->
  (forall s, _session (ru w) = Some s -> _session (ru w') = Some s)
  /\ (prepare_excludes_last (ru w) -> prepare_excludes_last (ru w')).
Proof.
  intros H Hnf. destruct w as [r c tr].
  destruct r as [st ses sid chs cts lts pts rat mcs src ip oplog ord tsd tmr].
  destruct o as [[]|e|k]; [ | | exfalso; eapply Hnf; reflexivity].
  all: destruct op, st; mops; simpl in *; mcases; use_calls.
  all: fields_finish.
Qed.

(** X4.  Once a session is bound, no operation releases or replaces it: after
    any run of operations that meets no fatal assertion the recovery unit
    holds the same session. *)
Theorem X4_session_kept ops : forall w w' s,
  run ops w = Some w' ->
  _session (ru w) = Some s ->
  _session (ru w') = Some s.
Proof.
  induction ops as [|[env op] ops IH]; intros w w' s H Hs; simpl in H.
  - injection H as <-. exact Hs.
  - destruct (exec env op w) as [o w1] eqn:E.
    assert (Hnf : forall k, o <> Fatal k) by (intros k ->; discriminate).
    assert (Hrun : run ops w1 = Some w')
      by (destruct o; [exact H | exact H | discriminate]).
    eapply IH; [exact Hrun|].
    exact (proj1 (exec_fields _ _ _ _ _ E Hnf) s Hs).
Qed.

Lemma X4_session_kept_witness :
  _session (ru w_reading) = Some 7
  /\ _session (ru (after (quietly [OpAbandonSnapshot; OpBeginUnitOfWork; OpSetTimestamp 7;
                                   OpAbortUnitOfWork; OpBeginIdle]) w_reading)) = Some 7.
Proof.
  split; [reflexivity|].
  eassert (H : run (quietly [OpAbandonSnapshot; OpBeginUnitOfWork; OpSetTimestamp 7;
                             OpAbortUnitOfWork; OpBeginIdle]) w_reading = Some _)
    by (vm_compute; reflexivity).
  unfold after. rewrite H.
  exact (X4_session_kept _ _ _ 7 H eq_refl).
Defined.

(** X5.  In every world a client's run reaches from construction,
    [_lastTimestampSet] and [_prepareTimestamp] are not both set:
    [setTimestamp] asserts a null prepare timestamp, [setPrepareTimestamp]
    asserts an empty [_lastTimestampSet]. *)
Theorem X5_prepare_excludes_last n ops w :
  run ops (constructed n) = Some w ->
  ~ (is_Some (_lastTimestampSet (ru w)) /\ isNull (_prepareTimestamp (ru w)) = false).
Proof.
  intros H.
  assert (Hinv : prepare_excludes_last (ru w)).
  { assert (Hgen : forall ops w0 w1,
              prepare_excludes_last (ru w0) -> run ops w0 = Some w1 ->
              prepare_excludes_last (ru w1)).
    { clear. induction ops as [|[env op] ops IH]; intros w0 w1 Hp H; simpl in H.
      - injection H as <-. exact Hp.
      - destruct (exec env op w0) as [o w2] eqn:E.
        assert (Hnf : forall k, o <> Fatal k) by (intros k ->; discriminate).
        assert (Hrun : run ops w2 = Some w1)
          by (destruct o; [exact H | exact H | discriminate]).
        eapply IH; [|exact Hrun].
        exact (proj2 (exec_fields _ _ _ _ _ E Hnf) Hp). }
    eapply Hgen; [|exact H]. intros [t Ht]. discriminate Ht. }
  intros [Hl Hp]. rewrite (Hinv Hl) in Hp. discriminate.
Qed.

Lemma X5_prepare_excludes_last_witness :
  _lastTimestampSet (ru w_two_handlers) = Some 7
  /\ ~ (is_Some (_lastTimestampSet (ru w_two_handlers))
        /\ isNull (_prepareTimestamp (ru w_two_handlers)) = false)
  /\ fst (setPrepareTimestamp 5 w_two_handlers) = Fatal InvariantFailure.
Proof.
  assert (Hrun : run ((env_quiet, OpBeginUnitOfWork) :: two_handlers) (constructed 1)
                 = Some w_two_handlers) by (vm_compute; reflexivity).
  split; [reflexivity|]. split; [exact (X5_prepare_excludes_last 1 _ _ Hrun)|].
  vm_compute. reflexivity.
Defined.

(** *** Which operation is legal when *)

(** X6.  The unit-of-work discipline: an operation guarded by
    [invariant(_inUnitOfWork())] is a fatal assertion outside a unit of work,
    one guarded by [invariant(!_inUnitOfWork())] is a fatal assertion inside
    one, and while commit or rollback handlers run (states [Committing],
    [Aborting]) neither a unit of work nor a transaction can be opened. *)
Theorem X6_unit_of_work_discipline env op w :
  (requires_unit_of_work op = true -> _inUnitOfWork (ru w) = false ->
     fst (exec env op w) = Fatal InvariantFailure)
  /\ (forbids_unit_of_work op = true -> _inUnitOfWork (ru w) = true ->
        fst (exec env op w) = Fatal InvariantFailure)
  /\ (opens op = true -> _isCommittingOrAborting (ru w) = true ->
        fst (exec env op w) = Fatal InvariantFailure).
Proof.
  destruct w as [r c tr].
  destruct r as [st ses sid chs cts lts pts rat mcs src ip oplog ord tsd tmr].
  repeat split; intros Hop Hst; destruct op; try discriminate Hop;
    destruct st; try discriminate Hst; try (destruct ses);
    munfold; simpl; reflexivity.
Qed.

Lemma X6_unit_of_work_discipline_witness :
  fst (exec env_quiet (OpRegisterChange 1) (constructed 1)) = Fatal InvariantFailure
  /\ fst (exec env_quiet OpAbandonSnapshot w_in_unit_of_work) = Fatal InvariantFailure.
Proof.
  split.
  - exact (proj1 (X6_unit_of_work_discipline env_quiet (OpRegisterChange 1) (constructed 1))
             eq_refl eq_refl).
  - exact (proj1 (proj2 (X6_unit_of_work_discipline env_quiet OpAbandonSnapshot
                           w_in_unit_of_work)) eq_refl eq_refl).
Defined.

(** *** Opening a transaction *)

(** X7.  [getSession] opens at most one transaction: called again after it
    has returned, it returns the same session and neither calls a
    collaborator nor changes the recovery unit. *)
Theorem X7_getSession_idempotent env env' w s w1 :
  getSession env w = (Ok s, w1) ->
  getSession env' w1 = (Ok s, w1).
Proof.
  intros H. apply getSession_spec in H. destruct H as (_ & _ & _ & -> & Hact & _).
  destruct w1 as [r c tr].
  destruct r as [st ses sid chs cts lts pts rat mcs src ip oplog ord tsd tmr].
  simpl in *. destruct st; try discriminate Hact; reflexivity.
Qed.

Lemma X7_getSession_idempotent_witness :
  exists w1,
    getSession env_quiet (constructed 1) = (Ok (Some 7), w1)
    /\ getSession env_read_too_old w1 = (Ok (Some 7), w1).
Proof.
  eassert (H : getSession env_quiet (constructed 1) = (Ok (Some 7), _))
    by (vm_compute; reflexivity).
  eexists. split; [exact H|].
  exact (X7_getSession_idempotent _ env_read_too_old _ _ _ H).
Defined.

(** X8.  [getSession] throws only on the path that reads at
    [_readAtTimestamp], and only when the engine refuses that timestamp; the
    status thrown is an error, the state is unchanged, the session stays
    bound, and the transaction just begun is rolled back last. *)
Theorem X8_getSession_throws env w st w' :
  getSession env w = (Thrown st, w') ->
  reads_at_timestamp (ru w) = true
  /\ isOK (beginTxnBlock_setTimestamp env (_readAtTimestamp (ru w)) kNoRound) = false
  /\ isOK st = false
  /\ _state (ru w') = _state (ru w)
  /\ is_Some (_session (ru w'))
  /\ exists calls, trace w' = trace w ++ calls ++ [EvRollbackTransaction].
Proof.
  destruct w as [r c tr].
  destruct r as [s ses sid chs cts lts pts rat mcs src ip oplog ord tsd tmr].
  intros H. unfold reads_at_timestamp.
  destruct s, src, ses; munfold; simpl in *; mcases; simpl in *;
    repeat split;
    try reflexivity; try assumption; try (eexists; reflexivity);
    try match goal with
      | H : isNull ?t = false |- negb (isNull ?t) = true => rewrite H; reflexivity
      | H : negb ?b = true |- ?b = false => apply negb_true_iff; exact H
      | H : negb ?b && _ = true |- ?b = false =>
          apply andb_true_iff in H; destruct H as [H _]; apply negb_true_iff; exact H
      | |- exists _, (((?t ++ ?a0) ++ ?a) ++ ?b) ++ _ = ?t ++ _ =>
          exists (a0 ++ a ++ b); rewrite <- !app_assoc; reflexivity
      | |- exists _, ((?t ++ ?a) ++ ?b) ++ _ = ?t ++ _ =>
          exists (a ++ b); rewrite <- !app_assoc; reflexivity
      end.
Qed.

Lemma X8_getSession_throws_witness :
  exists st w',
    getSession env_read_too_old w_provided = (Thrown st, w')
    /\ _state (ru w') = kInactive
    /\ exists calls, trace w' = trace w_provided ++ calls ++ [EvRollbackTransaction].
Proof.
  eassert (H : getSession env_read_too_old w_provided = (Thrown _, _))
    by (vm_compute; reflexivity).
  destruct (X8_getSession_throws _ _ _ _ H) as (_ & _ & _ & Hst & _ & Htr).
  eexists _, _. split; [exact H|]. split; [exact Hst | exact Htr].
Defined.

(** X9.  The two snapshot read sources, once they have a read timestamp,
    open a transaction exactly as read source [kProvided] does with that
    timestamp: same calls, same outcome, same resulting fields. *)
Theorem X9_snapshot_sources_reuse_timestamp env w :
  _timestampReadSource (ru w) = kLastAppliedSnapshot
  \/ _timestampReadSource (ru w) = kAllCommittedSnapshot ->
  isNull (_readAtTimestamp (ru w)) = false ->
  getSession env (with_readSource kProvided w)
  = (fst (getSession env w), with_readSource kProvided (snd (getSession env w))).
Proof.
  destruct w as [r c tr].
  destruct r as [s ses sid chs cts lts pts rat mcs src ip oplog ord tsd tmr].
  unfold with_readSource. simpl. intros Hsrc Hnull.
  destruct (shouldLog_kSlowTransactionSeverity env) eqn:Hlog;
    destruct (beginTxnBlock_setTimestamp env rat kNoRound) as [cd rs] eqn:Est;
    destruct Hsrc as [-> | ->]; destruct s, ses, cd;
    munfold; repeat (progress (simpl; rewrite ?Hnull, ?Hlog, ?Est));
    reflexivity.
Qed.

Lemma X9_snapshot_sources_reuse_timestamp_witness :
  _readAtTimestamp (ru w_snapshot_cached) = 42
  /\ exists w',
       getSession env_read_too_old w_snapshot_cached
       = (Thrown (mkStatus SnapshotTooOld
                    "Read timestamp  is older than the oldest available timestamp."), w')
       /\ getSession env_read_too_old (with_readSource kProvided w_snapshot_cached)
          = (Thrown (mkStatus SnapshotTooOld
                       "Read timestamp  is older than the oldest available timestamp."),
             with_readSource kProvided w').
Proof.
  split; [reflexivity|].
  eassert (H : getSession env_read_too_old w_snapshot_cached = (Thrown _, _))
    by (vm_compute; reflexivity).
  eexists. split; [exact H|].
  refine (eq_trans (X9_snapshot_sources_reuse_timestamp env_read_too_old
                      w_snapshot_cached (or_introl eq_refl) eq_refl) _).
  rewrite H. reflexivity.
Defined.
(** X10.  Under read source [kLastAppliedSnapshot] with no read timestamp yet,
    [getSession] cannot fail: it begins the transaction on the snapshot
    manager's local snapshot, with no other engine call, and records the
    timestamp the snapshot manager answers as [_readAtTimestamp]. *)
Theorem X10_last_applied_snapshot_first_open env w :
  _timestampReadSource (ru w) = kLastAppliedSnapshot ->
  isNull (_readAtTimestamp (ru w)) = true ->
  _isActive (ru w) = false ->
  _isCommittingOrAborting (ru w) = false ->
  exists s w',
    getSession env w = (Ok (Some s), w')
    /\ _session (ru w') = Some s
    /\ _readAtTimestamp (ru w') = snapshotManager_beginTransactionOnLocalSnapshot env
    /\ trace w' = trace w ++ acquire_calls env (ru w)
                  ++ [EvBeginTransactionOnLocalSnapshot (_ignorePrepared (ru w))].
Proof.
  destruct w as [r c tr].
  destruct r as [st ses sid chs cts lts pts rat mcs src ip oplog ord tsd tmr].
  unfold acquire_calls. simpl. intros -> Hnull Hact Hca.
  destruct (shouldLog_kSlowTransactionSeverity env) eqn:Hlog;
    destruct st; try discriminate Hact; try discriminate Hca; destruct ses;
    munfold; repeat (progress (simpl; rewrite ?Hnull, ?Hlog));
    eexists _, _; repeat split; rewrite <- ?app_assoc; reflexivity.
Qed.

Lemma X10_last_applied_snapshot_first_open_witness :
  exists w',
    getSession env_snapshots w_last_applied_snapshot = (Ok (Some 7), w')
    /\ _readAtTimestamp (ru w') = 42
    /\ trace w' = trace w_last_applied_snapshot
                  ++ [EvCacheGetSession 7; EvBeginTransactionOnLocalSnapshot kNoIgnore].
Proof.
  destruct (X10_last_applied_snapshot_first_open env_snapshots w_last_applied_snapshot
              eq_refl eq_refl eq_refl eq_refl) as (s & w' & H & Hs & Hrat & Htr).
  assert (Hs7 : s = 7).
  { eassert (H' : getSession env_snapshots w_last_applied_snapshot = (Ok (Some 7), _))
      by (vm_compute; reflexivity).
    rewrite H' in H. injection H as <- _. reflexivity. }
  subst s. exists w'. split; [exact H|]. split; [exact Hrat | exact Htr].
Defined.

(** X11.  Under read source [kAllCommittedSnapshot] with no read timestamp
    yet, [getSession] never throws.  It returns only if the engine accepted
    the all-committed timestamp (rounded to oldest), answered the query for
    the read timestamp, and the answer parsed as a hexadecimal number; the
    timestamp recorded is the engine's answer, not the value asked for.  Any
    refusal is fatal: fassert 50948, an invariant failure, fassert 50949. *)
Theorem X11_all_committed_snapshot_first_open env w o w' :
  _timestampReadSource (ru w) = kAllCommittedSnapshot ->
  isNull (_readAtTimestamp (ru w)) = true ->
  _isActive (ru w) = false ->
  _isCommittingOrAborting (ru w) = false ->
  getSession env w = (o, w') ->
  let asked := Timestamp_ofULL (oplogManager_fetchAllCommittedValue env) in
  let answer := wt_query_timestamp env "get=read" in
  let parsed := parseNumberFromStringWithBase env (snd answer) 16 in
  match o with
  | Ok s =>
      isOK (beginTxnBlock_setTimestamp env asked kRound) = true
      /\ fst answer = 0%Z
      /\ isOK (fst parsed) = true
      /\ s = _session (ru w')
      /\ _readAtTimestamp (ru w') = Timestamp_ofULL (snd parsed)
      /\ trace w' = trace w ++ acquire_calls env (ru w)
                    ++ [EvBeginTransaction (_ignorePrepared (ru w));
                        EvBlockSetTimestamp asked kRound;
                        EvQueryTimestamp "get=read"]
  | Thrown _ => False
  | Fatal k =>
      (k = FassertFailure 50948
       /\ isOK (beginTxnBlock_setTimestamp env asked kRound) = false)
      \/ (k = InvariantFailure /\ fst answer <> 0%Z)
      \/ (k = FassertFailure 50949 /\ isOK (fst parsed) = false)
  end.
Proof.
  destruct w as [r c tr].
  destruct r as [st ses sid chs cts lts pts rat mcs src ip oplog ord tsd tmr].
  unfold acquire_calls. simpl. intros -> Hnull Hact Hca H.
  destruct (shouldLog_kSlowTransactionSeverity env) eqn:Hlog;
    destruct (isOK (beginTxnBlock_setTimestamp env
                      (Timestamp_ofULL (oplogManager_fetchAllCommittedValue env)) kRound))
      eqn:Hblock;
    destruct (wt_query_timestamp env "get=read") as [rc buf] eqn:Hq;
    destruct (Z.eqb rc 0) eqn:Hrc;
    destruct (parseNumberFromStringWithBase env buf 16) as [pst pv] eqn:Hparse;
    destruct (isOK pst) eqn:Hpst;
    destruct st; try discriminate Hact; try discriminate Hca; destruct ses;
    munfold;
    repeat (progress (simpl in *; rewrite ?Hnull, ?Hlog, ?Hblock, ?Hq, ?Hrc, ?Hparse, ?Hpst in * ));
    simplify_eq; simpl;
    first [apply Z.eqb_eq in Hrc | apply Z.eqb_neq in Hrc];
    repeat split; rewrite <- ?app_assoc; try reflexivity; try assumption;
    first [ left; split; [reflexivity | first [reflexivity | assumption]]
          | right; left; split; [reflexivity | first [reflexivity | assumption]]
          | right; right; split; [reflexivity | first [reflexivity | assumption]] ].
Qed.

Lemma X11_all_committed_snapshot_first_open_witness :
  exists w',
    getSession env_snapshots w_all_committed_snapshot = (Ok (Some 7), w')
    /\ oplogManager_fetchAllCommittedValue env_snapshots = 45
    /\ _readAtTimestamp (ru w') = 44.
Proof.
  eassert (H : getSession env_snapshots w_all_committed_snapshot = (Ok (Some 7), _))
    by (vm_compute; reflexivity).
  eexists. split; [exact H|]. split; [reflexivity|].
  refine (eq_trans (proj1 (proj2 (proj2 (proj2 (proj2
            (X11_all_committed_snapshot_first_open env_snapshots
               w_all_committed_snapshot _ _ eq_refl eq_refl eq_refl eq_refl H)))))) _).
  vm_compute. reflexivity.
Defined.
(** X12.  Selecting a read source, opening a transaction and asking for the
    point-in-time read timestamp compose as follows: no timestamp for
    [kUnset] and [kNoTimestamp]; the provided one for [kProvided]; what the
    snapshot manager or the engine answered at the open for the other
    sources, where a null answer makes the question a fatal invariant
    failure, except under [kLastApplied], which then answers with none.  The
    question itself changes nothing. *)
Theorem X12_point_in_time_after_open env src provided w0 w s w1 :
  setTimestampReadSource src provided w0 = (Ok tt, w) ->
  _isActive (ru w0) = false ->
  getSession env w = (Ok s, w1) ->
  getPointInTimeReadTimestamp w1 = (point_in_time_after_open env src provided, w1).
Proof.
  destruct w0 as [r c tr].
  destruct r as [st ses sid chs cts lts pts rat mcs rs ip oplog ord tsd tmr].
  unfold point_in_time_after_open, or_invariant_failure, read_timestamp_of_engine.
  intros Hset Hact Hget.
  assert (Hw : w = mkWorld
                 (mkRU st ses sid chs cts lts pts
                    (match provided with Some p => p | None => Timestamp_null end)
                    mcs src ip oplog ord tsd tmr) c tr
               /\ (forall p, provided = Some p -> src = kProvided /\ isNull p = false)
               /\ (provided = None -> src <> kProvided)).
  { clear Hget. destruct st; try discriminate Hact;
      destruct src, provided as [p|]; munfold; simpl in Hset;
      try discriminate Hset;
      try (destruct (isNull p) eqn:Hp; simpl in Hset; try discriminate Hset);
      injection Hset as <-;
      (split; [reflexivity|]; split; [intros ? [= <-]; auto | intros; discriminate]). }
  destruct Hw as (-> & Hsome & Hnone). clear Hset.
  destruct provided as [p|].
  - destruct (Hsome p eq_refl) as [-> Hp]. clear Hsome Hnone.
    destruct (shouldLog_kSlowTransactionSeverity env) eqn:Hlog;
      destruct (beginTxnBlock_setTimestamp env p kNoRound) as [cd rsn] eqn:Est;
      destruct st; try discriminate Hact; destruct ses, cd;
      munfold;
      repeat (progress (simpl in *; rewrite ?Hlog, ?Est, ?Hp in * ));
      simplify_eq; munfold; simpl; rewrite ?Hp; reflexivity.
  - clear Hsome.
    destruct src; try (exfalso; apply Hnone; reflexivity);
      destruct st; try discriminate Hact; destruct ses;
      munfold; simpl in *; mcases; munfold; simpl;
      repeat match goal with
        | |- context [isNull ?t] => destruct (isNull t) eqn:?; simpl
        end;
      reflexivity.
Qed.

Lemma X12_point_in_time_after_open_witness :
  exists w1,
    getSession env_snapshots w_all_committed_snapshot = (Ok (Some 7), w1)
    /\ getPointInTimeReadTimestamp w1 = (Ok (Some 44), w1).
Proof.
  eassert (H : getSession env_snapshots w_all_committed_snapshot = (Ok (Some 7), _))
    by (vm_compute; reflexivity).
  eexists. split; [exact H|].
  eassert (H0 : setTimestampReadSource kAllCommittedSnapshot None (constructed 1)
                = (Ok tt, w_all_committed_snapshot))
    by (vm_compute; reflexivity).
  refine (eq_trans (X12_point_in_time_after_open env_snapshots kAllCommittedSnapshot None
                      (constructed 1) w_all_committed_snapshot _ _ H0 eq_refl H) _).
  vm_compute. reflexivity.
Defined.

(** X13.  [setTimestampReadSource] is accepted on an open transaction when
    it names the read source already in force; it then resets
    [_readAtTimestamp] while the transaction stays open, so that under the
    two snapshot sources the next [getPointInTimeReadTimestamp] is a fatal
    invariant failure. *)
Theorem X13_read_source_reset_while_active src w w' :
  _isActive (ru w) = true ->
  setTimestampReadSource src None w = (Ok tt, w') ->
  src = _timestampReadSource (ru w)
  /\ _state (ru w') = _state (ru w)
  /\ trace w' = trace w
  /\ isNull (_readAtTimestamp (ru w')) = true
  /\ (src = kLastAppliedSnapshot \/ src = kAllCommittedSnapshot ->
      getPointInTimeReadTimestamp w' = (Fatal InvariantFailure, w')).
Proof.
  destruct w as [r c tr].
  destruct r as [st ses sid chs cts lts pts rat mcs rs ip oplog ord tsd tmr].
  intros Hact H.
  destruct st; try discriminate Hact; destruct src, rs;
    munfold; simpl in H; try discriminate H; injection H as <-; simpl;
    repeat split; intros [E | E]; try discriminate E; reflexivity.
Qed.

Lemma X13_read_source_reset_while_active_witness :
  exists w1 w2,
    getSession env_snapshots w_last_applied_snapshot = (Ok (Some 7), w1)
    /\ getPointInTimeReadTimestamp w1 = (Ok (Some 42), w1)
    /\ setTimestampReadSource kLastAppliedSnapshot None w1 = (Ok tt, w2)
    /\ getPointInTimeReadTimestamp w2 = (Fatal InvariantFailure, w2).
Proof.
  eassert (H : getSession env_snapshots w_last_applied_snapshot = (Ok (Some 7), _))
    by (vm_compute; reflexivity).
  match type of H with
  | _ = (_, ?w1) =>
      eassert (H2 : setTimestampReadSource kLastAppliedSnapshot None w1 = (Ok tt, _))
        by (vm_compute; reflexivity)
  end.
  eexists _, _. split; [exact H|]. split; [vm_compute; reflexivity|].
  split; [exact H2|].
  refine (proj2 (proj2 (proj2 (proj2
            (X13_read_source_reset_while_active _ _ _ _ H2)))) (or_introl eq_refl)).
  reflexivity.
Defined.
(** *** The prepare and the commit timestamp *)

(** X14.  A prepare timestamp is read back as it was set.  Setting the null
    timestamp is accepted, but it cannot be read back; a non-null one can be
    set once only, makes [setTimestamp] a fatal invariant failure, and leaves
    [setCommitTimestamp] allowed inside the unit of work unless a timestamp
    has already reached the engine. *)
Theorem X14_prepare_timestamp_round_trip ts w w' :
  setPrepareTimestamp ts w = (Ok tt, w') ->
  getPrepareTimestamp w'
  = (if isNull ts then Fatal InvariantFailure else Ok ts, w')
  /\ (isNull ts = false ->
      (forall ts', setPrepareTimestamp ts' w' = (Fatal InvariantFailure, w'))
      /\ (forall env ts', fst (setTimestamp env ts' w') = Fatal InvariantFailure)
      /\ (forall ts', fst (setCommitTimestamp ts' w')
                      = if _isTimestamped (ru w) then Fatal InvariantFailure else Ok tt)).
Proof.
  destruct w as [r c tr].
  destruct r as [st ses sid chs cts lts pts rat mcs src ip oplog ord tsd tmr].
  intros H.
  destruct st, lts, (isNull pts) eqn:Hpts, (isNull cts) eqn:Hcts;
    munfold; simpl in H; rewrite ?Hpts, ?Hcts in H; simpl in H;
    try discriminate H; injection H as <-;
    (split; [munfold; simpl; rewrite ?Hcts; destruct (isNull ts); reflexivity|]);
    intros Hts; repeat split; intros;
    destruct ses, tsd; munfold; simpl; rewrite ?Hts, ?Hcts; reflexivity.
Qed.

Lemma X14_prepare_timestamp_round_trip_witness :
  getPrepareTimestamp w_before_prepare = (Ok 5, w_before_prepare)
  /\ setPrepareTimestamp 6 w_before_prepare = (Fatal InvariantFailure, w_before_prepare).
Proof.
  eassert (H : setPrepareTimestamp 5 (after (quietly [OpBeginUnitOfWork]) (constructed 1))
               = (Ok tt, w_before_prepare))
    by (vm_compute; reflexivity).
  destruct (X14_prepare_timestamp_round_trip _ _ _ H) as [Hget Hrest].
  split; [exact Hget|]. exact (proj1 (Hrest eq_refl) 6).
Defined.

(** X15.  A commit timestamp is read back as it was set, whatever the state.
    A non-null one can be set once only; outside a unit of work
    [clearCommitTimestamp] then restores the recovery unit as it was before
    the timestamp was set.  After the null timestamp has been set there is
    nothing to clear: [clearCommitTimestamp] is a fatal invariant failure. *)
Theorem X15_commit_timestamp_round_trip ts w w' :
  setCommitTimestamp ts w = (Ok tt, w') ->
  getCommitTimestamp w' = (Ok ts, w')
  /\ (isNull ts = false ->
      forall ts', setCommitTimestamp ts' w' = (Fatal InvariantFailure, w'))
  /\ (isNull ts = false -> _inUnitOfWork (ru w) = false ->
      clearCommitTimestamp w' = (Ok tt, w))
  /\ (isNull ts = true -> fst (clearCommitTimestamp w') = Fatal InvariantFailure).
Proof.
  destruct w as [r c tr].
  destruct r as [st ses sid chs cts lts pts rat mcs src ip oplog ord tsd tmr].
  intros H.
  assert (Hcts : cts = Timestamp_null /\ lts = None /\ tsd = false
                 /\ w' = mkWorld (mkRU st ses sid chs ts lts pts rat mcs src ip oplog ord
                                    tsd tmr) c tr
                 /\ (_inUnitOfWork (mkRU st ses sid chs cts lts pts rat mcs src ip oplog
                                      ord tsd tmr) = true -> isNull pts = false)).
  { destruct st, lts, tsd, (isNull pts) eqn:Hpts, (isNull cts) eqn:Hcts;
      munfold; simpl in H; rewrite ?Hpts, ?Hcts in H; simpl in H;
      try discriminate H; injection H as <-;
      apply N.eqb_eq in Hcts; subst cts;
      repeat split; intros; first [reflexivity | discriminate]. }
  destruct Hcts as (-> & -> & -> & -> & _). clear H.
  split; [reflexivity|].
  repeat split; intros Hts; intros;
    destruct st; try discriminate;
    munfold; simpl; rewrite ?Hts; simpl; try destruct (isNull pts); reflexivity.
Qed.

Lemma X15_commit_timestamp_round_trip_witness :
  exists w',
    setCommitTimestamp 9 (constructed 1) = (Ok tt, w')
    /\ getCommitTimestamp w' = (Ok 9, w')
    /\ clearCommitTimestamp w' = (Ok tt, constructed 1).
Proof.
  eassert (H : setCommitTimestamp 9 (constructed 1) = (Ok tt, _))
    by (vm_compute; reflexivity).
  destruct (X15_commit_timestamp_round_trip _ _ _ H) as (Hget & _ & Hclear & _).
  eexists. split; [exact H|]. split; [exact Hget|].
  exact (Hclear eq_refl eq_refl).
Defined.

(** *** What each operation may call *)

#[local] Instance within_refl P : Reflexive (within P).
Proof. intros w. exists []. rewrite app_nil_r. auto. Qed.

#[local] Instance within_trans P : Transitive (within P).
Proof.
  intros a b c (c1 & H1 & F1) (c2 & H2 & F2). exists (c1 ++ c2).
  rewrite H2, H1, <- app_assoc, forallb_app, F1, F2. auto.
Qed.






(** *** Ending a unit of work *)

Lemma end_without_transaction env w w' :
  commitUnitOfWork env w = (Ok tt, w') \/ abortUnitOfWork env w = (Ok tt, w') ->
  _isActive (ru w) = false ->
  ru w' = set_state kInactive (set_changes [] (ru w))
  /\ occurrences is_engine_end (trace w') = occurrences is_engine_end (trace w)
  /\ allocated (trace w') = allocated (trace w).
Proof.
  intros H Hact.
  assert (Hcl : closes (ru w) = false)
    by (unfold closes; rewrite Hact; apply andb_false_r).
  destruct H as [H | H];
    [apply commitUnitOfWork_Ok in H | apply abortUnitOfWork_Ok in H];
    destruct H as [_ H];
    [apply _commit_Ok in H | apply _abort_Ok in H];
    destruct H as [Htr Hru];
    unfold end_calls in Htr; unfold end_result in Hru;
    rewrite Hcl in Htr, Hru; simpl in Htr;
    rewrite Htr, Hru, !occurrences_app, !allocated_app;
    [ change (map _ (_changes (ru w)))
        with (commit_calls (effectiveCommitTime (ru w)) (_changes (ru w)));
      rewrite occurrences_commit_calls, allocated_commit_calls by reflexivity
    | rewrite occurrences_map_rollback, allocated_map_rollback by reflexivity ];
    destruct (notifies env (ru w)); simpl;
    rewrite ?app_nil_r, ?Nat.add_0_r; auto.
Qed.

(** X17.  A unit of work that ends while no transaction is open makes no
    engine call and takes no new snapshot id; the prepare timestamp and the
    last timestamp set, which only the close of a transaction resets, are
    left as they were, like every field but the state and the handlers. *)
Theorem X17_end_without_transaction env w w' :
  commitUnitOfWork env w = (Ok tt, w') \/ abortUnitOfWork env w = (Ok tt, w') ->
  _isActive (ru w) = false ->
  ru w' = set_state kInactive (set_changes [] (ru w))
  /\ occurrences is_engine_end (trace w') = occurrences is_engine_end (trace w)
  /\ allocated (trace w') = allocated (trace w).
Proof. exact (end_without_transaction env w w'). Qed.

Lemma X17_end_without_transaction_witness :
  exists w',
    commitUnitOfWork env_quiet w_before_prepare = (Ok tt, w')
    /\ _state (ru w') = kInactive
    /\ _prepareTimestamp (ru w') = 5
    /\ allocated (trace w') = allocated (trace w_before_prepare)
    /\ fst (setPrepareTimestamp 6 w_prepare_left_over) = Fatal InvariantFailure.
Proof.
  eassert (H : commitUnitOfWork env_quiet w_before_prepare = (Ok tt, _))
    by (vm_compute; reflexivity).
  destruct (X17_end_without_transaction _ _ _ (or_introl H) eq_refl) as (Hru & _ & Hal).
  eexists. split; [exact H|].
  split; [rewrite Hru; reflexivity|].
  split; [rewrite Hru; reflexivity|].
  split; [exact Hal|]. vm_compute. reflexivity.
Defined.
Lemma commitChanges_outcome env t cs : forall w,
  ru (snd (commitChanges env cs t w)) = ru w
  /\ match fst (commitChanges env cs t w) with
     | Ok _ => forallb (fun c => bool_decide (change_commit env c t = None)) cs = true
     | Thrown _ => forallb (fun c => bool_decide (change_commit env c t = None)) cs = false
     | Fatal _ => False
     end.
Proof.
  induction cs as [|c cs IH]; intros [r n tr]; simpl.
  - auto.
  - unfold Change_commit. munfold.
    destruct (change_commit env c t) as [st|] eqn:E; simpl.
    + auto.
    + specialize (IH (mkWorld r n (tr ++ [EvChangeCommit c t]))).
      destruct (commitChanges env cs t _) as [[u|st|k] w']; simpl in *; exact IH.
Qed.

Lemma rollbackChanges_outcome env cs : forall w,
  ru (snd (rollbackChanges env cs w)) = ru w
  /\ match fst (rollbackChanges env cs w) with
     | Ok _ => forallb (fun c => bool_decide (change_rollback env c = None)) cs = true
     | Thrown _ => forallb (fun c => bool_decide (change_rollback env c = None)) cs = false
     | Fatal _ => False
     end.
Proof.
  induction cs as [|c cs IH]; intros [r n tr]; simpl.
  - auto.
  - unfold Change_rollback. munfold.
    destruct (change_rollback env c) as [st|] eqn:E; simpl.
    + auto.
    + specialize (IH (mkWorld r n (tr ++ [EvChangeRollback c]))).
      destruct (rollbackChanges env cs _) as [[u|st|k] w']; simpl in *; exact IH.
Qed.

Lemma _txnClose_Fatal env commit w k w' :
  _txnClose env commit w = (Fatal k, w') ->
  k = InvariantFailure /\ _state (ru w') = _state (ru w) /\ _changes (ru w') = _changes (ru w).
Proof.
  destruct w as [r c tr].
  destruct r as [st ses sid chs cts lts pts rat mcs src ip oplog ord tsd tmr].
  intros H. destruct commit, st; munfold; simpl in *; mcases; auto.
Qed.

(** X18.  How the end of a unit of work can fail.  [commitUnitOfWork] and
    [abortUnitOfWork] never throw.  They return only if every handler
    returned.  A handler that throws ends the process: the outcome is
    [Terminate], reached in state [Committing] or [Aborting] with the
    handlers still registered.  Any other failure is an invariant failure,
    met before the state changes. *)
Theorem X18_end_of_unit_of_work_outcomes env commit w o w' :
  endUnitOfWork env commit w = (o, w') ->
  match o with
  | Ok _ => handlers_return env commit (ru w) = true /\ _state (ru w') = kInactive
  | Thrown _ => False
  | Fatal Terminate =>
      handlers_return env commit (ru w) = false
      /\ _state (ru w') = (if commit then kCommitting else kAborting)
      /\ _changes (ru w') = _changes (ru w)
  | Fatal InvariantFailure =>
      _state (ru w') = _state (ru w) /\ _changes (ru w') = _changes (ru w)
  | Fatal (FassertFailure _) => False
  end.
Proof.
  unfold endUnitOfWork, handlers_return, effectiveCommitTime.
  destruct commit.
  - unfold commitUnitOfWork, _commit.
    cbv [bind getRU try_or_terminate _setState invariant ret fatal]. cbv zeta.
    destruct (_inUnitOfWork (ru w)) eqn:Huow; [|intros [= <- <-]; auto].
    change (bool_decide (is_Some (_session (ru w))) && _isActive (ru w))
      with (closes (ru w)).
    destruct (when (closes (ru w)) (_txnClose env true) w) as [[[]|st|k] w1] eqn:E.
    + apply close_if_active_Ok in E. destruct E as (Hru & _ & _).
      assert (Hch : _changes (ru w1) = _changes (ru w))
        by (rewrite Hru; destruct (closes (ru w)); reflexivity).
      cbv [modifyRU when emit ret]. simpl.
      destruct (if failPoint_WTAlwaysNotifyPrepareConflictWaiters env then true
                else negb (isNull (_prepareTimestamp (ru w)))); simpl; rewrite Hch;
        match goal with
        | |- context [commitChanges env ?cs ?t ?w0] =>
            pose proof (commitChanges_outcome env t cs w0) as [Hr Ho];
            destruct (commitChanges env cs t w0) as [[[]|st|k] w2]
        end; simpl in *; try contradiction; intros [= <- <-]; simpl; rewrite ?Hr; simpl; auto.
    + exfalso. destruct (closes (ru w)); simpl in E;
        [eapply _txnClose_not_Thrown; exact E | discriminate E].
    + destruct (closes (ru w)); simpl in E; [|discriminate E].
      apply _txnClose_Fatal in E. destruct E as (-> & Hst & Hch).
      intros [= <- <-]. auto.
  - unfold abortUnitOfWork, _abort.
    cbv [bind getRU try_or_terminate _setState invariant ret fatal]. cbv zeta.
    destruct (_inUnitOfWork (ru w)) eqn:Huow; [|intros [= <- <-]; auto].
    change (bool_decide (is_Some (_session (ru w))) && _isActive (ru w))
      with (closes (ru w)).
    destruct (when (closes (ru w)) (_txnClose env false) w) as [[[]|st|k] w1] eqn:E.
    + apply close_if_active_Ok in E. destruct E as (Hru & _ & _).
      assert (Hch : _changes (ru w1) = _changes (ru w))
        by (rewrite Hru; destruct (closes (ru w)); reflexivity).
      cbv [modifyRU when emit ret]. simpl.
      destruct (if failPoint_WTAlwaysNotifyPrepareConflictWaiters env then true
                else negb (isNull (_prepareTimestamp (ru w)))); simpl; rewrite Hch;
        match goal with
        | |- context [rollbackChanges env ?cs ?w0] =>
            pose proof (rollbackChanges_outcome env cs w0) as [Hr Ho];
            destruct (rollbackChanges env cs w0) as [[[]|st|k] w2]
        end; simpl in *; try contradiction; intros [= <- <-]; simpl; rewrite ?Hr; simpl; auto.
    + exfalso. destruct (closes (ru w)); simpl in E;
        [eapply _txnClose_not_Thrown; exact E | discriminate E].
    + destruct (closes (ru w)); simpl in E; [|discriminate E].
      apply _txnClose_Fatal in E. destruct E as (-> & Hst & Hch).
      intros [= <- <-]. auto.
Qed.

Lemma X18_end_of_unit_of_work_outcomes_witness :
  exists w',
    commitUnitOfWork env_handler_throws w_two_handlers = (Fatal Terminate, w')
    /\ _state (ru w') = kCommitting
    /\ _changes (ru w') = [1; 2].
Proof.
  eassert (H : commitUnitOfWork env_handler_throws w_two_handlers = (Fatal Terminate, _))
    by (vm_compute; reflexivity).
  destruct (X18_end_of_unit_of_work_outcomes env_handler_throws true _ _ _ H)
    as (_ & Hst & Hch).
  eexists. split; [exact H|]. split; [exact Hst|].
  refine (eq_trans Hch _). vm_compute. reflexivity.
Defined.
(** *** Abandoning a snapshot, and the session without a transaction *)

Lemma only_end_txnClose_calls env commit r c :
  only is_engine_end (txnClose_calls env commit r c) = [txnClose_end commit].
Proof.
  unfold txnClose_calls, txnClose_before_end, txnClose_flushes, txnClose_end.
  rewrite !only_app.
  destruct (_timer r && _), commit, (negb (isNull (_commitTimestamp r))),
    (txnClose_timestamps _ r && _); reflexivity.
Qed.

(** X19.  [abandonSnapshot] leaves the recovery unit inactive and is
    idempotent.  With a transaction open it rolls that transaction back (the
    engine is never asked to commit) and takes a new snapshot id, the
    counter's value; with none open it calls nothing.  The read source, the
    read timestamp and the commit timestamp are kept either way. *)
Theorem X19_abandonSnapshot env env' w w1 :
  abandonSnapshot env w = (Ok tt, w1) ->
  _state (ru w1) = kInactive
  /\ abandonSnapshot env' w1 = (Ok tt, w1)
  /\ _timestampReadSource (ru w1) = _timestampReadSource (ru w)
  /\ _readAtTimestamp (ru w1) = _readAtTimestamp (ru w)
  /\ _commitTimestamp (ru w1) = _commitTimestamp (ru w)
  /\ (if _isActive (ru w)
      then _mySnapshotId (ru w1) = nextSnapshotId w
           /\ only is_engine_end (trace w1)
              = only is_engine_end (trace w) ++ [EvRollbackTransaction]
      else _mySnapshotId (ru w1) = _mySnapshotId (ru w) /\ trace w1 = trace w).
Proof.
  intros H.
  unfold abandonSnapshot in H. cbv [bind getRU invariant _setState modifyRU] in H.
  destruct (_inUnitOfWork (ru w)) eqn:Huow; simpl in H; [discriminate H|].
  destruct (_isActive (ru w)) eqn:Hact; simpl in H.
  - destruct (_txnClose env false w) as [[[]|st|k] w0] eqn:E; try discriminate H.
    apply _txnClose_Ok in E. destruct E as (_ & Hru & _ & Htr).
    injection H as <-. simpl. rewrite Hru, Htr, only_app, only_end_txnClose_calls.
    repeat split.
  - injection H as <-. simpl. repeat split.
Qed.

Lemma X19_abandonSnapshot_witness :
  exists w1,
    abandonSnapshot env_quiet w_reading = (Ok tt, w1)
    /\ abandonSnapshot env_quiet w1 = (Ok tt, w1)
    /\ _mySnapshotId (ru w_reading) = 1
    /\ _mySnapshotId (ru w1) = 2.
Proof.
  eassert (H : abandonSnapshot env_quiet w_reading = (Ok tt, _))
    by (vm_compute; reflexivity).
  destruct (X19_abandonSnapshot env_quiet env_quiet _ _ H)
    as (_ & Hagain & _ & _ & _ & Hid).
  eexists. split; [exact H|]. split; [exact Hagain|]. split; [reflexivity|].
  exact (proj1 Hid).
Defined.

(** X20.  [getSessionNoTxn] cannot fail and begins no transaction: it binds
    a session if none is bound, forbids dropping queued idents at the end of
    that session, and changes no other field; the session it returns is the
    one a later [getSession] returns. *)
Theorem X20_getSessionNoTxn env w :
  exists s w1,
    getSessionNoTxn env w = (Ok (Some s), w1)
    /\ ru w1 = set_session (Some s) (ru w)
    /\ (forall s0, _session (ru w) = Some s0 -> s = s0)
    /\ trace w1 = trace w ++ acquire_calls env (ru w)
                  ++ [EvDropQueuedIdentsAtSessionEndAllowed false]
    /\ (forall env' o w2, getSession env' w1 = (Ok o, w2) -> o = Some s).
Proof.
  destruct w as [r c tr].
  destruct r as [st ses sid chs cts lts pts rat mcs src ip oplog ord tsd tmr].
  unfold acquire_calls. simpl.
  destruct ses as [s|]; [exists s | exists (sessionCache_getSession env)];
    eexists;
    (split; [munfold; simpl; reflexivity|]);
    (split; [reflexivity|]);
    (split; [intros ? [= <-]; reflexivity|]);
    (split; [simpl; rewrite <- ?app_assoc; reflexivity|]);
    intros env' o w2 H; apply getSession_spec in H; simpl in H;
    destruct H as (_ & _ & Hkeep & -> & _);
    apply Hkeep; eexists; reflexivity.
Qed.

(** X21.  [obtainMajorityCommittedSnapshot] returns only under read source
    [kMajorityCommitted].  With no committed snapshot to read it answers
    [ReadConcernMajorityNotAvailableYet] and changes nothing; otherwise it
    answers OK and the snapshot's timestamp is what
    [getPointInTimeReadTimestamp] then answers, which is a fatal invariant
    failure if that timestamp is null. *)
Theorem X21_obtainMajorityCommittedSnapshot env w st w' :
  obtainMajorityCommittedSnapshot env w = (Ok st, w') ->
  _timestampReadSource (ru w) = kMajorityCommitted
  /\ match snapshotManager_getMinSnapshotForNextCommittedRead env with
     | Some t =>
         st = Status_OK
         /\ getPointInTimeReadTimestamp w' = (or_invariant_failure t, w')
     | None => code st = ReadConcernMajorityNotAvailableYet /\ w' = w
     end.
Proof.
  destruct w as [r c tr].
  destruct r as [s ses sid chs cts lts pts rat mcs src ip oplog ord tsd tmr].
  unfold or_invariant_failure. intros H.
  destruct src; munfold; simpl in H; try discriminate H.
  split; [reflexivity|].
  destruct (snapshotManager_getMinSnapshotForNextCommittedRead env) as [t|];
    simpl in H; injection H as <- <-; (split; [reflexivity|]);
    [munfold; simpl; destruct (isNull t); reflexivity | reflexivity].
Qed.

Lemma X21_obtainMajorityCommittedSnapshot_witness :
  exists w',
    obtainMajorityCommittedSnapshot env_snapshots
      (after [(env_quiet, OpSetTimestampReadSource kMajorityCommitted None)] (constructed 1))
    = (Ok Status_OK, w')
    /\ getPointInTimeReadTimestamp w' = (Ok (Some 40), w').
Proof.
  eassert (H : obtainMajorityCommittedSnapshot env_snapshots
                 (after [(env_quiet, OpSetTimestampReadSource kMajorityCommitted None)]
                    (constructed 1)) = (Ok Status_OK, _))
    by (vm_compute; reflexivity).
  eexists. split; [exact H|].
  exact (proj2 (proj2 (X21_obtainMajorityCommittedSnapshot _ _ _ _ H))).
Defined.

(** *** Between operations *)

(** X22.  Between the operations of a run that meets no fatal assertion the
    recovery unit is never in state [Committing] or [Aborting], an open
    transaction always has its session, and handlers are registered only
    inside a unit of work. *)
Theorem X22_between_operations n ops w :
  run ops (constructed n) = Some w ->
  _isCommittingOrAborting (ru w) = false
  /\ (_isActive (ru w) = true -> is_Some (_session (ru w)))
  /\ (_inUnitOfWork (ru w) = false -> _changes (ru w) = []).
Proof.
  intros H.
  destruct (run_wf ops _ _ (constructed_wf n) H) as (_ & Hch & Hses & Hbetween).
  auto.
Qed.

Lemma X22_between_operations_witness :
  _isCommittingOrAborting (ru w_two_handlers) = false
  /\ is_Some (_session (ru w_two_handlers))
  /\ _changes (ru w_reading) = [].
Proof.
  eassert (H : run ((env_quiet, OpBeginUnitOfWork) :: two_handlers) (constructed 1)
               = Some w_two_handlers)
    by (vm_compute; reflexivity).
  eassert (H' : run (quietly [OpPreallocateSnapshot]) (constructed 1) = Some w_reading)
    by (vm_compute; reflexivity).
  destruct (X22_between_operations 1 _ _ H) as (Hbetween & Hses & _).
  destruct (X22_between_operations 1 _ _ H') as (_ & _ & Hch).
  split; [exact Hbetween|]. split; [exact (Hses eq_refl) | exact (Hch eq_refl)].
Defined.
(** X23.  A timestamp outlives a failed open.  When [setTimestamp] throws,
    because the transaction it opens was refused, no transaction is open and
    [_lastTimestampSet] already holds the timestamp; ending the unit of work
    then closes nothing and so does not reset it: the recovery unit is
    inactive with the timestamp still recorded, and [setCommitTimestamp] is
    a fatal invariant failure. *)
Theorem X23_timestamp_outlives_failed_open env ts w st w1 env' w2 :
  setTimestamp env ts w = (Thrown st, w1) ->
  commitUnitOfWork env' w1 = (Ok tt, w2) \/ abortUnitOfWork env' w1 = (Ok tt, w2) ->
  _state (ru w2) = kInactive
  /\ _lastTimestampSet (ru w2) = Some ts
  /\ forall ts', fst (setCommitTimestamp ts' w2) = Fatal InvariantFailure.
Proof.
  intros H Hend.
  assert (Hw1 : _isActive (ru w1) = false /\ _lastTimestampSet (ru w1) = Some ts).
  { clear Hend. destruct w as [r c tr].
    destruct r as [s ses sid chs cts lts pts rat mcs src ip oplog ord tsd tmr].
    destruct s, ses; mops; simpl in H; mcases; use_calls;
      repeat match goal with
        | w : World |- _ => destruct w; simpl in *
        end;
      repeat match goal with
        | H : _ /\ _ |- _ => destruct H
        | H : txnOpen_frame _ ?r |- _ =>
            unfold txnOpen_frame in H; destruct r; simpl in *; injection H as H; subst
        end;
      unfold _isActive; simpl in *; simplify_eq; split; reflexivity. }
  destruct Hw1 as [Hact Hlts].
  destruct (end_without_transaction env' w1 w2 Hend Hact) as (Hru & _ & _).
  destruct w2 as [r2 c2 tr2]. simpl in Hru. subst r2.
  destruct w1 as [r1 c1 tr1].
  destruct r1 as [s ses sid chs cts lts pts rat mcs src ip oplog ord tsd tmr].
  simpl in *. subst lts.
  repeat split. intros ts'. munfold. simpl. destruct (isNull cts); reflexivity.
Qed.

Lemma X23_timestamp_outlives_failed_open_witness :
  exists st w1 w2,
    setTimestamp env_read_too_old 7
      (after (quietly [OpBeginUnitOfWork]) w_provided) = (Thrown st, w1)
    /\ commitUnitOfWork env_quiet w1 = (Ok tt, w2)
    /\ _state (ru w2) = kInactive
    /\ _lastTimestampSet (ru w2) = Some 7.
Proof.
  eassert (H : setTimestamp env_read_too_old 7
                 (after (quietly [OpBeginUnitOfWork]) w_provided) = (Thrown _, _))
    by (vm_compute; reflexivity).
  match type of H with
  | _ = (_, ?w1) =>
      eassert (H2 : commitUnitOfWork env_quiet w1 = (Ok tt, _))
        by (vm_compute; reflexivity)
  end.
  destruct (X23_timestamp_outlives_failed_open _ _ _ _ _ _ _ H (or_introl H2))
    as (Hst & Hlts & _).
  eexists _, _, _. split; [exact H|]. split; [exact H2|].
  split; [exact Hst | exact Hlts].
Defined.
(** X24.  A unit of work begun while a read transaction is open adopts that
    transaction: [beginUnitOfWork] calls nothing and the state becomes
    [Active]; the end of the unit of work then begins no transaction and
    ends the adopted one, by a commit or by a rollback. *)
Theorem X24_unit_of_work_adopts_transaction env commit w w1 w2 :
  _isActive (ru w) = true ->
  is_Some (_session (ru w)) ->
  beginUnitOfWork w = (Ok tt, w1) ->
  endUnitOfWork env commit w1 = (Ok tt, w2) ->
  _state (ru w1) = kActive
  /\ trace w1 = trace w
  /\ occurrences is_begin (trace w2) = occurrences is_begin (trace w)
  /\ occurrences is_engine_commit (trace w2)
     = (occurrences is_engine_commit (trace w) + (if commit then 1 else 0))%nat
  /\ occurrences is_engine_rollback (trace w2)
     = (occurrences is_engine_rollback (trace w) + (if commit then 0 else 1))%nat.
Proof.
  intros Hact [s Hs] Hbegin Hend.
  assert (Hw1 : _state (ru w1) = kActive /\ trace w1 = trace w
                /\ closes (ru w1) = true).
  { clear Hend. destruct w as [r c tr].
    destruct r as [st ses sid chs cts lts pts rat mcs src ip oplog ord tsd tmr].
    simpl in Hs. subst ses.
    destruct st; try discriminate Hact; munfold; simpl in Hbegin;
      try discriminate Hbegin; injection Hbegin as <-; repeat split. }
  destruct Hw1 as (Hst & Htr1 & Hcl).
  split; [exact Hst|]. split; [exact Htr1|].
  destruct (end_calls_counts env commit w1) as (Eb & _ & _ & Ec & Er & _).
  rewrite Hcl in Ec, Er. simpl in Ec, Er.
  unfold endUnitOfWork in Hend. destruct commit.
  - apply commitUnitOfWork_Ok in Hend. destruct Hend as [_ Hend].
    apply _commit_Ok in Hend. destruct Hend as [Htr _].
    change (map _ (_changes (ru w1)))
      with (commit_calls (effectiveCommitTime (ru w1)) (_changes (ru w1))) in Htr.
    rewrite Htr, Htr1, !occurrences_app, Eb, Ec, Er,
      !occurrences_commit_calls by reflexivity.
    repeat split; lia.
  - apply abortUnitOfWork_Ok in Hend. destruct Hend as [_ Hend].
    apply _abort_Ok in Hend. destruct Hend as [Htr _].
    rewrite Htr, Htr1, !occurrences_app, Eb, Ec, Er,
      !occurrences_map_rollback by reflexivity.
    repeat split; lia.
Qed.

Lemma X24_unit_of_work_adopts_transaction_witness :
  exists w1 w2,
    beginUnitOfWork w_reading = (Ok tt, w1)
    /\ endUnitOfWork env_quiet true w1 = (Ok tt, w2)
    /\ _state (ru w1) = kActive
    /\ occurrences is_begin (trace w2) = 1%nat
    /\ occurrences is_engine_commit (trace w2) = 1%nat.
Proof.
  eassert (H1 : beginUnitOfWork w_reading = (Ok tt, _)) by (vm_compute; reflexivity).
  match type of H1 with
  | _ = (_, ?w1) =>
      eassert (H2 : endUnitOfWork env_quiet true w1 = (Ok tt, _))
        by (vm_compute; reflexivity)
  end.
  destruct (X24_unit_of_work_adopts_transaction env_quiet true w_reading _ _
              eq_refl (ex_intro _ 7 eq_refl) H1 H2) as (Hst & _ & Hb & Hc & _).
  eexists _, _. split; [exact H1|]. split; [exact H2|]. split; [exact Hst|].
  split; [refine (eq_trans Hb _) | refine (eq_trans Hc _)]; vm_compute; reflexivity.
Defined.

(** *** Operations that only read *)



(** *** The ignore-prepared mode *)

(** X26.  The mode set by [setIgnorePrepared] is the one the next
    transaction is begun with, whichever read source opens it and whatever
    the outcome of the open; [getSession] begins exactly one transaction. *)
Theorem X26_ignore_prepared_at_open env value w w1 o w2 :
  setIgnorePrepared value w = (Ok tt, w1) ->
  _isActive (ru w) = false ->
  _isCommittingOrAborting (ru w) = false ->
  getSession env w1 = (o, w2) ->
  exists e,
    only is_begin (trace w2) = only is_begin (trace w) ++ [e]
    /\ begin_mode e = Some (if value then kIgnore else kNoIgnore).
Proof.
  destruct w as [r c tr].
  destruct r as [st ses sid chs cts lts pts rat mcs src ip oplog ord tsd tmr].
  intros Hset Hact Hca H.
  unfold setIgnorePrepared in Hset. cbv [modifyRU] in Hset. simpl in Hset.
  injection Hset as <-.
  destruct st; try discriminate Hact; try discriminate Hca; destruct src, ses;
    munfold; simpl in H; mcases; simpl;
    rewrite ?only_app; unfold only; simpl; rewrite ?app_nil_r;
    eexists; (split; [reflexivity|]); reflexivity.
Qed.

Lemma X26_ignore_prepared_at_open_witness :
  exists w1 w2,
    setIgnorePrepared true w_last_applied_snapshot = (Ok tt, w1)
    /\ getSession env_snapshots w1 = (Ok (Some 7), w2)
    /\ exists e, only is_begin (trace w2) = [e] /\ begin_mode e = Some kIgnore.
Proof.
  eassert (H1 : setIgnorePrepared true w_last_applied_snapshot = (Ok tt, _))
    by (vm_compute; reflexivity).
  match type of H1 with
  | _ = (_, ?w1) =>
      eassert (H2 : getSession env_snapshots w1 = (Ok (Some 7), _))
        by (vm_compute; reflexivity)
  end.
  destruct (X26_ignore_prepared_at_open env_snapshots true w_last_applied_snapshot
              _ _ _ H1 eq_refl eq_refl H2) as (e & He & Hmode).
  eexists _, _. split; [exact H1|]. split; [exact H2|].
  exists e. split; [exact He | exact Hmode].
Defined.
(** *** The read sources that cannot throw *)

(** X27.  Without a timestamp read source ([kUnset], [kNoTimestamp])
    [getSession] begins a plain transaction and cannot fail, unless the
    recovery unit is an oplog reader: then it sets the read timestamp to the
    oplog manager's read timestamp, rounded to oldest, and a refusal by the
    engine is fatal (fassert 50771), never thrown. *)
Theorem X27_untimestamped_open env w o w' :
  _timestampReadSource (ru w) = kUnset \/ _timestampReadSource (ru w) = kNoTimestamp ->
  _isActive (ru w) = false ->
  _isCommittingOrAborting (ru w) = false ->
  getSession env w = (o, w') ->
  let asked := Timestamp_ofULL (oplogManager_getOplogReadTimestamp env) in
  let accepted := isOK (beginTxnBlock_setTimestamp env asked kRound) in
  trace w' = trace w ++ acquire_calls env (ru w)
             ++ [EvBeginTransaction (_ignorePrepared (ru w))]
             ++ (if _isOplogReader (ru w) then [EvBlockSetTimestamp asked kRound] else [])
  /\ o = (if negb (_isOplogReader (ru w)) || accepted
          then Ok (_session (ru w')) else Fatal (FassertFailure 50771)).
Proof.
  destruct w as [r c tr].
  destruct r as [st ses sid chs cts lts pts rat mcs src ip oplog ord tsd tmr].
  unfold acquire_calls. simpl. intros Hsrc Hact Hca H.
  destruct Hsrc as [-> | ->];
    destruct st; try discriminate Hact; try discriminate Hca; destruct ses, oplog;
    munfold; simpl in H; mcases; simpl;
    repeat match goal with
      | H : isOK ?s = _ |- context [isOK ?s] => rewrite H
      end;
    rewrite <- ?app_assoc; split; reflexivity.
Qed.

Lemma X27_untimestamped_open_witness :
  exists w',
    getSession env_read_failed w_oplog_reader = (Fatal (FassertFailure 50771), w')
    /\ trace w' = trace w_oplog_reader
                  ++ [EvCacheGetSession 7; EvBeginTransaction kNoIgnore;
                      EvBlockSetTimestamp 0 kRound].
Proof.
  eassert (H : getSession env_read_failed w_oplog_reader = (Fatal _, _))
    by (vm_compute; reflexivity).
  destruct (X27_untimestamped_open env_read_failed w_oplog_reader _ _
              (or_introl eq_refl) eq_refl eq_refl H) as [Htr _].
  eexists. split; [exact H | exact Htr].
Defined.

(** X28.  Under read sources [kMajorityCommitted] and [kLastApplied]
    [getSession] cannot fail.  It begins the transaction on the snapshot
    manager's committed snapshot, or on its local snapshot when there is one
    and plainly otherwise, and records the timestamp the snapshot manager
    answers: as [_majorityCommittedSnapshot] in the first case, as
    [_readAtTimestamp] in the second. *)
Theorem X28_snapshot_manager_open env w :
  _isActive (ru w) = false ->
  _isCommittingOrAborting (ru w) = false ->
  (_timestampReadSource (ru w) = kMajorityCommitted ->
   exists s w',
     getSession env w = (Ok (Some s), w')
     /\ _session (ru w') = Some s
     /\ _majorityCommittedSnapshot (ru w')
        = snapshotManager_beginTransactionOnCommittedSnapshot env
     /\ trace w' = trace w ++ acquire_calls env (ru w)
                   ++ [EvBeginTransactionOnCommittedSnapshot (_ignorePrepared (ru w))])
  /\ (_timestampReadSource (ru w) = kLastApplied ->
      exists s w',
        getSession env w = (Ok (Some s), w')
        /\ _session (ru w') = Some s
        /\ match snapshotManager_getLocalSnapshot env with
           | Some _ =>
               _readAtTimestamp (ru w')
               = snapshotManager_beginTransactionOnLocalSnapshot env
               /\ trace w' = trace w ++ acquire_calls env (ru w)
                             ++ [EvBeginTransactionOnLocalSnapshot (_ignorePrepared (ru w))]
           | None =>
               _readAtTimestamp (ru w') = _readAtTimestamp (ru w)
               /\ trace w' = trace w ++ acquire_calls env (ru w)
                             ++ [EvBeginTransaction (_ignorePrepared (ru w))]
           end).
Proof.
  destruct w as [r c tr].
  destruct r as [st ses sid chs cts lts pts rat mcs src ip oplog ord tsd tmr].
  unfold acquire_calls. simpl. intros Hact Hca.
  split; intros ->;
    destruct (shouldLog_kSlowTransactionSeverity env) eqn:Hlog;
    destruct (snapshotManager_getLocalSnapshot env) as [loc|] eqn:Hloc;
    destruct st; try discriminate Hact; try discriminate Hca; destruct ses;
    munfold; repeat (progress (simpl; rewrite ?Hlog, ?Hloc));
    eexists _, _; (split; [reflexivity|]); simpl; rewrite <- ?app_assoc;
    repeat split; reflexivity.
Qed.

Lemma X28_snapshot_manager_open_witness :
  exists w',
    getSession env_snapshots
      (after [(env_quiet, OpSetTimestampReadSource kMajorityCommitted None)] (constructed 1))
    = (Ok (Some 7), w')
    /\ _majorityCommittedSnapshot (ru w') = 40.
Proof.
  destruct (proj1 (X28_snapshot_manager_open env_snapshots
              (after [(env_quiet, OpSetTimestampReadSource kMajorityCommitted None)]
                 (constructed 1)) eq_refl eq_refl) eq_refl) as (s & w' & H & _ & Hts & _).
  assert (Hs7 : s = 7).
  { eassert (H' : getSession env_snapshots
                    (after [(env_quiet, OpSetTimestampReadSource kMajorityCommitted None)]
                       (constructed 1)) = (Ok (Some 7), _))
      by (vm_compute; reflexivity).
    rewrite H' in H. injection H as <- _. reflexivity. }
  subst s. exists w'. split; [exact H | exact Hts].
Defined.
